(** * NTSC/CRT: a shallow embedding of [crt.c]

    Integer-only NTSC video signal encoding and decoding.  The C program is
    translated function by function: [int] is a 32-bit two's complement
    integer carried in [Z] with the wrap-around written out, the arrays of
    [struct CRT] are lists read and written by index, memory reached through
    a caller's pointer ([s->rgb], [v->out]) is a map from element offset to
    value, and the function-static and file-static variables of [crt.c]
    (the noise generator, the six filters) are an explicit record threaded
    through the calls. *)

From Stdlib Require Import ZArith Lia Bool String.
From stdpp Require Import base list.
From coqutil Require Import Z.bitblast.

Local Open Scope Z_scope.

(** ** C integers *)

Module Int.

Definition min_signed : Z := - 2 ^ 31.
Definition max_signed : Z := 2 ^ 31 - 1.

(** Reduction of a mathematical integer to the value an [int] holds. *)
Definition sint (x : Z) : Z := (x + 2 ^ 31) mod 2 ^ 32 - 2 ^ 31.
(** Reduction to the value an [unsigned] holds. *)
Definition uint (x : Z) : Z := x mod 2 ^ 32.

Definition in_range (x : Z) : Prop := min_signed <= x <= max_signed.

Definition add (a b : Z) : Z := sint (a + b).
Definition sub (a b : Z) : Z := sint (a - b).
Definition mul (a b : Z) : Z := sint (a * b).
Definition neg (a : Z) : Z := sint (- a).
(** [/] and [%] truncate toward zero; a divisor that is not a constant is
    checked by the caller. *)
Definition div (a b : Z) : Z := sint (Z.quot a b).
Definition rem (a b : Z) : Z := Z.rem a b.
Definition shl (a n : Z) : Z := sint (Z.shiftl a n).
(** [>>] on a negative [int] is the arithmetic shift. *)
Definition shr (a n : Z) : Z := Z.shiftr a n.
Definition and (a b : Z) : Z := Z.land a b.
Definition or (a b : Z) : Z := Z.lor a b.
Definition not (a : Z) : Z := Z.lnot a.

(** [+=] on an [unsigned]. *)
Definition uadd (a b : Z) : Z := uint (a + b).

End Int.

(** The operators of C on [int]; [+], [-], [*] of [Z] are kept for offsets
    into memory and for loop counters, which their loops bound. *)
Infix "^+" := Int.add (at level 50, left associativity).
Infix "^-" := Int.sub (at level 50, left associativity).
Infix "^*" := Int.mul (at level 40, left associativity).
Infix "^/" := Int.div (at level 40, left associativity).
Infix "^%" := Int.rem (at level 40, left associativity).
Infix "^<<" := Int.shl (at level 52, left associativity).
Infix "^>>" := Int.shr (at level 52, left associativity).
Infix "^&" := Int.and (at level 53, left associativity).
Infix "^|" := Int.or (at level 54, left associativity).

(** ** Small arrays

    The filter records and the decoder keep arrays of three or four [int]s
    whose indices are literals or masked with [& 3]; they are lists read with
    a total lookup. *)

Definition rd (a : list Z) (i : Z) : Z := a !!! Z.to_nat i.
Definition wr (a : list Z) (i : Z) (x : Z) : list Z := <[Z.to_nat i := x]> a.

(** [for (i = lo; i < lo + n; i++) st = body i st] *)
Fixpoint for_up {S : Type} (n : nat) (i : Z) (body : Z -> S -> S) (st : S) : S :=
  match n with
  | O => st
  | Datatypes.S n' => for_up n' (i + 1) body (body i st)
  end.

(** ** Filters *)

Definition HISTLEN : Z := 3.
Definition HISTOLD : Z := HISTLEN - 1.
Definition HISTNEW : Z := 0.

Definition EQ_P : Z := 16.
Definition EQ_R : Z := Eval cbv in Z.shiftl 1 (EQ_P - 1).

(** [struct EQF]: the three band equalizer. *)
Module EQF.
Record t : Type := mk {
  lf : Z; hf : Z;     (* fractions *)
  g : list Z;         (* gains, int g[3] *)
  fL : list Z;        (* int fL[4] *)
  fH : list Z;        (* int fH[4] *)
  h : list Z          (* history, int h[HISTLEN] *)
}.
Definition set_fL (f : t) (a : list Z) : t := mk (lf f) (hf f) (g f) a (fH f) (h f).
Definition set_fH (f : t) (a : list Z) : t := mk (lf f) (hf f) (g f) (fL f) a (h f).
Definition set_h (f : t) (a : list Z) : t := mk (lf f) (hf f) (g f) (fL f) (fH f) a.
End EQF.

(** [memset] of the three state arrays; [lf], [hf] and [g] persist. *)
Definition reset_eq (f : EQF.t) : EQF.t :=
  EQF.mk (EQF.lf f) (EQF.hf f) (EQF.g f) [0; 0; 0; 0] [0; 0; 0; 0] [0; 0; 0].

(** The first statements of [eqf]:
    [f->fL[0] += (f->lf * (s - f->fL[0]) + EQ_R) >> EQ_P] and the same for
    [fH] with [hf]. *)
Definition eqf_input (s : Z) (f : EQF.t) : EQF.t :=
  let f1 := EQF.set_fL f (wr (EQF.fL f) 0
              (rd (EQF.fL f) 0
               ^+ ((EQF.lf f ^* (s ^- rd (EQF.fL f) 0) ^+ EQ_R) ^>> EQ_P))) in
  EQF.set_fH f1 (wr (EQF.fH f1) 0
              (rd (EQF.fH f1) 0
               ^+ ((EQF.hf f1 ^* (s ^- rd (EQF.fH f1) 0) ^+ EQ_R) ^>> EQ_P))).

(** The body of [for (i = 1; i < 4; i++)]:
    [f->fL[i] += (f->lf * (f->fL[i - 1] - f->fL[i]) + EQ_R) >> EQ_P] and the
    same for [fH]. *)
Definition eqf_stage (i : Z) (f : EQF.t) : EQF.t :=
  let f1 := EQF.set_fL f (wr (EQF.fL f) i
              (rd (EQF.fL f) i
               ^+ ((EQF.lf f ^* (rd (EQF.fL f) (i - 1) ^- rd (EQF.fL f) i) ^+ EQ_R)
                   ^>> EQ_P))) in
  EQF.set_fH f1 (wr (EQF.fH f1) i
              (rd (EQF.fH f1) i
               ^+ ((EQF.hf f1 ^* (rd (EQF.fH f1) (i - 1) ^- rd (EQF.fH f1) i) ^+ EQ_R)
                   ^>> EQ_P))).

(** The filter state after the two cascades have taken the sample. *)
Definition eqf_cascade (f : EQF.t) (s : Z) : EQF.t :=
  for_up 3 1 eqf_stage (eqf_input s f).

(** [r[0..2]] before the gains are applied: low, mid and high band. *)
Definition eqf_bands (f : EQF.t) : list Z :=
  [ rd (EQF.fL f) 3;
    rd (EQF.fH f) 3 ^- rd (EQF.fL f) 3;
    rd (EQF.h f) HISTOLD ^- rd (EQF.fH f) 3 ].

(** [for (i = 0; i < 3; i++) r[i] = (r[i] * f->g[i]) >> EQ_P] *)
Definition eqf_gain (f : EQF.t) (r : list Z) : list Z :=
  for_up 3 0 (fun i r => wr r i ((rd r i ^* rd (EQF.g f) i) ^>> EQ_P)) r.

(** [for (i = HISTOLD; i > 0; i--) f->h[i] = f->h[i - 1]; f->h[HISTNEW] = s] *)
Definition eqf_shift (s : Z) (f : EQF.t) : EQF.t :=
  let h1 := wr (EQF.h f) 2 (rd (EQF.h f) 1) in
  let h2 := wr h1 1 (rd h1 0) in
  EQF.set_h f (wr h2 HISTNEW s).

Definition eqf (f : EQF.t) (s : Z) : EQF.t * Z :=
  let f1 := eqf_cascade f s in
  let r := eqf_gain f1 (eqf_bands f1) in
  (eqf_shift s f1, rd r 0 ^+ rd r 1 ^+ rd r 2).

(** The sum of the three bands of a step, before the gains. *)
Definition eqf_band_sum (f : EQF.t) (s : Z) : Z :=
  let r := eqf_bands (eqf_cascade f s) in
  rd r 0 ^+ rd r 1 ^+ rd r 2.

(** Feeding a sequence of samples: the final state and the outputs. *)
Fixpoint eqf_run (f : EQF.t) (xs : list Z) : EQF.t * list Z :=
  match xs with
  | [] => (f, [])
  | s :: xs' =>
      let '(f1, y) := eqf f s in
      let '(f2, ys) := eqf_run f1 xs' in
      (f2, y :: ys)
  end.

(** The band sums (before gain) along a run. *)
Fixpoint eqf_run_band_sums (f : EQF.t) (xs : list Z) : list Z :=
  match xs with
  | [] => []
  | s :: xs' => eqf_band_sum f s :: eqf_run_band_sums (fst (eqf f s)) xs'
  end.

(** [struct IIRLP]: single-pole low pass filter for bandlimiting Y, I, Q. *)
Module IIRLP.
Record t : Type := mk {
  c : Z;
  h : Z   (* history *)
}.
End IIRLP.

Definition EXP_P : Z := 11.
Definition EXP_ONE : Z := Eval cbv in Z.shiftl 1 EXP_P.
Definition EXP_MASK : Z := EXP_ONE - 1.
Definition EXP_PI : Z := 6434.

Definition EXP_MUL (x y : Z) : Z := (x ^* y) ^>> EXP_P.
Definition EXP_DIV (x y : Z) : Z := (x ^<< EXP_P) ^/ y.

Definition reset_iir (f : IIRLP.t) : IIRLP.t := IIRLP.mk (IIRLP.c f) 0.

(** [f->h += EXP_MUL(s - f->h, f->c); return f->h;]  ([HIPASS] is 0). *)
Definition iirf (f : IIRLP.t) (s : Z) : IIRLP.t * Z :=
  let h' := IIRLP.h f ^+ EXP_MUL (s ^- IIRLP.h f) (IIRLP.c f) in
  (IIRLP.mk (IIRLP.c f) h', h').

(** ** Faults

    An access outside an array of [struct CRT] or of the decoder's frame, a
    read of a local that was never written, and a division by zero have no
    defined result in C.  The embedding stops there and reports the fault
    together with the state reached. *)

Inductive fault : Type :=
  | OutOfBounds (idx : Z)
  | Uninitialised (idx : Z)
  | DivisionByZero.

Inductive res (A : Type) : Type :=
  | Ok (a : A)
  | Fault (f : fault).
Arguments Ok {A} a.
Arguments Fault {A} f.

Definition res_bind {A B : Type} (r : res A) (k : A -> res B) : res B :=
  match r with
  | Ok a => k a
  | Fault f => Fault f
  end.

Notation "'let*' x ':=' e 'in' k" := (res_bind e (fun x => k))
  (at level 10, x pattern, e at level 100, k at level 200).

(** A computation that writes: the state it reached, and the fault that
    stopped it, if any. *)
Definition run (W : Type) : Type := (W * option fault)%type.

Definition done {W : Type} (w : W) : run W := (w, Datatypes.None).
Definition stop {W : Type} (w : W) (f : fault) : run W := (w, Datatypes.Some f).

Definition and_then {W : Type} (r : run W) (k : W -> run W) : run W :=
  match r with
  | (w, Datatypes.None) => k w
  | (w, Datatypes.Some f) => (w, Datatypes.Some f)
  end.

Notation "r ;> k" := (and_then r k) (at level 62, left associativity).

(** [for (i = lo; i < lo + n; i++) body], stopping at the first fault. *)
Fixpoint for_run {W : Type} (n : nat) (i : Z) (body : Z -> W -> run W) (w : W) : run W :=
  match n with
  | O => done w
  | Datatypes.S n' =>
      match body i w with
      | (w', Datatypes.None) => for_run n' (i + 1) body w'
      | (w', Datatypes.Some f) => (w', Datatypes.Some f)
      end
  end.

(** [for (i = lo; i < lo + n; i++) body] for a loop that only reads. *)
Fixpoint for_res {S : Type} (n : nat) (i : Z) (body : Z -> S -> res S) (st : S) : res S :=
  match n with
  | O => Ok st
  | Datatypes.S n' => let* st' := body i st in for_res n' (i + 1) body st'
  end.

(** Conversion of an [int] to the [signed char] an array element holds. *)
Definition schar (x : Z) : Z := (x + 128) mod 256 - 128.

(** [a[i]] for an array of [struct CRT]. *)
Definition aget (a : list Z) (i : Z) : res Z :=
  if 0 <=? i then
    match a !! Z.to_nat i with
    | Datatypes.Some x => Ok x
    | Datatypes.None => Fault (OutOfBounds i)
    end
  else Fault (OutOfBounds i).

(** [a[i] = x] for a [signed char] array of [struct CRT]. *)
Definition aset (a : list Z) (i x : Z) : res (list Z) :=
  if (0 <=? i) && (i <? Z.of_nat (length a)) then Ok (<[Z.to_nat i := schar x]> a)
  else Fault (OutOfBounds i).

(** Memory behind a caller's pointer: element offset to value. *)
Definition mem : Type := Z -> Z.
Definition mem_set (m : mem) (k x : Z) : mem := fun j => if j =? k then x else m j.

(** [memcpy(m + dst, m + src, n * sizeof(int))] *)
Definition memcpy_int (m : mem) (dst src n : Z) : mem :=
  fun k => if (dst <=? k) && (k <? dst + n) then m (src + (k - dst)) else m k.

(** ** [crt.h]

    The header is not part of the sources at hand; the constants it defines
    are parameters of the development.  [crt.c] fixes how they are used:
    [CRT_HRES] samples per line, [CRT_VRES] lines, [CRT_INPUT_SIZE] elements
    in [analog] and [inp], active video on lines [CRT_TOP] to [CRT_BOT]
    exclusive, [CRT_LINES] of them, and [CRT_CB_FREQ] samples per subcarrier
    cycle. *)

Class crt_h : Type := {
  CRT_CB_FREQ : Z;
  CRT_HRES : Z;
  CRT_VRES : Z;
  CRT_INPUT_SIZE : Z;
  CRT_TOP : Z;
  CRT_BOT : Z;
  CRT_LINES : Z
}.

(** The NTSC geometry the comments of [crt.c] describe: 227.5 subcarrier
    cycles of 4 samples per line, 262 lines per field. *)
Definition ntsc_h : crt_h := {|
  CRT_CB_FREQ := 4;
  CRT_HRES := 910;
  CRT_VRES := 262;
  CRT_INPUT_SIZE := 910 * 262;
  CRT_TOP := 21;
  CRT_BOT := 261;
  CRT_LINES := 261 - 21
|}.

(** [struct CRT]; [out] is the memory behind the [int *out] pointer. *)
Module CRT.
Record t : Type := mk {
  analog : list Z;
  inp : list Z;
  hsync : Z; vsync : Z;
  brightness : Z; contrast : Z; saturation : Z;
  black_point : Z; white_point : Z;
  outw : Z; outh : Z;
  out : mem
}.
Definition set_analog (v : t) (a : list Z) : t :=
  mk a (inp v) (hsync v) (vsync v) (brightness v) (contrast v) (saturation v)
     (black_point v) (white_point v) (outw v) (outh v) (out v).
Definition set_inp (v : t) (a : list Z) : t :=
  mk (analog v) a (hsync v) (vsync v) (brightness v) (contrast v) (saturation v)
     (black_point v) (white_point v) (outw v) (outh v) (out v).
Definition set_hsync (v : t) (x : Z) : t :=
  mk (analog v) (inp v) x (vsync v) (brightness v) (contrast v) (saturation v)
     (black_point v) (white_point v) (outw v) (outh v) (out v).
Definition set_vsync (v : t) (x : Z) : t :=
  mk (analog v) (inp v) (hsync v) x (brightness v) (contrast v) (saturation v)
     (black_point v) (white_point v) (outw v) (outh v) (out v).
Definition set_out (v : t) (m : mem) : t :=
  mk (analog v) (inp v) (hsync v) (vsync v) (brightness v) (contrast v) (saturation v)
     (black_point v) (white_point v) (outw v) (outh v) m.
End CRT.

(** [struct NTSC_SETTINGS]; [rgb] is the memory behind the pointer. *)
Module NTSC_SETTINGS.
Record t : Type := mk {
  rgb : mem;
  w : Z; h : Z;
  as_color : Z;
  field : Z
}.
Definition set_field (s : t) (x : Z) : t := mk (rgb s) (w s) (h s) (as_color s) x.
End NTSC_SETTINGS.

(** The variables of [crt.c] with static storage: the noise generator of
    [crt_draw] and the six filters. *)
Module Statics.
Record t : Type := mk {
  rn : Z;
  eqY : EQF.t; eqI : EQF.t; eqQ : EQF.t;
  iirY : IIRLP.t; iirI : IIRLP.t; iirQ : IIRLP.t
}.
Definition set_rn (g : t) (x : Z) : t :=
  mk x (eqY g) (eqI g) (eqQ g) (iirY g) (iirI g) (iirQ g).
Definition set_eq (g : t) (y i q : EQF.t) : t :=
  mk (rn g) y i q (iirY g) (iirI g) (iirQ g).
Definition set_iir (g : t) (y i q : IIRLP.t) : t :=
  mk (rn g) (eqY g) (eqI g) (eqQ g) y i q.
End Statics.

(** ** Line timing *)

Definition LINE_BEG : Z := 0.
Definition FP_ns : Z := 1500.
Definition SYNC_ns : Z := 4700.
Definition BW_ns : Z := 600.
Definition CB_ns : Z := 2500.
Definition BP_ns : Z := 1600.
Definition AV_ns : Z := 52600.
Definition HB_ns : Z := FP_ns ^+ SYNC_ns ^+ BW_ns ^+ CB_ns ^+ BP_ns.
Definition LINE_ns : Z := FP_ns ^+ SYNC_ns ^+ BW_ns ^+ CB_ns ^+ BP_ns ^+ AV_ns.

Definition CB_CYCLES : Z := 10.

Definition WHITE_LEVEL : Z := 100.
Definition BURST_LEVEL : Z := 20.
Definition BLACK_LEVEL : Z := 7.
Definition BLANK_LEVEL : Z := 0.
Definition SYNC_LEVEL : Z := -40.

Definition HSYNC_WINDOW : Z := 8.
Definition VSYNC_WINDOW : Z := 8.

Section Timing.
Context {hdr : crt_h}.

(** convert nanosecond offset to its corresponding point on the sampled line *)
Definition ns2pos (ns : Z) : Z := ns ^* CRT_HRES ^/ LINE_ns.
Definition FP_BEG : Z := ns2pos 0.
Definition SYNC_BEG : Z := ns2pos FP_ns.
Definition BW_BEG : Z := ns2pos (FP_ns ^+ SYNC_ns).
Definition CB_BEG : Z := ns2pos (FP_ns ^+ SYNC_ns ^+ BW_ns).
Definition BP_BEG : Z := ns2pos (FP_ns ^+ SYNC_ns ^+ BW_ns ^+ CB_ns).
Definition AV_BEG : Z := ns2pos HB_ns.
Definition AV_LEN : Z := ns2pos AV_ns.

(** 227.5 subcarrier cycles per line means every other line has reversed phase *)
Definition CC_PHASE (ln : Z) : Z := if (ln ^& 1) =? 0 then 1 else -1.
(** ensure negative values for x get properly modulo'd *)
Definition POSMOD (x n : Z) : Z := (x ^% n ^+ n) ^% n.

End Timing.

(** ** Fixed point math and configuration *)

Definition T14_2PI : Z := 16384.
Definition T14_MASK : Z := T14_2PI ^- 1.
Definition T14_PI : Z := T14_2PI ^/ 2.

(** significant points on sine wave (15-bit) *)
Definition sigpsin15 : list Z :=
  [ 0x0000;
    0x0c88; 0x18f8; 0x2528; 0x30f8; 0x3c50; 0x4718; 0x5130; 0x5a80;
    0x62f0; 0x6a68; 0x70e0; 0x7640; 0x7a78; 0x7d88; 0x7f60; 0x8000;
    0x7f60 ].

Definition e11 : list Z := [ EXP_ONE; 5567; 15133; 41135; 111817 ].

(** The table has 18 entries and [sincos14] passes arguments up to
    [T14_2PI >> 2], for which [i + 1 <= 17]. *)
Definition sintabil8 (n : Z) : Z :=
  let f := (n ^>> 0) ^& 0xff in
  let i := (n ^>> 8) ^& 0xff in
  let a := rd sigpsin15 i in
  let b := rd sigpsin15 (i ^+ 1) in
  a ^+ (((b ^- a) ^* f) ^>> 8).

(** 14-bit interpolated sine/cosine: the pair [(s, c)]. *)
Definition sincos14 (n : Z) : Z * Z :=
  let n := n ^& T14_MASK in
  let h := n ^& ((T14_2PI ^>> 1) ^- 1) in
  let '(s, c) :=
    if h >? (T14_2PI ^>> 2) ^- 1 then
      (sintabil8 ((T14_2PI ^>> 1) ^- h), Int.neg (sintabil8 (h ^- (T14_2PI ^>> 2))))
    else
      (sintabil8 h, sintabil8 ((T14_2PI ^>> 2) ^- h)) in
  if n >? (T14_2PI ^>> 1) ^- 1 then (Int.neg s, Int.neg c) else (s, c).

(** The series loop of [expx]: [for (i = 1; i < 17; i++)] with its [break]. *)
Fixpoint expx_series (k : nat) (n i nxt acc del : Z) : Z :=
  match k with
  | O => acc
  | Datatypes.S k' =>
      (* [del] is positive here: it starts at 1 and the loop leaves as soon
         as it is not *)
      let acc := acc ^+ nxt ^/ del in
      let nxt := EXP_MUL nxt n in
      let del := del ^* i in
      if (del >? nxt) || (nxt <=? 0) || (del <=? 0) then acc
      else expx_series k' n (i + 1) nxt acc del
  end.

(** fixed point e^x; a fault where the C code divides by zero. *)
Definition expx (n : Z) : res Z :=
  if n =? 0 then Ok EXP_ONE
  else
    let neg := n <? 0 in
    let n := if neg then Int.neg n else n in
    let idx := n ^>> EXP_P in
    let res := for_up (Z.to_nat (idx ^/ 4)) 0 (fun _ r => EXP_MUL r (rd e11 4)) EXP_ONE in
    let idx := idx ^& 3 in
    let res := if idx >? 0 then EXP_MUL res (rd e11 idx) else res in
    let n := n ^& EXP_MASK in
    let acc := expx_series 16 n 1 EXP_ONE 0 1 in
    let res := EXP_MUL res acc in
    if neg then
      if res =? 0 then Fault DivisionByZero else Ok (EXP_DIV EXP_ONE res)
    else Ok res.

(** [init_eq]; [EQ_P >= 15] holds, so the first branch of each [if] is the
    one taken. *)
Definition init_eq (f_lo f_hi rate g_lo g_mid g_hi : Z) : res EQF.t :=
  if rate =? 0 then Fault DivisionByZero
  else
    let '(sn, _) := sincos14 (T14_PI ^* f_lo ^/ rate) in
    let lf := 2 ^* (sn ^<< (EQ_P ^- 15)) in
    let '(sn, _) := sincos14 (T14_PI ^* f_hi ^/ rate) in
    let hf := 2 ^* (sn ^<< (EQ_P ^- 15)) in
    Ok (EQF.mk lf hf [g_lo; g_mid; g_hi] [0; 0; 0; 0] [0; 0; 0; 0] [0; 0; 0]).

Definition init_iir (freq limit : Z) : res IIRLP.t :=
  if limit =? 0 then Fault DivisionByZero
  else
    let rate := (freq ^<< 9) ^/ limit in
    if rate =? 0 then Fault DivisionByZero
    else
      let* e := expx (Int.neg ((EXP_PI ^<< 9) ^/ rate)) in
      Ok (IIRLP.mk (EXP_ONE ^- e) 0).

Definition L_FREQ : Z := 1431818.
Definition Y_FREQ : Z := 420000.
Definition I_FREQ : Z := 150000.
Definition Q_FREQ : Z := 55000.

Section Init.
Context {hdr : crt_h}.

Definition crt_resize (v : CRT.t) (w h : Z) (out : mem) : CRT.t :=
  CRT.mk (CRT.analog v) (CRT.inp v) (CRT.hsync v) (CRT.vsync v)
    (CRT.brightness v) (CRT.contrast v) (CRT.saturation v)
    (CRT.black_point v) (CRT.white_point v) w h out.

Definition crt_reset (v : CRT.t) : CRT.t :=
  CRT.mk (CRT.analog v) (CRT.inp v) 0 0 0 179 18 0 100
    (CRT.outw v) (CRT.outh v) (CRT.out v).

(** kilohertz to line sample conversion *)
Definition kHz2L (kHz : Z) : Z := CRT_HRES ^* (kHz ^* 100) ^/ L_FREQ.

(** [crt_init]: the context after [memset], [crt_resize] and [crt_reset],
    and the six filters; the noise generator is not touched. *)
Definition crt_init (w h : Z) (out : mem) (rn : Z) : res (CRT.t * Statics.t) :=
  let zeros := replicate (Z.to_nat CRT_INPUT_SIZE) 0 in
  let v := CRT.mk zeros zeros 0 0 0 0 0 0 0 0 0 out in
  let v := crt_reset (crt_resize v w h out) in
  let* eqY := init_eq (kHz2L 1500) (kHz2L 3000) CRT_HRES 65536 8192 9175 in
  let* eqI := init_eq (kHz2L 80) (kHz2L 1150) CRT_HRES 65536 65536 1311 in
  let* eqQ := init_eq (kHz2L 80) (kHz2L 1000) CRT_HRES 65536 65536 0 in
  let* iirY := init_iir L_FREQ Y_FREQ in
  let* iirI := init_iir L_FREQ I_FREQ in
  let* iirQ := init_iir L_FREQ Q_FREQ in
  Ok (v, Statics.mk rn eqY eqI eqQ iirY iirI iirQ).

End Init.

(** ** Encoder: [crt_2ntsc] *)

(** What the render loops of [crt_2ntsc] write: the signal and the three
    low pass filters. *)
Module Enc.
Record t : Type := mk {
  analog : list Z;
  iirY : IIRLP.t; iirI : IIRLP.t; iirQ : IIRLP.t
}.
End Enc.

(** color carrier phase *)
Definition cc : list Z := [0; 1; 0; -1].

Definition even_offs : list Z := [46; 50; 96; 100].
Definition odd_offs : list Z := [4; 50; 96; 100].

(** [if (ire < 0) ire = 0; if (ire > 110) ire = 110;] *)
Definition clamp_ire (ire : Z) : Z :=
  let ire := if ire <? 0 then 0 else ire in
  if ire >? 110 then 110 else ire.

(** RGB to YIQ of the two blended source pixels. *)
Definition rgb2yiq (pA pB : Z) : Z * Z * Z :=
  let rA := (pA ^>> 16) ^& 0xff in
  let gA := (pA ^>> 8) ^& 0xff in
  let bA := (pA ^>> 0) ^& 0xff in
  let rB := (pB ^>> 16) ^& 0xff in
  let gB := (pB ^>> 8) ^& 0xff in
  let bB := (pB ^>> 0) ^& 0xff in
  let fy := (19595 ^* rA ^+ 38470 ^* gA ^+ 7471 ^* bA
             ^+ 19595 ^* rB ^+ 38470 ^* gB ^+ 7471 ^* bB) ^>> 15 in
  let fi := (39059 ^* rA ^- 18022 ^* gA ^- 21103 ^* bA
             ^+ 39059 ^* rB ^- 18022 ^* gB ^- 21103 ^* bB) ^>> 15 in
  let fq := (13894 ^* rA ^- 34275 ^* gA ^+ 20382 ^* bA
             ^+ 13894 ^* rB ^- 34275 ^* gB ^+ 20382 ^* bB) ^>> 15 in
  (fy, fi, fq).

Section Encoder.
Context {hdr : crt_h}.

(** [while (t < lim) line[t++] = x;] where [line] starts at [base]; the
    loop bounds the counter, so [t++] is written without wrap-around. *)
Fixpoint fill_loop (k : nat) (base x : Z) (a : list Z) (t : Z) : run (list Z * Z) :=
  match k with
  | O => done (a, t)
  | Datatypes.S k' =>
      match aset a (base + t) x with
      | Ok a' => fill_loop k' base x a' (t + 1)
      | Fault f => stop (a, t) f
      end
  end.

Definition fill (base lim x : Z) (w : list Z * Z) : run (list Z * Z) :=
  fill_loop (Z.to_nat (lim - snd w)) base x (fst w) (snd w).

(** [for (t = CB_BEG; t < CB_BEG + (CB_CYCLES * CRT_CB_FREQ); t++)
       line[t] = BLANK_LEVEL + (cc[(t + 0) & 3] * BURST_LEVEL);] *)
Definition burst_line (base : Z) (w : list Z * Z) : run (list Z * Z) :=
  for_run (Z.to_nat (CB_BEG ^+ (CB_CYCLES ^* CRT_CB_FREQ) - CB_BEG)) CB_BEG
    (fun t w =>
       match aset (fst w) (base + t)
               (BLANK_LEVEL ^+ (rd cc ((t ^+ 0) ^& 3) ^* BURST_LEVEL)) with
       | Ok a' => done (a', t + 1)
       | Fault f => stop (fst w, t) f
       end) w.

(** The body of the first loop of [crt_2ntsc] for line [n]. *)
Definition sync_line (field as_color : Z) (n : Z) (a : list Z) : run (list Z) :=
  let base := n ^* CRT_HRES in
  let w0 := (a, LINE_BEG) in
  let r :=
    if (n <=? 3) || ((n >=? 7) && (n <=? 9)) then
      (* equalizing pulses - small blips of sync, mostly blank *)
      fill base (4 ^* CRT_HRES ^/ 100) SYNC_LEVEL w0
      ;> fill base (50 ^* CRT_HRES ^/ 100) BLANK_LEVEL
      ;> fill base (54 ^* CRT_HRES ^/ 100) SYNC_LEVEL
      ;> fill base (100 ^* CRT_HRES ^/ 100) BLANK_LEVEL
    else if (n >=? 4) && (n <=? 6) then
      let offs := if field =? 1 then odd_offs else even_offs in
      (* vertical sync pulse - small blips of blank, mostly sync *)
      fill base (rd offs 0 ^* CRT_HRES ^/ 100) SYNC_LEVEL w0
      ;> fill base (rd offs 1 ^* CRT_HRES ^/ 100) BLANK_LEVEL
      ;> fill base (rd offs 2 ^* CRT_HRES ^/ 100) SYNC_LEVEL
      ;> fill base (rd offs 3 ^* CRT_HRES ^/ 100) BLANK_LEVEL
    else
      (* video line *)
      fill base SYNC_BEG BLANK_LEVEL w0
      ;> fill base BW_BEG SYNC_LEVEL
      ;> fill base AV_BEG BLANK_LEVEL
      ;> (fun w => if n <? CRT_TOP then fill base CRT_HRES BLANK_LEVEL w else done w)
      ;> (fun w => if as_color =? 0 then done w else burst_line base w)
  in (fst (fst r), snd r).

Definition destw : Z := (AV_LEN ^* 55500) ^>> 16.
Definition desth : Z := (CRT_LINES ^* 63500) ^>> 16.
Definition enc_xo : Z := (AV_BEG ^+ 4 ^+ (AV_LEN ^- destw) ^/ 2) ^& Int.not 3.
Definition enc_yo : Z := CRT_TOP ^+ 4 ^+ (CRT_LINES ^- desth) ^/ 2.

(** The composite sample of destination column [x] of row [y], from the
    band-limited Y, I, Q. *)
Definition composite (v : CRT.t) (x y fy fi fq : Z) : Z :=
  let ph := CC_PHASE (y ^+ enc_yo) in
  let ire := BLACK_LEVEL ^+ CRT.black_point v in
  let fi := fi ^* ph ^* rd cc ((x ^+ 0) ^& 3) in
  let fq := fq ^* ph ^* rd cc ((x ^+ 3) ^& 3) in
  let ire := ire ^+ (((fy ^+ fi ^+ fq) ^* (WHITE_LEVEL ^* CRT.white_point v ^/ 100)) ^>> 10) in
  clamp_ire ire.

(** The body of the inner render loop: destination column [x] of row [y]. *)
Definition encode_pixel (v : CRT.t) (s : NTSC_SETTINGS.t) (y syA syB : Z)
    (x : Z) (e : Enc.t) : run Enc.t :=
  let sx := (x ^* NTSC_SETTINGS.w s) ^/ destw in
  let pA := NTSC_SETTINGS.rgb s (sx ^+ syA) in
  let pB := NTSC_SETTINGS.rgb s (sx ^+ syB) in
  let '(fy, fi, fq) := rgb2yiq pA pB in
  (* bandlimit Y,I,Q *)
  let '(iy, fy) := iirf (Enc.iirY e) fy in
  let '(ii, fi) := iirf (Enc.iirI e) fi in
  let '(iq, fq) := iirf (Enc.iirQ e) fq in
  let ire := composite v x y fy fi fq in
  match aset (Enc.analog e) ((x ^+ enc_xo) ^+ (y ^+ enc_yo) ^* CRT_HRES) ire with
  | Ok a' => done (Enc.mk a' iy ii iq)
  | Fault f => stop (Enc.mk (Enc.analog e) iy ii iq) f
  end.

(** The body of the outer render loop: destination row [y]. *)
Definition encode_row (v : CRT.t) (s : NTSC_SETTINGS.t) (y : Z) (e : Enc.t) : run Enc.t :=
  let sh := NTSC_SETTINGS.h s in
  let field_offset := (NTSC_SETTINGS.field s ^* sh ^+ desth) ^/ desth ^/ 2 in
  let syA := (y ^* sh) ^/ desth in
  let syB := (y ^* sh ^+ desth ^/ 2) ^/ desth in
  let syA := syA ^+ field_offset in
  let syB := syB ^+ field_offset in
  let syA := if syA >=? sh then sh else syA in
  let syB := if syB >=? sh then sh else syB in
  let syA := syA ^* NTSC_SETTINGS.w s in
  let syB := syB ^* NTSC_SETTINGS.w s in
  let e := Enc.mk (Enc.analog e) (reset_iir (Enc.iirY e)) (reset_iir (Enc.iirI e))
                  (reset_iir (Enc.iirQ e)) in
  for_run (Z.to_nat destw) 0 (encode_pixel v s y syA syB) e.

Definition crt_2ntsc (v : CRT.t) (s : NTSC_SETTINGS.t) (g : Statics.t)
    : run (CRT.t * NTSC_SETTINGS.t * Statics.t) :=
  let s := NTSC_SETTINGS.set_field s (NTSC_SETTINGS.field s ^& 1) in
  match for_run (Z.to_nat CRT_VRES) 0
          (sync_line (NTSC_SETTINGS.field s) (NTSC_SETTINGS.as_color s)) (CRT.analog v) with
  | (a, Datatypes.Some f) => stop (CRT.set_analog v a, s, g) f
  | (a, Datatypes.None) =>
      let e := Enc.mk a (Statics.iirY g) (Statics.iirI g) (Statics.iirQ g) in
      let '(e, flt) := for_run (Z.to_nat desth) 0 (encode_row v s) e in
      ((CRT.set_analog v (Enc.analog e), s,
        Statics.set_iir g (Enc.iirY e) (Enc.iirI e) (Enc.iirQ e)), flt)
  end.

End Encoder.

(** ** Decoder: [crt_draw] *)

(** An element of the local array [out[AV_LEN + 1]] of [crt_draw]. *)
Module Yiq.
Record t : Type := mk { y : Z; i : Z; q : Z }.
End Yiq.

(** The state the line loop of [crt_draw] works on: the context, the statics,
    and the locals that live across lines.  The local array [out] is not
    initialised by the C code: an element is [None] until it is written. *)
Module Draw.
Record t : Type := mk {
  crt : CRT.t;
  st : Statics.t;
  yiq : list (option Yiq.t);
  ccref : list Z;
  prev_e : Z
}.
End Draw.

Definition yget (a : list (option Yiq.t)) (i : Z) : res Yiq.t :=
  if 0 <=? i then
    match a !! Z.to_nat i with
    | Datatypes.Some (Datatypes.Some x) => Ok x
    | Datatypes.Some Datatypes.None => Fault (Uninitialised i)
    | Datatypes.None => Fault (OutOfBounds i)
    end
  else Fault (OutOfBounds i).

Definition yset (a : list (option Yiq.t)) (i : Z) (x : Yiq.t) : res (list (option Yiq.t)) :=
  if (0 <=? i) && (i <? Z.of_nat (length a)) then Ok (<[Z.to_nat i := Datatypes.Some x]> a)
  else Fault (OutOfBounds i).

(** *** Noise *)

(** [rn = (214019 * rn + 140327895);] *)
Definition next_rn (rn : Z) : Z := 214019 ^* rn ^+ 140327895.

(** [s = v->analog[i] + (((((rn >> 16) & 0xff) - 0x7f) * noise) >> 8);]
    and the two clamps. *)
Definition noisy_sample (a rn noise : Z) : Z :=
  let s := a ^+ (((((rn ^>> 16) ^& 0xff) ^- 0x7f) ^* noise) ^>> 8) in
  let s := if s >? 127 then 127 else s in
  if s <? -127 then -127 else s.

(** *** Chroma burst *)

(** [int p = ccref[i & 3] * 127 / 128; int n = sig[i]; ccref[i & 3] = p + n;] *)
Definition burst_acc (old n : Z) : Z := old ^* 127 ^/ 128 ^+ n.

(** *** Output *)

Definition clamp_byte (x : Z) : Z :=
  let x := if x <? 0 then 0 else x in
  if x >? 255 then 255 else x.

(** Interpolation between two samples, YIQ to RGB, and the packed colour
    [aa]. *)
Definition yiq2rgb (A B : Yiq.t) (L R contrast : Z) : Z :=
  let y := ((Yiq.y A ^* L) ^>> 2) ^+ ((Yiq.y B ^* R) ^>> 2) in
  let i := ((Yiq.i A ^* L) ^>> 14) ^+ ((Yiq.i B ^* R) ^>> 14) in
  let q := ((Yiq.q A ^* L) ^>> 14) ^+ ((Yiq.q B ^* R) ^>> 14) in
  let r := (((y ^+ 3879 ^* i ^+ 2556 ^* q) ^>> 12) ^* contrast) ^>> 8 in
  let g := (((y ^- 1126 ^* i ^- 2605 ^* q) ^>> 12) ^* contrast) ^>> 8 in
  let b := (((y ^- 4530 ^* i ^+ 7021 ^* q) ^>> 12) ^* contrast) ^>> 8 in
  let r := clamp_byte r in
  let g := clamp_byte g in
  let b := clamp_byte b in
  (r ^<< 16) ^| (g ^<< 8) ^| b.

(** [(((aa & 0xfefeff) >> 1) + ((bb & 0xfefeff) >> 1))] *)
Definition blend (aa bb : Z) : Z :=
  ((aa ^& 0xfefeff) ^>> 1) ^+ ((bb ^& 0xfefeff) ^>> 1).

(** The colour channels of a packed pixel, as [crt_2ntsc] extracts them. *)
Definition red (p : Z) : Z := (p ^>> 16) ^& 0xff.
Definition green (p : Z) : Z := (p ^>> 8) ^& 0xff.
Definition blue (p : Z) : Z := (p ^>> 0) ^& 0xff.

Section Decoder.
Context {hdr : crt_h}.

(** The body of the first loop of [crt_draw]; the state is [rn] and [inp]. *)
Definition noise_step (noise : Z) (analog : list Z) (i : Z) (w : Z * list Z)
    : run (Z * list Z) :=
  let rn := next_rn (fst w) in
  match aget analog i with
  | Fault f => stop (rn, snd w) f
  | Ok a =>
      (* signal + noise *)
      match aset (snd w) i (noisy_sample a rn noise) with
      | Ok inp' => done (rn, inp')
      | Fault f => stop (rn, snd w) f
      end
  end.

(** [for (i = 0; i < CRT_INPUT_SIZE; i++)] *)
Definition noise_inject (noise : Z) (analog : list Z) (w : Z * list Z) : run (Z * list Z) :=
  for_run (Z.to_nat CRT_INPUT_SIZE) 0 (noise_step noise analog) w.

(** *** Vertical sync *)

(** [for (j = 0; j < CRT_HRES; j++) { s += sig[j];
      if (s <= (100 * SYNC_LEVEL)) goto vsync_found; }]
    The result is the final [j] and whether the [goto] was taken. *)
Fixpoint vsync_scan (k : nat) (inp : list Z) (base : Z) (j s : Z) : res (Z * bool) :=
  match k with
  | O => Ok (j, false)
  | Datatypes.S k' =>
      let* x := aget inp (base + j) in
      let s := s ^+ x in
      if s <=? 100 ^* SYNC_LEVEL then Ok (j, true)
      else vsync_scan k' inp base (j + 1) s
  end.

(** [for (i = -VSYNC_WINDOW; i < VSYNC_WINDOW; i++)]: the result is the
    final [line] and [j]. *)
Fixpoint vsync_lines (k : nat) (inp : list Z) (vsync : Z) (i : Z) (line j : Z)
    : res (Z * Z) :=
  match k with
  | O => Ok (line, j)
  | Datatypes.S k' =>
      let line := POSMOD (vsync ^+ i) CRT_VRES in
      let* r := vsync_scan (Z.to_nat CRT_HRES) inp (line ^* CRT_HRES) 0 0 in
      if snd r then Ok (line, fst r)
      else vsync_lines k' inp vsync (i + 1) line (fst r)
  end.

(** [line] and [j] have no value before the loop, which assigns both in its
    first iteration. *)
Definition vsync_search (inp : list Z) (vsync : Z) : res (Z * Z) :=
  vsync_lines (Z.to_nat (VSYNC_WINDOW - - VSYNC_WINDOW)) inp vsync (- VSYNC_WINDOW) 0 0.

(** [field = (j > (CRT_HRES / 2));] *)
Definition vsync_field (j : Z) : Z := if j >? CRT_HRES ^/ 2 then 1 else 0.

(** *** Horizontal sync *)

(** [for (i = -HSYNC_WINDOW; i < HSYNC_WINDOW; i++) { s += sig[SYNC_BEG + i];
      if (s <= (4 * SYNC_LEVEL)) break; }]: the result is the final [i]. *)
Fixpoint hsync_scan (k : nat) (inp : list Z) (base : Z) (i s : Z) : res Z :=
  match k with
  | O => Ok i
  | Datatypes.S k' =>
      let* x := aget inp (base + (SYNC_BEG ^+ i)) in
      let s := s ^+ x in
      if s <=? 4 ^* SYNC_LEVEL then Ok i
      else hsync_scan k' inp base (i + 1) s
  end.

Definition hsync_search (inp : list Z) (base : Z) : res Z :=
  hsync_scan (Z.to_nat (HSYNC_WINDOW - - HSYNC_WINDOW)) inp base (- HSYNC_WINDOW) 0.

(** *** Chroma burst *)

Definition burst_step (inp : list Z) (base : Z) (i : Z) (ccref : list Z) : res (list Z) :=
  let* n := aget inp (base + i) in
  Ok (wr ccref (i ^& 3) (burst_acc (rd ccref (i ^& 3)) n)).

(** [for (i = CB_BEG; i < CB_BEG + (CB_CYCLES * CRT_CB_FREQ); i++)] *)
Definition burst_update (inp : list Z) (base : Z) (ccref : list Z) : res (list Z) :=
  for_res (Z.to_nat (CB_BEG ^+ (CB_CYCLES ^* CRT_CB_FREQ) - CB_BEG)) CB_BEG
    (burst_step inp base) ccref.

(** *** Demodulation *)

(** [for (i = 0; i < AV_LEN; i++) s += sig[i];] *)
Definition active_sum (inp : list Z) (pos : Z) : res Z :=
  for_res (Z.to_nat AV_LEN) 0
    (fun i s => let* x := aget inp (pos + i) in Ok (s ^+ x)) 0.

(** The body of the loop [for (i = L; i < R; i++)] that fills [out]. *)
Definition demod_step (inp : list Z) (pos bright : Z) (wave : list Z) (i : Z)
    (w : EQF.t * EQF.t * EQF.t * list (option Yiq.t))
    : run (EQF.t * EQF.t * EQF.t * list (option Yiq.t)) :=
  let '(fy, fi, fq, yiq) := w in
  match aget inp (pos + i) with
  | Fault f => stop w f
  | Ok x =>
      let '(fy', y) := eqf fy (x ^+ bright) in
      (* the store to [out[i].y] comes before the other two filters run *)
      match yset yiq i (Yiq.mk (y ^<< 4) 0 0) with
      | Fault f => stop (fy', fi, fq, yiq) f
      | Ok _ =>
          let '(fi', ci) := eqf fi ((x ^* rd wave ((i ^+ 0) ^& 3)) ^>> 9) in
          let '(fq', cq) := eqf fq ((x ^* rd wave ((i ^+ 3) ^& 3)) ^>> 9) in
          match yset yiq i (Yiq.mk (y ^<< 4) (ci ^>> 3) (cq ^>> 3)) with
          | Ok yiq' => done (fy', fi', fq', yiq')
          | Fault f => stop (fy', fi', fq', yiq) f
          end
      end
  end.

(** *** Output *)

(** [for (pos = scanL; pos < scanR && cL < cR; pos += dx)] with [pos]
    unsigned; [cL] and [cR] are offsets into [v->out].  The loop runs at
    most [cR - cL] times, which is the fuel [k]. *)
Fixpoint resample (k : nat) (yiq : list (option Yiq.t)) (contrast scanR dx cR : Z)
    (m : mem) (cL pos : Z) : run (mem * Z) :=
  match k with
  | O => done (m, cL)
  | Datatypes.S k' =>
      if (pos <? Int.uint scanR) && (cL <? cR) then
        let R := pos ^& 0xfff in
        let L := 0xfff ^- R in
        let s := pos ^>> 12 in
        match yget yiq s with
        | Fault f => stop (m, cL) f
        | Ok A =>
            match yget yiq (s + 1) with
            | Fault f => stop (m, cL) f
            | Ok B =>
                let aa := yiq2rgb A B L R contrast in
                let bb := m cL in
                (* blend with previous color there *)
                resample k' yiq contrast scanR dx cR
                  (mem_set m cL (blend aa bb)) (cL + 1) (Int.uadd pos dx)
            end
        end
      else done (m, cL)
  end.

(** [ln = v->outw * sizeof(int); for (s = beg + 1; s < end; s++)
      memcpy(v->out + s * v->outw, v->out + (s - 1) * v->outw, ln);] *)
Definition dup_rows (outw beg end_ : Z) (m : mem) : mem :=
  let ln := Int.uint (outw * 4) in
  for_up (Z.to_nat (end_ - (beg ^+ 1))) (beg ^+ 1)
    (fun s m => memcpy_int m (s ^* outw) ((s ^- 1) ^* outw) (ln / 4)) m.

(** The body of the line loop of [crt_draw].  At a fault the context is the
    one reached; the locals are those of the last completed stage. *)
Definition draw_line (max_e field bright : Z) (line : Z) (d : Draw.t) : run Draw.t :=
  let v := Draw.crt d in
  let g := Draw.st d in
  let beg := (line ^- CRT_TOP ^+ 0) ^* CRT.outh v ^/ CRT_LINES ^+ field in
  let end_ := (line ^- CRT_TOP ^+ 1) ^* CRT.outh v ^/ CRT_LINES ^+ field in
  if beg >=? CRT.outh v then done d
  else
    let end_ := if end_ >? CRT.outh v then CRT.outh v else end_ in
    (* Look for horizontal sync. *)
    let ln := Int.uint (POSMOD (line ^+ CRT.vsync v) CRT_VRES ^* CRT_HRES) in
    match hsync_search (CRT.inp v) (ln + CRT.hsync v) with
    | Fault f => stop d f
    | Ok i =>
    let v := CRT.set_hsync v (POSMOD (i ^+ CRT.hsync v) CRT_HRES) in
    let d := Draw.mk v g (Draw.yiq d) (Draw.ccref d) (Draw.prev_e d) in
    (* burst @ 1/CB_FREQ sample rate *)
    match burst_update (CRT.inp v) (ln + (CRT.hsync v ^& Int.not 3)) (Draw.ccref d) with
    | Fault f => stop d f
    | Ok ccref =>
    let d := Draw.mk v g (Draw.yiq d) ccref (Draw.prev_e d) in
    let xpos := POSMOD (AV_BEG ^+ CRT.hsync v) CRT_HRES in
    let ypos := POSMOD (line ^+ CRT.vsync v) CRT_VRES in
    let pos := Int.uint (xpos ^+ ypos ^* CRT_HRES) in
    let phasealign := pos ^& 3 in
    (* amplitude of carrier = saturation, phase difference = hue *)
    let dci := rd ccref ((phasealign ^+ 1) ^& 3) ^- rd ccref ((phasealign ^+ 3) ^& 3) in
    let dcq := rd ccref ((phasealign ^+ 2) ^& 3) ^- rd ccref ((phasealign ^+ 0) ^& 3) in
    let wave := [ Int.neg dcq ^* CRT.saturation v; dci ^* CRT.saturation v;
                  dcq ^* CRT.saturation v; Int.neg dci ^* CRT.saturation v ] in
    match active_sum (CRT.inp v) pos with
    | Fault f => stop d f
    | Ok s =>
    (* bloom emulation *)
    if max_e =? 0 then stop d DivisionByZero
    else
    let prev_e := (Draw.prev_e d ^* 123 ^/ 128)
                  ^+ ((((max_e ^>> 1) ^- s) ^<< 10) ^/ max_e) in
    let line_w := (AV_LEN ^* 112 ^/ 128) ^+ (prev_e ^>> 9) in
    let d := Draw.mk v g (Draw.yiq d) ccref prev_e in
    if CRT.outw v =? 0 then stop d DivisionByZero
    else
    let dx := (line_w ^<< 12) ^/ CRT.outw v in
    let scanL := ((AV_LEN ^/ 2) ^- (line_w ^>> 1) ^+ 8) ^<< 12 in
    let scanR := (AV_LEN ^- 1) ^<< 12 in
    let L := scanL ^>> 12 in
    let R := scanR ^>> 12 in
    let '((fy, fi, fq, yiq), flt) :=
      for_run (Z.to_nat (R - L)) L (demod_step (CRT.inp v) pos bright wave)
        (reset_eq (Statics.eqY g), reset_eq (Statics.eqI g), reset_eq (Statics.eqQ g),
         Draw.yiq d) in
    let g := Statics.set_eq g fy fi fq in
    let d := Draw.mk v g yiq ccref prev_e in
    match flt with
    | Datatypes.Some f => stop d f
    | Datatypes.None =>
    let cL := beg ^* CRT.outw v in
    let cR := cL + CRT.outw v in
    let '((m, _), flt) :=
      resample (Z.to_nat (cR - cL)) yiq (CRT.contrast v) scanR dx cR
        (CRT.out v) cL (Int.uint scanL) in
    match flt with
    | Datatypes.Some f => stop (Draw.mk (CRT.set_out v m) g yiq ccref prev_e) f
    | Datatypes.None =>
    (* duplicate extra lines *)
    let m := dup_rows (CRT.outw v) beg end_ m in
    done (Draw.mk (CRT.set_out v m) g yiq ccref prev_e)
    end end end end end.

Definition crt_draw (v : CRT.t) (g : Statics.t) (noise : Z) : run (CRT.t * Statics.t) :=
  let bright := CRT.brightness v ^- (BLACK_LEVEL ^+ CRT.black_point v) in
  let ccref := [0; 0; 0; 0] in
  match noise_inject noise (CRT.analog v) (Statics.rn g, CRT.inp v) with
  | ((rn, inp), Datatypes.Some f) => stop (CRT.set_inp v inp, Statics.set_rn g rn) f
  | ((rn, inp), Datatypes.None) =>
      let v := CRT.set_inp v inp in
      let g := Statics.set_rn g rn in
      (* Look for vertical sync. *)
      match vsync_search (CRT.inp v) (CRT.vsync v) with
      | Fault f => stop (v, g) f
      | Ok (line, j) =>
          (* vsync found (or gave up) at this line *)
          let v := CRT.set_vsync v line in
          (* if vsync signal was in second half of line, odd field *)
          let field := vsync_field j in
          let max_e := (128 ^+ (noise ^/ 2)) ^* AV_LEN in
          let prev_e := 16384 ^/ 8 in
          (* ratio of output height to active video lines in the signal *)
          let ratio := (CRT.outh v ^<< 16) ^/ CRT_LINES in
          let ratio := (ratio ^+ 32768) ^>> 16 in
          let field := field ^* (ratio ^/ 2) in
          let yiq := replicate (Z.to_nat (AV_LEN ^+ 1)) Datatypes.None in
          let '(d, flt) :=
            for_run (Z.to_nat (CRT_BOT - CRT_TOP)) CRT_TOP (draw_line max_e field bright)
              (Draw.mk v g yiq ccref prev_e) in
          ((Draw.crt d, Draw.st d), flt)
      end
  end.

End Decoder.

(** ** Reference configuration and the specification's readings *)

(** The filters [crt_init] configures for [ntsc_h], and the initial value
    of the noise generator. *)
Definition ntsc_statics : Statics.t :=
  Statics.mk 194
    (EQF.mk 42156 79824 [65536; 8192; 9175] [0; 0; 0; 0] [0; 0; 0; 0] [0; 0; 0])
    (EQF.mk 2252 32636 [65536; 65536; 1311] [0; 0; 0; 0] [0; 0; 0; 0] [0; 0; 0])
    (EQF.mk 2252 28248 [65536; 65536; 0] [0; 0; 0; 0] [0; 0; 0; 0] [0; 0; 0])
    (IIRLP.mk 1233 0) (IIRLP.mk 574 0) (IIRLP.mk 232 0).

(** The specification's phase decomposition property: the sum of the three
    bands, before the gains, is within [tol] of the sample of the step. *)
Definition bands_reconstruct (tol : Z) (f : EQF.t) (s : Z) : Prop :=
  Z.abs (eqf_band_sum f s - s) <= tol.

(** A signal amplitude after noise injection. *)
Definition amplitude_ok (x : Z) : Prop := -127 <= x <= 127.

(** The specification's reading of the chroma burst update: an exponential
    moving average in which the newly read sample has weight 1/128 and the
    previous value weight 127/128; [new] is within one unit of that mean. *)
Definition ema_128_update (old n new : Z) : Prop :=
  Z.abs (128 * new - (127 * old + n)) <= 128.

(** The bound the four accumulators keep: 128 samples of full amplitude. *)
Definition ccref_bounded (ccref : list Z) : Prop :=
  forall b, 0 <= b < 4 -> Z.abs (rd ccref b) <= 128 * 128.

(** The geometry [crt.c] assumes of the header: a positive number of samples
    and lines, arrays of [CRT_HRES * CRT_VRES] elements, and sizes that fit
    an [int] with room for the sums of [POSMOD]. *)
Definition hdr_ok {hdr : crt_h} : Prop :=
  0 < CRT_HRES < 2 ^ 30 /\ 0 < CRT_VRES < 2 ^ 30
  /\ CRT_INPUT_SIZE = CRT_HRES * CRT_VRES /\ CRT_INPUT_SIZE < 2 ^ 30.

(** The samples of a line of the signal, from its first. *)
Definition line_samples {hdr : crt_h} (inp : list Z) (line : Z) : list Z :=
  take (Z.to_nat CRT_HRES) (drop (Z.to_nat (line * CRT_HRES)) inp).

(** The left-to-right running sum of a line after its first [n] samples. *)
Definition running_sum (xs : list Z) (n : nat) : Z := fold_left Int.add (take n xs) 0.

(** The running sum is at or below the vertical sync threshold once sample
    [j] is added. *)
Definition crossed (xs : list Z) (j : nat) : Prop :=
  running_sum xs (S j) <= 100 ^* SYNC_LEVEL.

Definition first_crossing (xs : list Z) (j : nat) : Prop :=
  (j < length xs)%nat /\ crossed xs j /\ forall j', (j' < j)%nat -> ~ crossed xs j'.

Definition never_crosses (xs : list Z) : Prop :=
  forall j, (j < length xs)%nat -> ~ crossed xs j.

(** The specification's reading of the field parity: the line has a
    threshold crossing, and it lies in the second half of the samples. *)
Definition crossing_in_second_half {hdr : crt_h} (xs : list Z) : Prop :=
  exists j, first_crossing xs j /\ CRT_HRES / 2 <= Z.of_nat j.

(** A packed pixel with nothing above its three colour channels, each of
    which is a byte. *)
Definition pixel_ok (p : Z) : Prop :=
  0 <= p < 2 ^ 24
  /\ 0 <= red p <= 255 /\ 0 <= green p <= 255 /\ 0 <= blue p <= 255.

(** [new] is the halve-and-add blend of [old] with a colour whose channels
    are bytes. *)
Definition is_blend (old new : Z) : Prop :=
  exists r g b,
    0 <= r <= 255 /\ 0 <= g <= 255 /\ 0 <= b <= 255
    /\ red new = r / 2 + red old / 2
    /\ green new = g / 2 + green old / 2
    /\ blue new = b / 2 + blue old / 2.

(** The three colour values [r], [g] and [b] of the resampling loop of
    [crt_draw] as they are before the six clamps: interpolation between two
    samples, YIQ to RGB and contrast. *)
Definition yiq2rgb_raw (A B : Yiq.t) (L R contrast : Z) : Z * Z * Z :=
  let y := ((Yiq.y A ^* L) ^>> 2) ^+ ((Yiq.y B ^* R) ^>> 2) in
  let i := ((Yiq.i A ^* L) ^>> 14) ^+ ((Yiq.i B ^* R) ^>> 14) in
  let q := ((Yiq.q A ^* L) ^>> 14) ^+ ((Yiq.q B ^* R) ^>> 14) in
  let r := (((y ^+ 3879 ^* i ^+ 2556 ^* q) ^>> 12) ^* contrast) ^>> 8 in
  let g := (((y ^- 1126 ^* i ^- 2605 ^* q) ^>> 12) ^* contrast) ^>> 8 in
  let b := (((y ^- 4530 ^* i ^+ 7021 ^* q) ^>> 12) ^* contrast) ^>> 8 in
  (r, g, b).

(** The position [pos] of the resampling loop after [n] steps of
    [pos += dx], with [pos] unsigned. *)
Fixpoint scan_pos (n : nat) (dx pos : Z) : Z :=
  match n with
  | O => pos
  | Datatypes.S n' => scan_pos n' dx (Int.uadd pos dx)
  end.

(** The specification's clamp of a colour value to [[0, 255]]. *)
Definition to_byte (x : Z) : Z := Z.max 0 (Z.min 255 x).

(** [new] is the pixel the resampling loop stores over [old] at position
    [pos]: the two samples around [pos] are there, the decoded colour is the
    three colour values clamped to bytes, side by side, and every channel of
    [new] is the sum of the halves of the clamped value and of the channel
    of [old]. *)
Definition decoded_blend (yiq : list (option Yiq.t)) (contrast pos old new : Z) : Prop :=
  exists A B,
    yget yiq (pos ^>> 12) = Ok A /\ yget yiq ((pos ^>> 12) + 1) = Ok B
    /\ let aa := yiq2rgb A B (0xfff ^- (pos ^& 0xfff)) (pos ^& 0xfff) contrast in
       let '(r, g, b) :=
         yiq2rgb_raw A B (0xfff ^- (pos ^& 0xfff)) (pos ^& 0xfff) contrast in
       aa = 65536 * to_byte r + 256 * to_byte g + to_byte b
       /\ new = blend aa old
       /\ red new = to_byte r / 2 + red old / 2
       /\ green new = to_byte g / 2 + green old / 2
       /\ blue new = to_byte b / 2 + blue old / 2.

(** Two samples of full white, brighter than the output can show. *)
Definition bright_yiq : list (option Yiq.t) :=
  [Datatypes.Some (Yiq.mk 1697 0 0); Datatypes.Some (Yiq.mk 1697 0 0)].

(** What the noise loop stores for a sample when the noise level is zero:
    the sample itself, clamped to [[-127, 127]]. *)
Definition quiet_sample (a : Z) : Z := schar (noisy_sample a 0 0).

(** A context of [ntsc_h] with a blank signal, an output of 320 by 240, the
    calibration of [crt_reset], and sync fields within their ranges:
    [hsync = 909 < CRT_HRES] and [vsync = 233 < CRT_VRES]. *)
Definition late_sync_ctx : CRT.t :=
  CRT.mk (replicate (Z.to_nat (@CRT_INPUT_SIZE ntsc_h)) 0)
         (replicate (Z.to_nat (@CRT_INPUT_SIZE ntsc_h)) 0)
         909 233 0 179 18 0 100 320 240 (fun _ => 0).

(** An encode call followed by a decode call on the same context. *)
Definition encode_decode {hdr : crt_h} (v : CRT.t) (s : NTSC_SETTINGS.t) (g : Statics.t)
    (noise : Z) : run (CRT.t * Statics.t) :=
  match crt_2ntsc v s g with
  | ((v1, _, g1), Datatypes.Some f) => stop (v1, g1) f
  | ((v1, _, g1), Datatypes.None) => crt_draw v1 g1 noise
  end.

(** Two states of the statics with the same filter configuration: they may
    differ in the noise generator and in what the filters remember. *)
Definition same_config (g1 g2 : Statics.t) : Prop :=
  reset_eq (Statics.eqY g1) = reset_eq (Statics.eqY g2)
  /\ reset_eq (Statics.eqI g1) = reset_eq (Statics.eqI g2)
  /\ reset_eq (Statics.eqQ g1) = reset_eq (Statics.eqQ g2)
  /\ reset_iir (Statics.iirY g1) = reset_iir (Statics.iirY g2)
  /\ reset_iir (Statics.iirI g1) = reset_iir (Statics.iirI g2)
  /\ reset_iir (Statics.iirQ g1) = reset_iir (Statics.iirQ g2).


(** Two states of the render loops of [crt_2ntsc] with the same signal and
    the same low pass coefficients. *)
Definition enc_rel (e1 e2 : Enc.t) : Prop :=
  Enc.analog e1 = Enc.analog e2
  /\ reset_iir (Enc.iirY e1) = reset_iir (Enc.iirY e2)
  /\ reset_iir (Enc.iirI e1) = reset_iir (Enc.iirI e2)
  /\ reset_iir (Enc.iirQ e1) = reset_iir (Enc.iirQ e2).

(** The samples an encode call assigns, for [ntsc_h]: sample [t] of line
    [n] is assigned on the lines above the active video, before the active
    video on every line, and inside the destination rectangle. *)
Definition ntsc_assigned (n t : Z) : bool :=
  (n <? 21) || (t <? 156) || ((29 <=? n) && (n <? 261) && (216 <=? t) && (t <? 853)).

(** Two signal buffers [b1] and [b2] reached from [a1] and [a2] by the same
    stores: they agree at the indices in [S], those stored to, and each has
    its former content at every other index. *)
Definition same_stores (a1 a2 : list Z) (S : Z -> Prop) (b1 b2 : list Z) : Prop :=
  length b1 = length a1 /\ length b2 = length a2
  /\ forall j, 0 <= j ->
       (S j -> b1 !! Z.to_nat j = b2 !! Z.to_nat j)
       /\ (~ S j -> b1 !! Z.to_nat j = a1 !! Z.to_nat j
                    /\ b2 !! Z.to_nat j = a2 !! Z.to_nat j).

(** The indices the first loop of [crt_2ntsc] has stored to once it has
    done the lines below [k], for [ntsc_h]. *)
Definition sync_stored (k : Z) (j : Z) : Prop :=
  exists n t, 0 <= n < k /\ 0 <= t < 910 /\ j = n * 910 + t /\ (n < 21 \/ t < 156).

(** The indices stored to once the render loop has also done the rows below
    [y], for [ntsc_h]. *)
Definition render_stored (y : Z) (j : Z) : Prop :=
  sync_stored 262 j
  \/ exists y' x, 0 <= y' < y /\ 0 <= x < 637 /\ j = (x + 216) + (y' + 29) * 910.

(** The indices stored to once the render loop has done the rows below [y]
    and the columns below [x] of row [y], for [ntsc_h]. *)
Definition row_stored (y x : Z) (j : Z) : Prop :=
  render_stored y j \/ exists x', 0 <= x' < x /\ j = (x' + 216) + (y + 29) * 910.

(** Two states of the render loops with the same filters, whose signals
    were reached by the same stores. *)
Definition enc_same (a1 a2 : list Z) (W : Z -> Prop) (e1 e2 : Enc.t) : Prop :=
  Enc.iirY e1 = Enc.iirY e2 /\ Enc.iirI e1 = Enc.iirI e2 /\ Enc.iirQ e1 = Enc.iirQ e2
  /\ same_stores a1 a2 W (Enc.analog e1) (Enc.analog e2).

(** A source image of two by two white pixels, in colour, even field. *)
Definition white_2x2 : NTSC_SETTINGS.t :=
  NTSC_SETTINGS.mk (fun _ => 0xffffff) 2 2 1 0.

(** The context [crt_init] leaves for [ntsc_h] and an output of 320 by 240,
    with every sample of the signal set to [x]. *)
Definition ntsc_ctx (x : Z) : CRT.t :=
  CRT.mk (replicate (Z.to_nat (@CRT_INPUT_SIZE ntsc_h)) x)
         (replicate (Z.to_nat (@CRT_INPUT_SIZE ntsc_h)) 0)
         0 0 0 179 18 0 100 320 240 (fun _ => 0).

(** ** Checked table reads

    [sintabil8] reads [sigpsin15] at [i] and [i + 1] with [i] a byte taken
    from its argument.  The variants below report a read outside the 18
    entries of the table as a fault, to state that [sincos14] causes none. *)

Definition sintabil8_at (n : Z) : res Z :=
  let f := (n ^>> 0) ^& 0xff in
  let i := (n ^>> 8) ^& 0xff in
  let* a := aget sigpsin15 i in
  let* b := aget sigpsin15 (i ^+ 1) in
  Ok (a ^+ (((b ^- a) ^* f) ^>> 8)).

Definition sincos14_at (n : Z) : res (Z * Z) :=
  let n := n ^& T14_MASK in
  let h := n ^& ((T14_2PI ^>> 1) ^- 1) in
  let* sc :=
    if h >? (T14_2PI ^>> 2) ^- 1 then
      let* c := sintabil8_at (h ^- (T14_2PI ^>> 2)) in
      let* s := sintabil8_at ((T14_2PI ^>> 1) ^- h) in
      Ok (s, Int.neg c)
    else
      let* c := sintabil8_at ((T14_2PI ^>> 2) ^- h) in
      let* s := sintabil8_at h in
      Ok (s, c) in
  if n >? (T14_2PI ^>> 1) ^- 1 then Ok (Int.neg (fst sc), Int.neg (snd sc)) else Ok sc.

(** [p] holds of each of the [n] integers from [i] on. *)
Definition all_upto (n : nat) (i : Z) (p : Z -> bool) : bool :=
  for_up n i (fun j b => b && p j) true.

(** ** Sine and cosine in the arithmetic of [Z]

    [sintabil8] and [sincos14] with the operators of [Z] in place of those of
    [int]: nothing wraps for the arguments [sincos14] passes, which the
    properties prove before they use these to check a whole turn. *)

Definition sintabil8_z (n : Z) : Z :=
  let f := Z.land n 0xff in
  let i := Z.land (Z.shiftr n 8) 0xff in
  let a := rd sigpsin15 i in
  let b := rd sigpsin15 (i + 1) in
  a + Z.shiftr ((b - a) * f) 8.

Definition sincos14_z (n : Z) : Z * Z :=
  let n := Z.land n 16383 in
  let h := Z.land n 8191 in
  let '(s, c) :=
    if h >? 4095 then (sintabil8_z (8192 - h), - sintabil8_z (h - 4096))
    else (sintabil8_z h, sintabil8_z (4096 - h)) in
  if n >? 8191 then (- s, - c) else (s, c).

(** Sine and cosine of angle [m] are at most one in magnitude, and the sum
    of their squares is at most [2 ^ 30] and at least [2 ^ 30 - 3090999]. *)
Definition on_circle (m : Z) : bool :=
  let '(s, c) := sincos14_z m in
  (Z.abs s <=? 32768) && (Z.abs c <=? 32768)
  && (2 ^ 30 - 3090999 <=? s * s + c * c) && (s * s + c * c <=? 2 ^ 30).

(** A quarter turn after [m] the sine is the cosine of [m] and the cosine
    minus its sine. *)
Definition quarter_turn (m : Z) : bool :=
  let '(s, c) := sincos14_z m in
  let '(s', c') := sincos14_z ((m + 4096) mod 16384) in
  (s' =? c) && (c' =? - s).

(** At the opposite angle the sine is negated and the cosine the same. *)
Definition mirrored (m : Z) : bool :=
  let '(s, c) := sincos14_z m in
  let '(s', c') := sincos14_z ((- m) mod 16384) in
  (s' =? - s) && (c' =? c).

(** The sine at [m] is not negative and not above the sine at [m + 1]. *)
Definition rising (m : Z) : bool :=
  (0 <=? fst (sincos14_z m)) && (fst (sincos14_z m) <=? fst (sincos14_z (m + 1))).

(** ** The exponential in the arithmetic of [Z]

    The series loop of [expx], and [expx] at minus [a] for [a] up to
    [EXP_PI] (where the index [a >> EXP_P] is at most 3 and the first loop
    does not run), with the operators of [Z]: nothing wraps there, which the
    properties prove before they use these to check that range. *)

Fixpoint expx_series_z (k : nat) (n i nxt acc del : Z) : Z :=
  match k with
  | O => acc
  | Datatypes.S k' =>
      let acc := acc + Z.quot nxt del in
      let nxt := Z.shiftr (nxt * n) 11 in
      let del := del * i in
      if (del >? nxt) || (nxt <=? 0) || (del <=? 0) then acc
      else expx_series_z k' n (i + 1) nxt acc del
  end.

Definition expx_neg_z (a : Z) : Z :=
  let idx := Z.shiftr a 11 in
  let res := if idx >? 0 then rd e11 idx else 2048 in
  let acc := expx_series_z 16 (Z.land a 2047) 1 2048 0 1 in
  Z.quot 4194304 (Z.shiftr (res * acc) 11).

(** The exponential at minus [a] is positive, at most one, and not below
    the exponential at minus [a + 1]. *)
Definition decaying (a : Z) : bool :=
  (0 <? expx_neg_z (a + 1)) && (expx_neg_z (a + 1) <=? expx_neg_z a)
  && (expx_neg_z a <=? 2048).

(** ** Signal levels *)

(** A sample between the sync tip and ten units above white, the levels
    the encoder works with. *)
Definition ire_ok (x : Z) : Prop := SYNC_LEVEL <= x <= 110.

(** ** What the line loop of the decoder leaves alone *)

(** The parts of the state of the line loop of [crt_draw] that are the same
    in [d] as in [d0]: of the context everything but the horizontal sync
    offset and the memory behind [out], of the statics everything but the
    three equalizers. *)
Definition draw_kept (d0 d : Draw.t) : Prop :=
  CRT.analog (Draw.crt d) = CRT.analog (Draw.crt d0)
  /\ CRT.inp (Draw.crt d) = CRT.inp (Draw.crt d0)
  /\ CRT.vsync (Draw.crt d) = CRT.vsync (Draw.crt d0)
  /\ CRT.brightness (Draw.crt d) = CRT.brightness (Draw.crt d0)
  /\ CRT.contrast (Draw.crt d) = CRT.contrast (Draw.crt d0)
  /\ CRT.saturation (Draw.crt d) = CRT.saturation (Draw.crt d0)
  /\ CRT.black_point (Draw.crt d) = CRT.black_point (Draw.crt d0)
  /\ CRT.white_point (Draw.crt d) = CRT.white_point (Draw.crt d0)
  /\ CRT.outw (Draw.crt d) = CRT.outw (Draw.crt d0)
  /\ CRT.outh (Draw.crt d) = CRT.outh (Draw.crt d0)
  /\ Statics.rn (Draw.st d) = Statics.rn (Draw.st d0)
  /\ Statics.iirY (Draw.st d) = Statics.iirY (Draw.st d0)
  /\ Statics.iirI (Draw.st d) = Statics.iirI (Draw.st d0)
  /\ Statics.iirQ (Draw.st d) = Statics.iirQ (Draw.st d0).

(** ** The active lines *)

(** What [crt_draw] assumes of the lines it draws: [CRT_TOP] to [CRT_BOT],
    [CRT_LINES] of them at most, all of a size that products with the height
    of the output fit an [int]. *)
Definition lines_ok {hdr : crt_h} : Prop :=
  0 <= CRT_TOP /\ CRT_TOP <= CRT_BOT /\ CRT_BOT < 2 ^ 15 /\ 0 < CRT_LINES < 2 ^ 15.

(** An offset into the memory behind [out] that lies in the [outw * outh]
    pixels of the output. *)
Definition in_output (v : CRT.t) (a : Z) : Prop := 0 <= a < CRT.outw v * CRT.outh v.

(** ** The lines of the sync loop, for [ntsc_h]

    What the first loop of [crt_2ntsc] leaves in a line of 910 samples: an
    equalizing line, a vertical sync line of either field, and the blanking
    interval of a video line with or without the colour burst. *)

Definition eq_line : list Z :=
  replicate 36 SYNC_LEVEL ++ replicate 419 BLANK_LEVEL
  ++ replicate 36 SYNC_LEVEL ++ replicate 419 BLANK_LEVEL.

Definition vs_line (field : Z) : list Z :=
  if field =? 1 then
    replicate 36 SYNC_LEVEL ++ replicate 419 BLANK_LEVEL
    ++ replicate 418 SYNC_LEVEL ++ replicate 37 BLANK_LEVEL
  else
    replicate 418 SYNC_LEVEL ++ replicate 37 BLANK_LEVEL
    ++ replicate 418 SYNC_LEVEL ++ replicate 37 BLANK_LEVEL.

(** Front porch, sync tip, and breezeway to back porch without burst. *)
Definition hblank_plain : list Z :=
  replicate 21 BLANK_LEVEL ++ replicate 67 SYNC_LEVEL ++ replicate 68 BLANK_LEVEL.

(** The stores of the burst loop from sample [t] on, [k] of them, on the
    samples [l] of a line. *)
Fixpoint burst_fill (k : nat) (t : Z) (l : list Z) : list Z :=
  match k with
  | O => l
  | Datatypes.S k' =>
      burst_fill k' (t + 1)
        (<[Z.to_nat t := schar (BLANK_LEVEL ^+ (rd cc ((t ^+ 0) ^& 3) ^* BURST_LEVEL))]> l)
  end.

Definition hblank (as_color : Z) : list Z :=
  if as_color =? 0 then hblank_plain else burst_fill 40 97 hblank_plain.

(** Line [n] after the sync loop, from its former samples [l]. *)
Definition sync_template (field as_color n : Z) (l : list Z) : list Z :=
  if (n <=? 3) || ((n >=? 7) && (n <=? 9)) then eq_line
  else if (n >=? 4) && (n <=? 6) then vs_line field
  else hblank as_color ++ (if n <? 21 then replicate 754 BLANK_LEVEL else drop 156 l).

(** The signal after the sync loop has dealt with the lines below [k], for
    [ntsc_h]: those lines are as [sync_template] has them, the rest of the
    signal [a] is as it was. *)
Definition sync_done (field as_color : Z) (a : list Z) (k : Z) (b : list Z) : Prop :=
  length b = length a
  /\ drop (Z.to_nat (k * 910)) b = drop (Z.to_nat (k * 910)) a
  /\ forall n t, 0 <= n < k -> 0 <= t < 910 ->
       b !! Z.to_nat (n * 910 + t)
       = sync_template field as_color n (take 910 (drop (Z.to_nat (n * 910)) a))
           !! Z.to_nat t.

(** The signal [b] during the render loops, for [ntsc_h]: a sample is as the
    sync loop left it in [S], or it lies in the destination rectangle and is
    a level from black to 110. *)
Definition rendered (S b : list Z) : Prop :=
  length b = length S
  /\ forall j : nat,
       b !! j = S !! j
       \/ exists n t x, 29 <= n < 261 /\ 216 <= t < 853 /\ j = Z.to_nat (n * 910 + t)
                        /\ b !! j = Datatypes.Some x /\ 0 <= x <= 110.

(** The first sample of [xs] at which the running sum, started at [s], is at
    or below the vertical sync threshold; [j] counts the samples before
    [xs]. *)
Fixpoint first_cross (xs : list Z) (s : Z) (j : nat) : option nat :=
  match xs with
  | [] => Datatypes.None
  | x :: xs' =>
      let s := s ^+ x in
      if s <=? 100 ^* SYNC_LEVEL then Datatypes.Some j else first_cross xs' s (S j)
  end.

(** The active video of the signal [a], for [ntsc_h]: from line 21 on, every
    sample after the blanking interval is a level from blank to 110. *)
Definition active_ok (a : list Z) : Prop :=
  forall n t, 21 <= n < 262 -> 156 <= t < 910 ->
    exists x, a !! Z.to_nat (n * 910 + t) = Datatypes.Some x /\ 0 <= x <= 110.

(** The context an encode call leaves for the decoder: the context of
    [crt_init] for [ntsc_h] with an output of 320 by 240 whose pixels are
    all white, after [crt_2ntsc] has encoded the white image into it.  A
    decode call on it locks to the signal and draws its lines. *)
Definition encoded_ctx : CRT.t :=
  fst (fst (fst (@crt_2ntsc ntsc_h (CRT.set_out (ntsc_ctx 0) (fun _ => 0xffffff))
                   white_2x2 ntsc_statics))).

(** ** The model at work *)

Example ntsc_timing :
  (@SYNC_BEG ntsc_h, @BW_BEG ntsc_h, @CB_BEG ntsc_h, @AV_BEG ntsc_h, @AV_LEN ntsc_h)
  = (21, 88, 97, 156, 753).
Proof. vm_compute. reflexivity. Qed.

Example ntsc_dest :
  (@destw ntsc_h, @desth ntsc_h, @enc_xo ntsc_h, @enc_yo ntsc_h) = (637, 232, 216, 29).
Proof. vm_compute. reflexivity. Qed.

Example eqf_first_sample :
  snd (eqf (reset_eq (EQF.mk 27146 53248 [65536; 8192; 9175] [] [] [])) 100) = 1.
Proof. vm_compute. reflexivity. Qed.

Example ntsc_init :
  snd <$> (match @crt_init ntsc_h 640 480 (fun _ => 0) 194 with
           | Ok r => Datatypes.Some r | Fault _ => Datatypes.None end)
  = Datatypes.Some ntsc_statics.
Proof. vm_compute. reflexivity. Qed.

(* ===================================================================== *)
(** * Properties *)

(** ** Integer arithmetic *)

Section IntFacts.

Lemma sint_range x : Int.min_signed <= Int.sint x <= Int.max_signed.
Proof.
  unfold Int.sint, Int.min_signed, Int.max_signed.
  pose proof (Z.mod_pos_bound (x + 2 ^ 31) (2 ^ 32) ltac:(lia)). lia.
Qed.

Lemma sint_small x : Int.in_range x -> Int.sint x = x.
Proof.
  unfold Int.in_range, Int.sint, Int.min_signed, Int.max_signed. intros H.
  rewrite Z.mod_small by lia. lia.
Qed.

Lemma sint_idem x : Int.sint (Int.sint x) = Int.sint x.
Proof. apply sint_small, sint_range. Qed.

Lemma sint_eqm x y : (x - y) mod 2 ^ 32 = 0 -> Int.sint x = Int.sint y.
Proof.
  unfold Int.sint. intros H. f_equal.
  apply Z.mod_divide in H; [|lia]. destruct H as [k Hk].
  replace (x + 2 ^ 31) with (y + 2 ^ 31 + k * 2 ^ 32) by lia.
  apply Z.mod_add. lia.
Qed.

Lemma sint_congr x : (Int.sint x - x) mod 2 ^ 32 = 0.
Proof.
  unfold Int.sint.
  pose proof (Z.div_mod (x + 2 ^ 31) (2 ^ 32) ltac:(lia)) as H.
  replace ((x + 2 ^ 31) mod 2 ^ 32 - 2 ^ 31 - x)
    with ((- ((x + 2 ^ 31) / 2 ^ 32)) * 2 ^ 32) by lia.
  apply Z.mod_mul. lia.
Qed.

Lemma sint_add_l x y : Int.sint (Int.sint x + y) = Int.sint (x + y).
Proof.
  apply sint_eqm. replace (Int.sint x + y - (x + y)) with (Int.sint x - x) by lia.
  apply sint_congr.
Qed.

Lemma sint_add_r x y : Int.sint (x + Int.sint y) = Int.sint (x + y).
Proof. rewrite Z.add_comm, sint_add_l. f_equal. lia. Qed.

Lemma sint_sub_l x y : Int.sint (Int.sint x - y) = Int.sint (x - y).
Proof. unfold Z.sub. apply sint_add_l. Qed.

Lemma add_range a b : Int.in_range (Int.add a b).
Proof. apply sint_range. Qed.
Lemma sub_range a b : Int.in_range (Int.sub a b).
Proof. apply sint_range. Qed.
Lemma mul_range a b : Int.in_range (Int.mul a b).
Proof. apply sint_range. Qed.

End IntFacts.

(** ** Three band equalizer *)

Section EqualizerFacts.

(** The cascades leave the configuration and the history alone. *)
Lemma eqf_cascade_h f s : EQF.h (eqf_cascade f s) = EQF.h f.
Proof. reflexivity. Qed.

Lemma eqf_cascade_g f s : EQF.g (eqf_cascade f s) = EQF.g f.
Proof. reflexivity. Qed.

Lemma eqf_config f s : reset_eq (fst (eqf f s)) = reset_eq f.
Proof. reflexivity. Qed.

Lemma eqf_run_config xs : forall f, reset_eq (fst (eqf_run f xs)) = reset_eq f.
Proof.
  induction xs as [|s xs IH]; intros f; cbn [eqf_run fst]; [reflexivity|].
  destruct (eqf f s) as [f1 y] eqn:E1.
  destruct (eqf_run f1 xs) as [f2 ys] eqn:E2. cbn [fst].
  specialize (IH f1). rewrite E2 in IH. cbn [fst] in IH. rewrite IH.
  change f1 with (fst (f1, y)). rewrite <- E1. apply eqf_config.
Qed.

Lemma reset_eq_idem f : reset_eq (reset_eq f) = reset_eq f.
Proof. reflexivity. Qed.

(** The three bands telescope: their sum is the oldest history entry. *)
Lemma band_sum_history f s :
  eqf_band_sum f s = Int.sint (rd (EQF.h f) HISTOLD).
Proof.
  unfold eqf_band_sum, eqf_bands. rewrite eqf_cascade_h.
  set (a := rd (EQF.fL (eqf_cascade f s)) 3).
  set (b := rd (EQF.fH (eqf_cascade f s)) 3).
  set (c := rd (EQF.h f) HISTOLD).
  change (Int.add (Int.add a (Int.sub b a)) (Int.sub c b) = Int.sint c).
  unfold Int.add, Int.sub.
  rewrite sint_add_r, sint_add_l.
  replace (a + Int.sint (b - a) + (c - b)) with (Int.sint (b - a) + (a + c - b)) by lia.
  rewrite sint_add_l. f_equal. lia.
Qed.

Lemma eqf_history f s h0 h1 h2 :
  EQF.h f = [h0; h1; h2] -> EQF.h (fst (eqf f s)) = [s; h0; h1].
Proof.
  intros H.
  change (EQF.h (fst (eqf f s))) with (EQF.h (eqf_shift s (eqf_cascade f s))).
  unfold eqf_shift, EQF.set_h. cbn [EQF.h].
  rewrite eqf_cascade_h, H. reflexivity.
Qed.

Lemma band_sums_from_history xs : forall f h0 h1 h2,
  EQF.h f = [h0; h1; h2] ->
  Int.in_range h0 -> Int.in_range h1 -> Int.in_range h2 ->
  Forall Int.in_range xs ->
  eqf_run_band_sums f xs = take (length xs) ([h2; h1; h0] ++ xs).
Proof.
  induction xs as [|s xs IH]; intros f h0 h1 h2 Hh R0 R1 R2 Hxs; [reflexivity|].
  inversion Hxs as [|? ? Rs Hxs']; subst.
  cbn [eqf_run_band_sums]. rewrite band_sum_history, Hh.
  rewrite (IH _ s h0 h1 (eqf_history _ _ _ _ _ Hh)) by assumption.
  change (rd [h0; h1; h2] HISTOLD) with h2. rewrite (sint_small h2) by assumption.
  reflexivity.
Qed.

End EqualizerFacts.

Section EqualizerClaims.

(** C7.  Filter reset independence: for every equalizer configuration
    (fractions and gains) and every input sequence, running the sequence
    through [eqf] from the reset state, calling [reset_eq] and running the
    same sequence again gives the same output sequence; nothing of the
    first run is left in the filter. *)
Theorem eqf_reset_independence (f : EQF.t) (xs : list Z) :
  snd (eqf_run (reset_eq (fst (eqf_run (reset_eq f) xs))) xs)
  = snd (eqf_run (reset_eq f) xs).
Proof. rewrite eqf_run_config, reset_eq_idem. reflexivity. Qed.

(** The filter [init_eq] returns is in the reset state, so the theorem
    covers the first run after configuration. *)
Lemma init_eq_is_reset f_lo f_hi rate g_lo g_mid g_hi f :
  init_eq f_lo f_hi rate g_lo g_mid g_hi = Ok f -> reset_eq f = f.
Proof.
  unfold init_eq. destruct (rate =? 0); [discriminate|].
  destruct (sincos14 _) as [sn1 c1]. destruct (sincos14 _) as [sn2 c2].
  intros H. inversion H. reflexivity.
Qed.

(** C6, as amended.  Along a run that starts from the reset state, the sum
    of the three bands before the gains is, at every step, exactly the
    oldest entry of the raw history: the sample fed three steps earlier,
    and zero during the first three steps.  It does not follow the sample
    of the current step. *)
Theorem band_sum_is_delayed_input (f : EQF.t) (xs : list Z) :
  Forall Int.in_range xs ->
  eqf_run_band_sums (reset_eq f) xs = take (length xs) ([0; 0; 0] ++ xs).
Proof.
  intros Hxs.
  apply (band_sums_from_history xs (reset_eq f) 0 0 0); try reflexivity; try assumption;
    unfold Int.in_range, Int.min_signed, Int.max_signed; lia.
Qed.

Lemma band_sum_is_delayed_input_witness :
  Forall Int.in_range [100; -50; 25; 7; 3]
  /\ eqf_run_band_sums (reset_eq (Statics.eqY ntsc_statics)) [100; -50; 25; 7; 3]
     = [0; 0; 0; 100; -50].
Proof.
  assert (H : Forall Int.in_range [100; -50; 25; 7; 3]).
  { repeat constructor; unfold Int.min_signed, Int.max_signed; lia. }
  split; [exact H|].
  exact (band_sum_is_delayed_input (Statics.eqY ntsc_statics) [100; -50; 25; 7; 3] H).
Defined.

(** C6 as stated fails: on the first sample after a reset the three bands
    sum to zero, whatever the sample. *)
Lemma band_sum_ignores_sample :
  eqf_band_sum (reset_eq (Statics.eqY ntsc_statics)) 100 = 0
  /\ forall tol, tol < 100 ->
       ~ bands_reconstruct tol (reset_eq (Statics.eqY ntsc_statics)) 100.
Proof.
  split; [vm_compute; reflexivity|].
  intros tol Htol. unfold bands_reconstruct.
  replace (eqf_band_sum (reset_eq (Statics.eqY ntsc_statics)) 100) with 0
    by (vm_compute; reflexivity).
  lia.
Qed.

End EqualizerClaims.

(** ** Array access *)

Section ArrayFacts.

Lemma schar_small x : -128 <= x <= 127 -> schar x = x.
Proof. intros H. unfold schar. rewrite Z.mod_small by lia. lia. Qed.

Lemma aget_ok (a : list Z) i :
  0 <= i < Z.of_nat (length a) -> exists x, aget a i = Ok x /\ a !! Z.to_nat i = Some x.
Proof.
  intros H. unfold aget.
  destruct (Z.leb_spec 0 i); [|lia].
  destruct (lookup_lt_is_Some_2 a (Z.to_nat i) ltac:(lia)) as [x Hx].
  exists x. rewrite Hx. auto.
Qed.

Lemma aget_Ok_inv (a : list Z) i x :
  aget a i = Ok x -> 0 <= i < Z.of_nat (length a) /\ a !! Z.to_nat i = Some x.
Proof.
  unfold aget. destruct (Z.leb_spec 0 i); [|discriminate].
  destruct (a !! Z.to_nat i) eqn:E; [|discriminate].
  intros [= ->]. split; [|reflexivity].
  apply lookup_lt_Some in E. lia.
Qed.

Lemma aget_oob (a : list Z) i :
  Z.of_nat (length a) <= i -> aget a i = Fault (OutOfBounds i).
Proof.
  intros H. unfold aget. destruct (0 <=? i); [|reflexivity].
  rewrite lookup_ge_None_2 by lia. reflexivity.
Qed.

Lemma aset_ok (a : list Z) i x :
  0 <= i < Z.of_nat (length a) -> aset a i x = Ok (<[Z.to_nat i := schar x]> a).
Proof.
  intros H. unfold aset.
  destruct (Z.leb_spec 0 i); [|lia]. destruct (Z.ltb_spec i (Z.of_nat (length a))); [|lia].
  reflexivity.
Qed.

Lemma aset_Ok_inv (a a' : list Z) i x :
  aset a i x = Ok a' ->
  0 <= i < Z.of_nat (length a) /\ a' = <[Z.to_nat i := schar x]> a.
Proof.
  unfold aset.
  destruct (Z.leb_spec 0 i); [|discriminate].
  destruct (Z.ltb_spec i (Z.of_nat (length a))); [|discriminate].
  intros [= <-]. split; [lia|reflexivity].
Qed.

End ArrayFacts.

(** ** Noise injection *)

Section NoiseFacts.
Context {hdr : crt_h}.

Lemma noisy_sample_range a rn noise : amplitude_ok (noisy_sample a rn noise).
Proof.
  unfold amplitude_ok, noisy_sample.
  set (s := a ^+ _).
  destruct (Z.gtb_spec s 127);
    match goal with |- context [?u <? ?w] => destruct (Z.ltb_spec u w) end; lia.
Qed.

Lemma noisy_sample_stored a rn noise :
  schar (noisy_sample a rn noise) = noisy_sample a rn noise.
Proof. apply schar_small. pose proof (noisy_sample_range a rn noise) as H. unfold amplitude_ok in H. lia. Qed.

(** Whatever the loop has reached, an element of the working copy is either
    the one that was there before or a clamped sample. *)
Lemma noise_loop_touched noise analog n : forall i rn inp,
  forall k x, (snd (fst (for_run n i (noise_step noise analog) (rn, inp)))) !! k = Some x ->
  inp !! k = Some x \/ amplitude_ok x.
Proof.
  induction n as [|n IH]; intros i rn inp k x; cbn [for_run]; [auto|].
  unfold noise_step at 1. cbn [fst snd].
  destruct (aget analog i) as [a|f]; [|cbn; auto].
  destruct (aset inp i (noisy_sample a (next_rn rn) noise)) as [inp1|f] eqn:E; [|cbn; auto].
  cbn [done]. intros H. apply IH in H. destruct H as [H|H]; [|auto].
  apply aset_Ok_inv in E. destruct E as [Hi ->].
  destruct (decide (Z.to_nat i = k)) as [<-|Hne].
  - rewrite list_lookup_insert_eq in H by lia. injection H as <-.
    right. rewrite noisy_sample_stored. apply noisy_sample_range.
  - rewrite list_lookup_insert_ne in H by assumption. auto.
Qed.

(** On arrays of the declared size the loop runs to its end. *)
Lemma noise_loop_total noise analog n : forall i rn inp,
  0 <= i -> (Z.to_nat i + n)%nat = length analog -> length inp = length analog ->
  (forall k x, (k < Z.to_nat i)%nat -> inp !! k = Some x -> amplitude_ok x) ->
  exists rn' inp',
    for_run n i (noise_step noise analog) (rn, inp) = ((rn', inp'), Datatypes.None)
    /\ length inp' = length inp /\ Forall amplitude_ok inp'.
Proof.
  induction n as [|n IH]; intros i rn inp Hi Hn Hlen Hpre; cbn [for_run].
  - exists rn, inp. split; [reflexivity|]. split; [reflexivity|].
    apply Forall_lookup. intros k x Hk. apply (Hpre k x); [|assumption].
    apply lookup_lt_Some in Hk. lia.
  - unfold noise_step at 1. cbn [fst snd].
    destruct (aget_ok analog i ltac:(lia)) as [a [-> _]].
    rewrite aset_ok by lia. cbn [done].
    destruct (IH (i + 1) (next_rn rn)
                 (<[Z.to_nat i := schar (noisy_sample a (next_rn rn) noise)]> inp))
      as [rn' [inp' [E [Hl HF]]]].
    + lia.
    + lia.
    + rewrite length_insert. assumption.
    + intros k x Hk Hx.
      destruct (decide (Z.to_nat i = k)) as [<-|Hne].
      * rewrite list_lookup_insert_eq in Hx by lia. injection Hx as <-.
        rewrite noisy_sample_stored. apply noisy_sample_range.
      * rewrite list_lookup_insert_ne in Hx by assumption.
        apply (Hpre k x); [lia|assumption].
    + exists rn', inp'. rewrite length_insert in Hl. auto.
Qed.

(** C4.  For every noise level, every content of the analog buffer and every
    state of the noise generator, the noise loop of [crt_draw] runs to its
    end on a context whose two arrays have the declared size, and every
    sample it has written to the working copy lies within [-127, 127]. *)
Theorem noise_inject_clamped (noise rn : Z) (analog inp : list Z) :
  length analog = Z.to_nat CRT_INPUT_SIZE ->
  length inp = Z.to_nat CRT_INPUT_SIZE ->
  exists rn' inp',
    noise_inject noise analog (rn, inp) = ((rn', inp'), Datatypes.None)
    /\ length inp' = length inp
    /\ Forall amplitude_ok inp'.
Proof.
  intros Ha Hi. unfold noise_inject.
  apply noise_loop_total; [lia|simpl; lia|congruence|].
  intros k x Hk. simpl in Hk. lia.
Qed.

End NoiseFacts.

Lemma noise_inject_clamped_witness :
  length (replicate (Z.to_nat (@CRT_INPUT_SIZE ntsc_h)) 100) = Z.to_nat (@CRT_INPUT_SIZE ntsc_h)
  /\ length (replicate (Z.to_nat (@CRT_INPUT_SIZE ntsc_h)) 0) = Z.to_nat (@CRT_INPUT_SIZE ntsc_h)
  /\ exists rn' inp',
       @noise_inject ntsc_h 1000 (replicate (Z.to_nat (@CRT_INPUT_SIZE ntsc_h)) 100)
         (194, replicate (Z.to_nat (@CRT_INPUT_SIZE ntsc_h)) 0)
       = ((rn', inp'), Datatypes.None)
       /\ length inp' = length (replicate (Z.to_nat (@CRT_INPUT_SIZE ntsc_h)) 0)
       /\ Forall amplitude_ok inp'.
Proof.
  assert (H1 : length (replicate (Z.to_nat (@CRT_INPUT_SIZE ntsc_h)) 100)
               = Z.to_nat (@CRT_INPUT_SIZE ntsc_h)) by apply length_replicate.
  assert (H2 : length (replicate (Z.to_nat (@CRT_INPUT_SIZE ntsc_h)) 0)
               = Z.to_nat (@CRT_INPUT_SIZE ntsc_h)) by apply length_replicate.
  split; [exact H1|]. split; [exact H2|].
  exact (@noise_inject_clamped ntsc_h 1000 194 _ _ H1 H2).
Defined.

(** ** Chroma burst recovery *)

Section BurstFacts.
Context {hdr : crt_h}.

Lemma land3_range i : 0 <= i ^& 3 <= 3.
Proof.
  unfold Int.and. change 3 with (Z.ones 2) at 1 2. rewrite Z.land_ones by lia.
  pose proof (Z.mod_pos_bound i (2 ^ 2) ltac:(lia)). lia.
Qed.

Lemma rd_wr_eq (a : list Z) i x :
  0 <= i < Z.of_nat (length a) -> rd (wr a i x) i = x.
Proof. intros H. unfold rd, wr. apply list_lookup_total_insert_eq. lia. Qed.

Lemma rd_wr_ne (a : list Z) i j x :
  0 <= i -> 0 <= j -> i <> j -> rd (wr a i x) j = rd a j.
Proof. intros Hi Hj Hne. unfold rd, wr. apply list_lookup_total_insert_ne. lia. Qed.

Lemma length_wr (a : list Z) i x : length (wr a i x) = length a.
Proof. apply length_insert. Qed.

(** Without wrap-around the update is the previous value scaled by 127/128,
    truncated toward zero, plus the sample itself. *)
Lemma burst_acc_exact old n :
  Z.abs old <= 128 * 128 -> -128 <= n <= 127 ->
  burst_acc old n = Z.quot (old * 127) 128 + n
  /\ Z.abs (burst_acc old n) <= 128 * 128.
Proof.
  intros Ho Hn. unfold burst_acc, Int.add, Int.div, Int.mul.
  pose proof (Z.quot_rem' (old * 127) 128) as Hq.
  pose proof (Z.rem_bound_abs (old * 127) 128 ltac:(lia)) as Hr.
  rewrite (sint_small (old * 127))
    by (unfold Int.in_range, Int.min_signed, Int.max_signed; lia).
  rewrite (sint_small (Z.quot (old * 127) 128))
    by (unfold Int.in_range, Int.min_signed, Int.max_signed; lia).
  rewrite sint_small by (unfold Int.in_range, Int.min_signed, Int.max_signed; lia).
  split; [reflexivity|lia].
Qed.

(** C2, as amended.  A step of the burst loop reads the sample at position
    [i] and updates the accumulator of bucket [i & 3] only: its new value is
    the previous value times 127/128, truncated toward zero, plus the sample
    at full weight.  The other three accumulators are unchanged, and the
    accumulators stay within 128 samples of full amplitude. *)
Theorem burst_step_leaky (inp : list Z) (base i : Z) (ccref : list Z) (n : Z) :
  length ccref = 4%nat ->
  0 <= base + i ->
  inp !! Z.to_nat (base + i) = Some n ->
  -128 <= n <= 127 ->
  ccref_bounded ccref ->
  exists ccref',
    burst_step inp base i ccref = Ok ccref'
    /\ rd ccref' (i ^& 3) = Z.quot (rd ccref (i ^& 3) * 127) 128 + n
    /\ (forall b, 0 <= b < 4 -> b <> i ^& 3 -> rd ccref' b = rd ccref b)
    /\ length ccref' = 4%nat
    /\ ccref_bounded ccref'.
Proof.
  intros Hlen Hpos Hrd Hn Hb.
  pose proof (land3_range i) as Hi.
  assert (Hb3 : Z.abs (rd ccref (i ^& 3)) <= 128 * 128) by (apply Hb; lia).
  destruct (burst_acc_exact (rd ccref (i ^& 3)) n Hb3 Hn) as [Hacc Hbound].
  exists (wr ccref (i ^& 3) (burst_acc (rd ccref (i ^& 3)) n)).
  split; [|split; [|split; [|split]]].
  - unfold burst_step, aget. destruct (Z.leb_spec 0 (base + i)); [|lia].
    rewrite Hrd. reflexivity.
  - rewrite rd_wr_eq by lia. exact Hacc.
  - intros b Hb4 Hne. apply rd_wr_ne; lia.
  - rewrite length_wr. exact Hlen.
  - intros b Hb4. destruct (Z.eq_dec b (i ^& 3)) as [->|Hne].
    + rewrite rd_wr_eq by lia. exact Hbound.
    + rewrite rd_wr_ne by lia. apply Hb. exact Hb4.
Qed.

End BurstFacts.

Lemma burst_step_leaky_witness :
  exists ccref',
    burst_step (replicate 200 20) 0 97 [0; 640; 0; -640] = Ok ccref'
    /\ rd ccref' (97 ^& 3) = Z.quot (rd [0; 640; 0; -640] (97 ^& 3) * 127) 128 + 20
    /\ (forall b, 0 <= b < 4 -> b <> 97 ^& 3 -> rd ccref' b = rd [0; 640; 0; -640] b)
    /\ length ccref' = 4%nat
    /\ ccref_bounded ccref'.
Proof.
  apply (burst_step_leaky (replicate 200 20) 0 97 [0; 640; 0; -640] 20).
  - reflexivity.
  - lia.
  - reflexivity.
  - lia.
  - intros b Hb. assert (b = 0 \/ b = 1 \/ b = 2 \/ b = 3) as [->|[->|[->| ->]]] by lia;
      vm_compute; intros; discriminate.
Defined.

(** C2 as stated fails: from a zero accumulator a burst sample of 100 gives
    100, the whole sample and not the 1/128 of it an average would take. *)
Lemma burst_sample_full_weight :
  burst_acc 0 100 = 100 /\ ~ ema_128_update 0 100 (burst_acc 0 100).
Proof.
  split; [vm_compute; reflexivity|].
  unfold ema_128_update. replace (burst_acc 0 100) with 100 by (vm_compute; reflexivity). lia.
Qed.

(** ** Vertical sync acquisition *)

Section VsyncFacts.
Context {hdr : crt_h}.

Lemma POSMOD_range x n : 0 < n < 2 ^ 30 -> 0 <= POSMOD x n < n.
Proof.
  intros Hn. unfold POSMOD, Int.rem, Int.add.
  pose proof (Z.rem_bound_abs x n ltac:(lia)) as H1.
  rewrite sint_small by (unfold Int.in_range, Int.min_signed, Int.max_signed; lia).
  pose proof (Z.rem_bound_pos (Z.rem x n + n) n ltac:(lia) ltac:(lia)). lia.
Qed.

Lemma line_base line :
  hdr_ok -> 0 <= line < CRT_VRES ->
  line ^* CRT_HRES = line * CRT_HRES
  /\ 0 <= line * CRT_HRES /\ line * CRT_HRES + CRT_HRES <= CRT_INPUT_SIZE.
Proof.
  intros (HH & HV & HS & HB) Hl. unfold Int.mul.
  assert (0 <= line * CRT_HRES) by nia.
  assert (line * CRT_HRES + CRT_HRES <= CRT_INPUT_SIZE) by nia.
  rewrite sint_small by (unfold Int.in_range, Int.min_signed, Int.max_signed; lia).
  auto.
Qed.

Lemma line_samples_lookup inp line (n : nat) :
  0 <= line * CRT_HRES -> Z.of_nat n < CRT_HRES ->
  line_samples inp line !! n = inp !! Z.to_nat (line * CRT_HRES + Z.of_nat n).
Proof.
  intros Hb Hn. unfold line_samples.
  rewrite lookup_take_lt by lia. rewrite lookup_drop. f_equal. lia.
Qed.

Lemma line_samples_length inp line :
  hdr_ok -> 0 <= line < CRT_VRES -> length inp = Z.to_nat CRT_INPUT_SIZE ->
  length (line_samples inp line) = Z.to_nat CRT_HRES.
Proof.
  intros Hok Hl Hlen. destruct (line_base line Hok Hl) as (_ & H0 & H1).
  unfold line_samples. rewrite length_take, length_drop. lia.
Qed.

Lemma running_sum_S xs n x :
  xs !! n = Some x -> running_sum xs (S n) = running_sum xs n ^+ x.
Proof.
  intros H. unfold running_sum. rewrite (take_S_r _ _ _ H), fold_left_app. reflexivity.
Qed.

(** The inner loop: started at sample [j] with the running sum of the
    samples before it, none of which crossed, it stops at the first crossing
    or runs through its [k] samples. *)
Lemma vsync_scan_spec inp line k : forall j s,
  0 <= line * CRT_HRES ->
  line * CRT_HRES + CRT_HRES <= Z.of_nat (length inp) ->
  0 <= j -> j + Z.of_nat k <= CRT_HRES ->
  s = running_sum (line_samples inp line) (Z.to_nat j) ->
  (forall j', (j' < Z.to_nat j)%nat -> ~ crossed (line_samples inp line) j') ->
  exists j' found,
    vsync_scan k inp (line * CRT_HRES) j s = Ok (j', found)
    /\ j <= j' <= j + Z.of_nat k
    /\ (forall j'', (j'' < Z.to_nat j')%nat -> ~ crossed (line_samples inp line) j'')
    /\ (found = true -> j' < j + Z.of_nat k /\ crossed (line_samples inp line) (Z.to_nat j'))
    /\ (found = false -> j' = j + Z.of_nat k).
Proof.
  induction k as [|k IH]; intros j s Hb Hlen Hj Hk Hs Hpre; cbn [vsync_scan].
  - exists j, false. split; [reflexivity|]. split; [lia|]. split; [assumption|].
    split; [discriminate|]. intros _. lia.
  - assert (Hin : 0 <= line * CRT_HRES + j < Z.of_nat (length inp)) by lia.
    destruct (aget_ok inp (line * CRT_HRES + j) Hin) as [x [-> Hx]].
    cbn [res_bind].
    assert (Hsum : running_sum (line_samples inp line) (S (Z.to_nat j)) = s ^+ x).
    { rewrite Hs. apply running_sum_S. rewrite line_samples_lookup by lia.
      rewrite <- Hx. f_equal. lia. }
    destruct (Z.leb_spec (s ^+ x) (100 ^* SYNC_LEVEL)) as [Hc|Hc].
    + exists j, true. split; [reflexivity|]. split; [lia|]. split; [assumption|].
      split; [|discriminate]. intros _. split; [lia|]. unfold crossed. rewrite Hsum. exact Hc.
    + destruct (IH (j + 1) (s ^+ x)) as (j' & found & E & Hr & Hn & Ht & Hf); try lia.
      * rewrite <- Hsum. f_equal. lia.
      * intros j' Hj'. destruct (decide (j' = Z.to_nat j)) as [->|Hne].
        -- unfold crossed. rewrite Hsum. lia.
        -- apply Hpre. lia.
      * exists j', found. split; [exact E|]. split; [lia|]. split; [assumption|].
        split; [intros Hfd; destruct (Ht Hfd); split; [lia|assumption]|].
        intros Hfd. rewrite (Hf Hfd). lia.
Qed.

(** The scan of one candidate line, from its first sample. *)
Lemma vsync_line_spec inp line :
  hdr_ok -> length inp = Z.to_nat CRT_INPUT_SIZE -> 0 <= line < CRT_VRES ->
  exists j found,
    vsync_scan (Z.to_nat CRT_HRES) inp (line ^* CRT_HRES) 0 0 = Ok (j, found)
    /\ (found = true -> first_crossing (line_samples inp line) (Z.to_nat j)
                        /\ 0 <= j < CRT_HRES)
    /\ (found = false -> never_crosses (line_samples inp line) /\ j = CRT_HRES).
Proof.
  intros Hok Hlen Hl. destruct (line_base line Hok Hl) as (-> & H0 & H1).
  pose proof Hok as (HH & _).
  destruct (vsync_scan_spec inp line (Z.to_nat CRT_HRES) 0 0)
    as (j & found & E & Hr & Hn & Ht & Hf); try lia.
  - reflexivity.
  - exists j, found. split; [exact E|]. split.
    + intros Hfd. destruct (Ht Hfd) as [Hlt Hc]. split; [|lia].
      split; [|split; assumption].
      rewrite line_samples_length by assumption. lia.
    + intros Hfd. specialize (Hf Hfd). split; [|lia].
      intros j' Hj'. apply Hn. rewrite line_samples_length in Hj' by assumption. lia.
Qed.

End VsyncFacts.

Section VsyncClaim.
Context {hdr : crt_h}.

(** The outer loop, started at window offset [i] for [k] candidate lines. *)
Lemma vsync_lines_spec inp vsync :
  hdr_ok -> length inp = Z.to_nat CRT_INPUT_SIZE ->
  forall k i line0 j0,
  exists line j,
    vsync_lines k inp vsync i line0 j0 = Ok (line, j)
    /\ ((exists i0, i <= i0 < i + Z.of_nat k
           /\ line = POSMOD (vsync ^+ i0) CRT_VRES
           /\ first_crossing (line_samples inp line) (Z.to_nat j)
           /\ 0 <= j < CRT_HRES
           /\ forall i', i <= i' < i0 ->
                never_crosses (line_samples inp (POSMOD (vsync ^+ i') CRT_VRES)))
        \/ ((forall i', i <= i' < i + Z.of_nat k ->
               never_crosses (line_samples inp (POSMOD (vsync ^+ i') CRT_VRES)))
            /\ ((k = O /\ line = line0 /\ j = j0)
                \/ (k <> O /\ line = POSMOD (vsync ^+ (i + Z.of_nat k - 1)) CRT_VRES
                    /\ j = CRT_HRES)))).
Proof.
  intros Hok Hlen. pose proof Hok as (HH & HV & _).
  induction k as [|k IH]; intros i line0 j0; cbn [vsync_lines].
  - exists line0, j0. split; [reflexivity|]. right. split; [intros i' Hi'; lia|]. left. auto.
  - set (line1 := POSMOD (vsync ^+ i) CRT_VRES).
    assert (Hl1 : 0 <= line1 < CRT_VRES) by (apply POSMOD_range; lia).
    destruct (vsync_line_spec inp line1 Hok Hlen Hl1) as (j1 & found & E & Ht & Hf).
    rewrite E. cbn [res_bind fst snd]. destruct found.
    + exists line1, j1. split; [reflexivity|]. left. exists i.
      destruct (Ht eq_refl) as [Hfc Hj1].
      split; [lia|]. split; [reflexivity|]. split; [assumption|]. split; [assumption|].
      intros i' Hi'. lia.
    + destruct (Hf eq_refl) as [Hnc Hj1].
      destruct (IH (i + 1) line1 j1) as (line & j & E2 & [H|H]).
      * exists line, j. split; [exact E2|]. left.
        destruct H as (i0 & Hi0 & Hline & Hfc & Hj & Hbefore).
        exists i0. split; [lia|]. split; [assumption|]. split; [assumption|].
        split; [assumption|].
        intros i' Hi'. destruct (Z.eq_dec i' i) as [->|Hne]; [exact Hnc|].
        apply Hbefore. lia.
      * exists line, j. split; [exact E2|]. right.
        destruct H as (Hall & Hlast). split.
        -- intros i' Hi'. destruct (Z.eq_dec i' i) as [->|Hne]; [exact Hnc|].
           apply Hall. lia.
        -- right. split; [discriminate|].
           destruct Hlast as [(-> & -> & ->)|(Hk & -> & ->)].
           ++ split; [|assumption]. unfold line1. do 2 f_equal. lia.
           ++ split; [|reflexivity]. do 2 f_equal. lia.
Qed.

(** C3, as amended.  On a signal of the declared size, vertical sync
    acquisition scans the candidate lines [vsync - 8 .. vsync + 7] (modulo
    [CRT_VRES]) in that order, keeping for each a left-to-right running sum
    of its samples.  Either some line has a running sum at or below the
    threshold [100 * SYNC_LEVEL]: then the new vsync is the first such line,
    [j] is the index of the first sample at which its sum is there, and no
    earlier candidate line crosses.  Or no candidate line crosses: then the
    new vsync is the last line scanned and [j] is [CRT_HRES].  The field
    parity is 1 exactly when [j] exceeds [CRT_HRES / 2], which includes the
    case where nothing crossed. *)
Theorem vsync_search_spec (inp : list Z) (vsync : Z) :
  hdr_ok -> length inp = Z.to_nat CRT_INPUT_SIZE ->
  exists line j,
    vsync_search inp vsync = Ok (line, j)
    /\ ((exists i, - VSYNC_WINDOW <= i < VSYNC_WINDOW
           /\ line = POSMOD (vsync ^+ i) CRT_VRES
           /\ first_crossing (line_samples inp line) (Z.to_nat j)
           /\ 0 <= j < CRT_HRES
           /\ forall i', - VSYNC_WINDOW <= i' < i ->
                never_crosses (line_samples inp (POSMOD (vsync ^+ i') CRT_VRES)))
        \/ ((forall i', - VSYNC_WINDOW <= i' < VSYNC_WINDOW ->
               never_crosses (line_samples inp (POSMOD (vsync ^+ i') CRT_VRES)))
            /\ line = POSMOD (vsync ^+ (VSYNC_WINDOW - 1)) CRT_VRES
            /\ j = CRT_HRES))
    /\ (vsync_field j = 1 <-> CRT_HRES ^/ 2 < j).
Proof.
  intros Hok Hlen. unfold vsync_search.
  destruct (vsync_lines_spec inp vsync Hok Hlen
              (Z.to_nat (VSYNC_WINDOW - - VSYNC_WINDOW)) (- VSYNC_WINDOW) 0 0)
    as (line & j & E & H).
  exists line, j. split; [exact E|]. split.
  - destruct H as [(i0 & Hi0 & H)|(Hall & [(Hk & _)|(_ & Hline & Hj)])].
    + left. exists i0. split; [|exact H]. unfold VSYNC_WINDOW in *. lia.
    + discriminate Hk.
    + right. split; [|split; [|exact Hj]].
      * intros i' Hi'. apply Hall. unfold VSYNC_WINDOW in *. lia.
      * rewrite Hline. reflexivity.
  - unfold vsync_field. destruct (Z.gtb_spec j (CRT_HRES ^/ 2)); split; intros; lia.
Qed.

End VsyncClaim.

Lemma ntsc_hdr_ok : @hdr_ok ntsc_h.
Proof. unfold hdr_ok. cbn. lia. Qed.

Lemma running_sum_zeros n m : running_sum (replicate n 0) m = 0.
Proof.
  unfold running_sum. rewrite take_replicate.
  induction (m `min` n)%nat as [|k IH]; [reflexivity|exact IH].
Qed.

Lemma zeros_never_cross n : never_crosses (replicate n 0).
Proof.
  intros j _. unfold crossed. rewrite running_sum_zeros.
  change (100 ^* SYNC_LEVEL) with (-4000). lia.
Qed.

Lemma line_samples_zeros {hdr : crt_h} n line :
  exists m, line_samples (replicate n 0) line = replicate m 0.
Proof.
  unfold line_samples. rewrite drop_replicate, take_replicate. eexists. reflexivity.
Qed.

Lemma vsync_search_spec_witness :
  @hdr_ok ntsc_h
  /\ length (replicate (Z.to_nat (@CRT_INPUT_SIZE ntsc_h)) 0) = Z.to_nat (@CRT_INPUT_SIZE ntsc_h)
  /\ exists line j,
    @vsync_search ntsc_h (replicate (Z.to_nat (@CRT_INPUT_SIZE ntsc_h)) 0) 8 = Ok (line, j)
    /\ ((exists i, - VSYNC_WINDOW <= i < VSYNC_WINDOW
           /\ line = POSMOD (8 ^+ i) (@CRT_VRES ntsc_h)
           /\ first_crossing
                (@line_samples ntsc_h (replicate (Z.to_nat (@CRT_INPUT_SIZE ntsc_h)) 0) line)
                (Z.to_nat j)
           /\ 0 <= j < @CRT_HRES ntsc_h
           /\ forall i', - VSYNC_WINDOW <= i' < i ->
                never_crosses
                  (@line_samples ntsc_h (replicate (Z.to_nat (@CRT_INPUT_SIZE ntsc_h)) 0)
                     (POSMOD (8 ^+ i') (@CRT_VRES ntsc_h))))
        \/ ((forall i', - VSYNC_WINDOW <= i' < VSYNC_WINDOW ->
               never_crosses
                 (@line_samples ntsc_h (replicate (Z.to_nat (@CRT_INPUT_SIZE ntsc_h)) 0)
                    (POSMOD (8 ^+ i') (@CRT_VRES ntsc_h))))
            /\ line = POSMOD (8 ^+ (VSYNC_WINDOW - 1)) (@CRT_VRES ntsc_h)
            /\ j = @CRT_HRES ntsc_h))
    /\ (@vsync_field ntsc_h j = 1 <-> @CRT_HRES ntsc_h ^/ 2 < j).
Proof.
  assert (H2 : length (replicate (Z.to_nat (@CRT_INPUT_SIZE ntsc_h)) 0)
               = Z.to_nat (@CRT_INPUT_SIZE ntsc_h)) by apply length_replicate.
  split; [exact ntsc_hdr_ok|]. split; [exact H2|].
  exact (@vsync_search_spec ntsc_h _ 8 ntsc_hdr_ok H2).
Defined.

(** C3 as stated fails: on a blank signal no candidate line crosses the
    threshold, the scan gives up on the last line of the window, and the
    parity is 1 all the same. *)
Lemma vsync_gave_up_parity :
  @vsync_search ntsc_h (replicate (Z.to_nat (@CRT_INPUT_SIZE ntsc_h)) 0) 8 = Ok (15, 910)
  /\ @vsync_field ntsc_h 910 = 1
  /\ ~ @crossing_in_second_half ntsc_h
         (@line_samples ntsc_h (replicate (Z.to_nat (@CRT_INPUT_SIZE ntsc_h)) 0) 15).
Proof.
  split; [|split].
  - unfold vsync_search.
    destruct (@vsync_lines_spec ntsc_h (replicate (Z.to_nat (@CRT_INPUT_SIZE ntsc_h)) 0) 8
                ntsc_hdr_ok (length_replicate _ _)
                (Z.to_nat (VSYNC_WINDOW - - VSYNC_WINDOW)) (- VSYNC_WINDOW) 0 0)
      as (line & j & E & [(i0 & _ & _ & (_ & Hc & _) & _)|(_ & [(Hk & _)|(_ & -> & ->)])]).
    + exfalso. destruct (@line_samples_zeros ntsc_h (Z.to_nat (@CRT_INPUT_SIZE ntsc_h)) line)
        as [m Hm].
      rewrite Hm in Hc. unfold crossed in Hc. rewrite running_sum_zeros in Hc.
      change (100 ^* SYNC_LEVEL) with (-4000) in Hc. lia.
    + discriminate Hk.
    + exact E.
  - reflexivity.
  - intros (j & (_ & Hc & _) & _).
    destruct (@line_samples_zeros ntsc_h (Z.to_nat (@CRT_INPUT_SIZE ntsc_h)) 15) as [m Hm].
    rewrite Hm in Hc. unfold crossed in Hc. rewrite running_sum_zeros in Hc.
    change (100 ^* SYNC_LEVEL) with (-4000) in Hc. lia.
Qed.

(** ** Output pixels *)

Section PixelFacts.

Lemma mask_fefeff :
  0xfefeff = Z.lor (Z.shiftl (Z.ones 7) 17) (Z.lor (Z.shiftl (Z.ones 7) 9) (Z.ones 8)).
Proof. reflexivity. Qed.

(** Masking with [0xfefeff] and shifting right by one halves each channel
    in place. *)
Lemma half_masked_bits x :
  Z.shiftr (Z.land x 0xfefeff) 1
  = Z.lor (Z.shiftl (Z.shiftr (Z.land (Z.shiftr x 16) (Z.ones 8)) 1) 16)
      (Z.lor (Z.shiftl (Z.shiftr (Z.land (Z.shiftr x 8) (Z.ones 8)) 1) 8)
             (Z.shiftr (Z.land x (Z.ones 8)) 1)).
Proof.
  rewrite mask_fefeff.
  Z.bitblast; repeat (subst; Z.bitblast_core); try (f_equal; lia).
Qed.

Lemma lor_shiftl_add a b k :
  0 <= k -> 0 <= b < 2 ^ k -> Z.lor (Z.shiftl a k) b = a * 2 ^ k + b.
Proof.
  intros Hk Hb. rewrite <- Z.shiftl_mul_pow2 by lia. apply Z.or_to_plus.
  rewrite <- (Z.mod_small b (2 ^ k)) by lia. Z.bitblast.
  subst. rewrite Z.testbit_neg_r by lia. reflexivity.
Qed.

Lemma channel_range x k : 0 <= Z.land (Z.shiftr x k) 0xff <= 255.
Proof.
  change (Z.land (Z.shiftr x k) 0xff) with (Z.land (Z.shiftr x k) (Z.ones 8)).
  rewrite Z.land_ones by lia.
  generalize (Z.shiftr x k). intros y.
  assert (H8 : 0 < 2 ^ 8) by lia.
  pose proof (Z.mod_pos_bound y (2 ^ 8) H8). lia.
Qed.

Lemma red_range p : 0 <= red p <= 255.
Proof. apply channel_range. Qed.
Lemma green_range p : 0 <= green p <= 255.
Proof. apply channel_range. Qed.
Lemma blue_range p : 0 <= blue p <= 255.
Proof. apply channel_range. Qed.

Lemma half_masked x :
  (x ^& 0xfefeff) ^>> 1 = 65536 * (red x / 2) + 256 * (green x / 2) + blue x / 2.
Proof.
  unfold Int.and, Int.shr. rewrite half_masked_bits.
  pose proof (red_range x) as Hr. pose proof (green_range x) as Hg.
  pose proof (blue_range x) as Hb.
  unfold red, green, blue, Int.and, Int.shr in *.
  rewrite (Z.shiftr_0_r x) in *.
  change (Z.ones 8) with 0xff.
  set (r := Z.land (Z.shiftr x 16) 0xff) in *.
  set (g := Z.land (Z.shiftr x 8) 0xff) in *.
  set (b := Z.land x 0xff) in *.
  rewrite !Z.shiftr_div_pow2 by lia. change (2 ^ 1) with 2.
  assert (0 <= r / 2 <= 127) by
    (pose proof (Z.div_mod r 2 ltac:(lia)); pose proof (Z.mod_pos_bound r 2 ltac:(lia)); lia).
  assert (0 <= g / 2 <= 127) by
    (pose proof (Z.div_mod g 2 ltac:(lia)); pose proof (Z.mod_pos_bound g 2 ltac:(lia)); lia).
  assert (0 <= b / 2 <= 127) by
    (pose proof (Z.div_mod b 2 ltac:(lia)); pose proof (Z.mod_pos_bound b 2 ltac:(lia)); lia).
  rewrite (lor_shiftl_add (g / 2) (b / 2) 8) by lia.
  rewrite (lor_shiftl_add (r / 2)) by lia. lia.
Qed.

(** The channels of a pixel assembled from three bytes. *)
Lemma channels_of_bytes r g b :
  0 <= r <= 255 -> 0 <= g <= 255 -> 0 <= b <= 255 ->
  red (65536 * r + 256 * g + b) = r
  /\ green (65536 * r + 256 * g + b) = g
  /\ blue (65536 * r + 256 * g + b) = b.
Proof.
  intros Hr Hg Hb. unfold red, green, blue, Int.and, Int.shr.
  change 0xff with (Z.ones 8). rewrite !Z.land_ones, !Z.shiftr_div_pow2 by lia.
  change (Z.ones 8) with 255 in *.
  change (2 ^ 16) with 65536. change (2 ^ 8) with 256. change (2 ^ 0) with 1.
  rewrite Z.div_1_r.
  split; [|split].
  - replace (65536 * r + 256 * g + b) with (r * 65536 + (256 * g + b)) by lia.
    rewrite Z.div_add_l by lia. rewrite (Z.div_small (256 * g + b)) by lia.
    rewrite Z.add_0_r. apply Z.mod_small. lia.
  - replace (65536 * r + 256 * g + b) with ((256 * r + g) * 256 + b) by lia.
    rewrite Z.div_add_l by lia. rewrite (Z.div_small b) by lia.
    rewrite Z.add_0_r.
    replace (256 * r + g) with (g + r * 256) by lia.
    rewrite Z.mod_add by lia. apply Z.mod_small. lia.
  - replace (65536 * r + 256 * g + b) with (b + (256 * r + g) * 256) by lia.
    rewrite Z.mod_add by lia. apply Z.mod_small. lia.
Qed.

Lemma clamp_byte_range x : 0 <= clamp_byte x <= 255.
Proof.
  unfold clamp_byte. destruct (Z.ltb_spec x 0);
    match goal with |- context [?u >? ?w] => destruct (Z.gtb_spec u w) end; lia.
Qed.

Lemma pack_bytes r g b :
  0 <= r <= 255 -> 0 <= g <= 255 -> 0 <= b <= 255 ->
  (r ^<< 16) ^| (g ^<< 8) ^| b = 65536 * r + 256 * g + b.
Proof.
  intros Hr Hg Hb. unfold Int.or, Int.shl.
  rewrite !Z.shiftl_mul_pow2 by lia.
  rewrite !sint_small by (unfold Int.in_range, Int.min_signed, Int.max_signed; lia).
  rewrite <- !Z.shiftl_mul_pow2 by lia.
  rewrite <- Z.lor_assoc.
  rewrite (lor_shiftl_add g b 8) by lia.
  rewrite lor_shiftl_add by lia. lia.
Qed.

(** The decoded colour is three bytes side by side. *)
Lemma yiq2rgb_bytes A B L R contrast :
  exists r g b,
    0 <= r <= 255 /\ 0 <= g <= 255 /\ 0 <= b <= 255
    /\ yiq2rgb A B L R contrast = 65536 * r + 256 * g + b.
Proof.
  unfold yiq2rgb. cbv zeta.
  eexists _, _, _. split; [|split; [|split]]; [| | |apply pack_bytes];
    apply clamp_byte_range.
Qed.

(** The blended pixel: nothing above the channels, and each channel the sum
    of the two halves. *)
Lemma blend_bytes r g b bb :
  0 <= r <= 255 -> 0 <= g <= 255 -> 0 <= b <= 255 ->
  0 <= blend (65536 * r + 256 * g + b) bb < 2 ^ 24
  /\ red (blend (65536 * r + 256 * g + b) bb) = r / 2 + red bb / 2
  /\ green (blend (65536 * r + 256 * g + b) bb) = g / 2 + green bb / 2
  /\ blue (blend (65536 * r + 256 * g + b) bb) = b / 2 + blue bb / 2
  /\ r / 2 + red bb / 2 <= 254
  /\ g / 2 + green bb / 2 <= 254
  /\ b / 2 + blue bb / 2 <= 254.
Proof.
  intros Hr Hg Hb. unfold blend. rewrite !half_masked.
  destruct (channels_of_bytes r g b Hr Hg Hb) as (-> & -> & ->).
  pose proof (red_range bb) as Hr'. pose proof (green_range bb) as Hg'.
  pose proof (blue_range bb) as Hb'.
  set (r' := red bb) in *. set (g' := green bb) in *. set (b' := blue bb) in *.
  assert (Hh : forall x, 0 <= x <= 255 -> 0 <= x / 2 <= 127).
  { intros x Hx. pose proof (Z.div_mod x 2 ltac:(lia)).
    pose proof (Z.mod_pos_bound x 2 ltac:(lia)). lia. }
  pose proof (Hh r Hr). pose proof (Hh g Hg). pose proof (Hh b Hb).
  pose proof (Hh r' Hr'). pose proof (Hh g' Hg'). pose proof (Hh b' Hb').
  unfold Int.add.
  rewrite sint_small by (unfold Int.in_range, Int.min_signed, Int.max_signed; lia).
  replace (65536 * (r / 2) + 256 * (g / 2) + b / 2
           + (65536 * (r' / 2) + 256 * (g' / 2) + b' / 2))
    with (65536 * (r / 2 + r' / 2) + 256 * (g / 2 + g' / 2) + (b / 2 + b' / 2)) by lia.
  destruct (channels_of_bytes (r / 2 + r' / 2) (g / 2 + g' / 2) (b / 2 + b' / 2))
    as (-> & -> & ->); lia.
Qed.

End PixelFacts.

Section PixelClaim.
Context {hdr : crt_h}.

Lemma blend_pixel A B L R contrast bb :
  pixel_ok (blend (yiq2rgb A B L R contrast) bb)
  /\ is_blend bb (blend (yiq2rgb A B L R contrast) bb).
Proof.
  destruct (yiq2rgb_bytes A B L R contrast) as (r & g & b & Hr & Hg & Hb & ->).
  destruct (blend_bytes r g b bb Hr Hg Hb) as (Hp & Er & Eg & Eb & Br & Bg & Bb).
  split.
  - unfold pixel_ok. split; [exact Hp|].
    split; [apply red_range|]. split; [apply green_range|apply blue_range].
  - exists r, g, b. auto 10.
Qed.

Lemma clamp_byte_to_byte x : clamp_byte x = to_byte x.
Proof.
  unfold clamp_byte, to_byte. destruct (Z.ltb_spec x 0);
    match goal with |- context [?u >? ?w] => destruct (Z.gtb_spec u w) end; lia.
Qed.

(** The decoded colour is the three colour values of the source, clamped,
    side by side; the blend halves each of them. *)
Lemma blend_decoded A B L R contrast bb :
  let aa := yiq2rgb A B L R contrast in
  let '(r, g, b) := yiq2rgb_raw A B L R contrast in
  aa = 65536 * to_byte r + 256 * to_byte g + to_byte b
  /\ red (blend aa bb) = to_byte r / 2 + red bb / 2
  /\ green (blend aa bb) = to_byte g / 2 + green bb / 2
  /\ blue (blend aa bb) = to_byte b / 2 + blue bb / 2.
Proof.
  unfold yiq2rgb, yiq2rgb_raw. cbv zeta.
  rewrite !clamp_byte_to_byte.
  match goal with
  | |- context [65536 * to_byte ?r + 256 * to_byte ?g + to_byte ?b] =>
      set (r0 := r); set (g0 := g); set (b0 := b)
  end.
  assert (Hr : 0 <= to_byte r0 <= 255) by (unfold to_byte; lia).
  assert (Hg : 0 <= to_byte g0 <= 255) by (unfold to_byte; lia).
  assert (Hb : 0 <= to_byte b0 <= 255) by (unfold to_byte; lia).
  rewrite (pack_bytes _ _ _ Hr Hg Hb).
  destruct (blend_bytes _ _ _ bb Hr Hg Hb) as (_ & Er & Eg & Eb & _).
  auto 10.
Qed.

(** C5.  Whatever the decoded samples, the contrast and the prior contents of
    the output buffer, every pixel the resampling loop stores has nothing
    above its three channels, each channel is within [0, 255], and the pixel
    is the one the source computes at its position: the YIQ to RGB
    conversion with contrast scaling of the two samples around the position,
    each colour value clamped to [0, 255] (below at 0, above at 255), and
    each channel the sum of the halves of the clamped value and of the prior
    channel.  The loop stores at the offsets [cL] up to where it stopped and
    nowhere else. *)
Theorem resample_pixels (k : nat) (yiq : list (option Yiq.t))
    (contrast scanR dx cR : Z) (m : mem) (cL pos : Z) :
  cL <= snd (fst (resample k yiq contrast scanR dx cR m cL pos))
  /\ forall a,
       (cL <= a < snd (fst (resample k yiq contrast scanR dx cR m cL pos)) ->
          pixel_ok (fst (fst (resample k yiq contrast scanR dx cR m cL pos)) a)
          /\ is_blend (m a) (fst (fst (resample k yiq contrast scanR dx cR m cL pos)) a)
          /\ decoded_blend yiq contrast (scan_pos (Z.to_nat (a - cL)) dx pos) (m a)
               (fst (fst (resample k yiq contrast scanR dx cR m cL pos)) a))
       /\ (a < cL \/ snd (fst (resample k yiq contrast scanR dx cR m cL pos)) <= a ->
             fst (fst (resample k yiq contrast scanR dx cR m cL pos)) a = m a).
Proof.
  revert m cL pos. induction k as [|k IH]; intros m cL pos; cbn [resample].
  - cbn. split; [lia|]. intros a. split; [lia|reflexivity].
  - destruct ((pos <? Int.uint scanR) && (cL <? cR));
      [|cbn; split; [lia|]; intros a; split; [lia|reflexivity]].
    destruct (yget yiq (pos ^>> 12)) as [A|f] eqn:EA;
      [|cbn; split; [lia|]; intros a; split; [lia|reflexivity]].
    destruct (yget yiq ((pos ^>> 12) + 1)) as [B|f] eqn:EB;
      [|cbn; split; [lia|]; intros a; split; [lia|reflexivity]].
    set (px := blend (yiq2rgb A B (0xfff ^- (pos ^& 0xfff)) (pos ^& 0xfff) contrast) (m cL)).
    specialize (IH (mem_set m cL px) (cL + 1) (Int.uadd pos dx)).
    destruct IH as [Hle IH]. split; [lia|].
    intros a. destruct (IH a) as [Hin Hout]. split.
    + intros Ha. destruct (Z.eq_dec a cL) as [->|Hne].
      * rewrite Hout by lia. unfold mem_set. rewrite Z.eqb_refl.
        destruct (blend_pixel A B (0xfff ^- (pos ^& 0xfff)) (pos ^& 0xfff) contrast (m cL))
          as [Hok Hbl].
        split; [exact Hok|]. split; [exact Hbl|].
        replace (Z.to_nat (cL - cL)) with O by lia. cbn [scan_pos].
        exists A, B. split; [exact EA|]. split; [exact EB|].
        pose proof (blend_decoded A B (0xfff ^- (pos ^& 0xfff)) (pos ^& 0xfff) contrast
                      (m cL)) as Hd.
        cbv zeta in Hd |- *.
        destruct (yiq2rgb_raw A B (0xfff ^- (pos ^& 0xfff)) (pos ^& 0xfff) contrast)
          as [[r g] b].
        destruct Hd as (E & Er & Eg & Eb). auto.
      * destruct Hin as (Hok & Hbl & Hdec); [lia|]. split; [exact Hok|].
        assert (Em : mem_set m cL px a = m a)
          by (unfold mem_set; destruct (Z.eqb_spec a cL); [lia|reflexivity]).
        rewrite Em in Hbl, Hdec. split; [exact Hbl|].
        replace (Z.to_nat (a - cL)) with (Datatypes.S (Z.to_nat (a - (cL + 1)))) by lia.
        cbn [scan_pos]. exact Hdec.
    + intros Ha. rewrite Hout by lia. unfold mem_set.
      destruct (Z.eqb_spec a cL); [lia|reflexivity].
Qed.

(** The clamp at work: a white brighter than the output can show has the
    colour values 296 before the clamps; the pixel stored over black is the
    half of 255 in every channel. *)
Example resample_clamps_white :
  yiq2rgb_raw (Yiq.mk 1697 0 0) (Yiq.mk 1697 0 0) 0xfff 0 179 = (296, 296, 296)
  /\ fst (fst (resample 1 bright_yiq 179 4096 4096 1 (fun _ => 0) 0 0)) 0 = 0x7f7f7f.
Proof. split; vm_compute; reflexivity. Qed.

End PixelClaim.

(** ** Loops *)

Section LoopFacts.

Lemma for_run_invariant {W : Type} (P : W -> Prop) (body : Z -> W -> run W) :
  (forall i w, P w -> P (fst (body i w))) ->
  forall n i w, P w -> P (fst (for_run n i body w)).
Proof.
  intros Hbody. induction n as [|n IH]; intros i w Hw; cbn [for_run]; [exact Hw|].
  specialize (Hbody i w Hw). destruct (body i w) as [w' [f|]]; cbn [fst] in *.
  - exact Hbody.
  - apply IH. exact Hbody.
Qed.

End LoopFacts.

(** ** The decoder leaves the signal alone *)

Section DrawFrame.
Context {hdr : crt_h}.

Ltac case_step :=
  match goal with
  | |- context [match ?x with _ => _ end] =>
      let E := fresh "E" in destruct x eqn:E
  | |- context [if ?x then _ else _] =>
      let E := fresh "E" in destruct x eqn:E
  end.

Lemma draw_line_analog max_e field bright line d :
  CRT.analog (Draw.crt (fst (draw_line max_e field bright line d)))
  = CRT.analog (Draw.crt d).
Proof.
  unfold draw_line. repeat case_step; reflexivity.
Qed.

(** C8.  A decode call never modifies the analog signal buffer: for every
    context, every state of the statics and every noise level, whether the
    call runs to its end or stops at a fault, the [analog] array of the
    context it leaves is the one it was given.  The noise goes to [inp]. *)
Theorem crt_draw_keeps_analog (v : CRT.t) (g : Statics.t) (noise : Z) :
  CRT.analog (fst (fst (crt_draw v g noise))) = CRT.analog v.
Proof.
  unfold crt_draw.
  destruct (noise_inject noise (CRT.analog v) (Statics.rn g, CRT.inp v))
    as [[rn inp] [f|]]; [reflexivity|].
  destruct (vsync_search _ _) as [[line j]|f]; [|reflexivity].
  match goal with
  | |- context [for_run ?n0 ?i0 ?body ?w0] =>
      pose proof (for_run_invariant
                    (fun d => CRT.analog (Draw.crt d) = CRT.analog v) body) as H;
      specialize (H (fun ln d Hd => eq_trans (draw_line_analog _ _ _ ln d) Hd)
                    n0 i0 w0 eq_refl);
      destruct (for_run n0 i0 body w0) as [d flt]
  end.
  exact H.
Qed.

End DrawFrame.

(** ** Decoding without noise *)

Section QuietFacts.
Context {hdr : crt_h}.

Lemma mul_zero x : x ^* 0 = 0.
Proof. unfold Int.mul. rewrite Z.mul_0_r. reflexivity. Qed.

(** At noise level zero the generator has no part in the sample. *)
Lemma noisy_sample_quiet a rn : noisy_sample a rn 0 = noisy_sample a 0 0.
Proof. unfold noisy_sample. rewrite !mul_zero. reflexivity. Qed.

Lemma noise_loop_quiet analog n : forall i rn inp,
  0 <= i -> (Z.to_nat i + n)%nat = length analog -> length inp = length analog ->
  exists rn',
    for_run n i (noise_step 0 analog) (rn, inp)
    = ((rn', take (Z.to_nat i) inp ++ drop (Z.to_nat i) (quiet_sample <$> analog)),
       Datatypes.None).
Proof.
  induction n as [|n IH]; intros i rn inp Hi Hn Hlen; cbn [for_run].
  - exists rn. rewrite take_ge by lia. rewrite drop_ge by (rewrite length_fmap; lia).
    rewrite app_nil_r. reflexivity.
  - unfold noise_step at 1. cbn [fst snd].
    assert (Hin : 0 <= i < Z.of_nat (length analog)) by lia.
    destruct (aget_ok analog i Hin) as [a [-> Ha]].
    rewrite aset_ok by lia. cbn [done].
    rewrite noisy_sample_quiet. fold (quiet_sample a).
    destruct (IH (i + 1) (next_rn rn) (<[Z.to_nat i := quiet_sample a]> inp))
      as [rn' E]; [lia|lia|rewrite length_insert; lia|].
    exists rn'. rewrite E. do 2 f_equal.
    replace (Z.to_nat (i + 1)) with (S (Z.to_nat i)) by lia.
    rewrite (take_S_r _ _ (quiet_sample a))
      by (apply list_lookup_insert_eq; lia).
    rewrite take_insert_ge by lia.
    rewrite (drop_S (quiet_sample <$> analog) (quiet_sample a) (Z.to_nat i))
      by (rewrite list_lookup_fmap, Ha; reflexivity).
    rewrite <- app_assoc. reflexivity.
Qed.

(** Without noise the working copy is the clamped signal, whatever the
    state of the generator and the former contents of the copy. *)
Lemma noise_inject_quiet analog rn inp :
  length analog = Z.to_nat CRT_INPUT_SIZE -> length inp = Z.to_nat CRT_INPUT_SIZE ->
  exists rn',
    noise_inject 0 analog (rn, inp) = ((rn', quiet_sample <$> analog), Datatypes.None).
Proof.
  intros Ha Hi. unfold noise_inject.
  destruct (noise_loop_quiet analog (Z.to_nat CRT_INPUT_SIZE) 0 rn inp) as [rn' E];
    [lia|simpl; lia|congruence|].
  exists rn'. rewrite E. reflexivity.
Qed.

End QuietFacts.

(** ** Reads of the signal past its end *)

Section SyncBounds.
Context {hdr : crt_h}.

(** On a blank signal the vertical search gives up on the last candidate. *)
Lemma vsync_search_blank n vsync :
  hdr_ok -> n = Z.to_nat CRT_INPUT_SIZE ->
  vsync_search (replicate n 0) vsync
  = Ok (POSMOD (vsync ^+ (VSYNC_WINDOW - 1)) CRT_VRES, CRT_HRES).
Proof.
  intros Hok Hn. unfold vsync_search.
  assert (Hlen : length (replicate n 0) = Z.to_nat CRT_INPUT_SIZE)
    by (rewrite length_replicate; exact Hn).
  destruct (vsync_lines_spec (replicate n 0) vsync Hok Hlen
              (Z.to_nat (VSYNC_WINDOW - - VSYNC_WINDOW)) (- VSYNC_WINDOW) 0 0)
    as (line & j & E & [(i0 & _ & _ & (_ & Hc & _) & _)|(_ & [(Hk & _)|(_ & -> & ->)])]).
  - exfalso. destruct (line_samples_zeros n line) as [m Hm].
    rewrite Hm in Hc. unfold crossed in Hc. rewrite running_sum_zeros in Hc.
    change (100 ^* SYNC_LEVEL) with (-4000) in Hc. lia.
  - discriminate Hk.
  - exact E.
Qed.

(** The first read of the horizontal search is at [SYNC_BEG - HSYNC_WINDOW]
    from its base; nothing wraps it back into the array. *)
Lemma hsync_search_oob inp base :
  Z.of_nat (length inp) <= base + (SYNC_BEG ^+ - HSYNC_WINDOW) ->
  hsync_search inp base = Fault (OutOfBounds (base + (SYNC_BEG ^+ - HSYNC_WINDOW))).
Proof.
  intros H. unfold hsync_search.
  change (Z.to_nat (HSYNC_WINDOW - - HSYNC_WINDOW)) with 16%nat. cbn [hsync_scan].
  rewrite aget_oob by exact H. reflexivity.
Qed.

Lemma draw_line_hsync_oob max_e field bright line d :
  ((line ^- CRT_TOP ^+ 0) ^* CRT.outh (Draw.crt d) ^/ CRT_LINES ^+ field
     >=? CRT.outh (Draw.crt d)) = false ->
  Z.of_nat (length (CRT.inp (Draw.crt d)))
    <= Int.uint (POSMOD (line ^+ CRT.vsync (Draw.crt d)) CRT_VRES ^* CRT_HRES)
       + CRT.hsync (Draw.crt d) + (SYNC_BEG ^+ - HSYNC_WINDOW) ->
  draw_line max_e field bright line d
  = (d, Datatypes.Some
          (OutOfBounds
             (Int.uint (POSMOD (line ^+ CRT.vsync (Draw.crt d)) CRT_VRES ^* CRT_HRES)
              + CRT.hsync (Draw.crt d) + (SYNC_BEG ^+ - HSYNC_WINDOW)))).
Proof.
  intros Hbeg Hoob. unfold draw_line. rewrite Hbeg.
  rewrite hsync_search_oob by exact Hoob. reflexivity.
Qed.

End SyncBounds.

Lemma crt_draw_late_sync n :
  n = Z.to_nat (@CRT_INPUT_SIZE ntsc_h) ->
  snd (@crt_draw ntsc_h
         (CRT.mk (replicate n 0) (replicate n 0) 909 233 0 179 18 0 100 320 240 (fun _ => 0))
         ntsc_statics 0)
  = Datatypes.Some (OutOfBounds 238432).
Proof.
  intros Hn. unfold crt_draw.
  cbn [CRT.analog CRT.inp Statics.rn ntsc_statics].
  destruct (@noise_inject_quiet ntsc_h (replicate n 0) 194 (replicate n 0)) as [rn' E];
    [rewrite length_replicate; exact Hn|rewrite length_replicate; exact Hn|].
  rewrite E. rewrite fmap_replicate. change (quiet_sample 0) with 0.
  cbn [CRT.set_inp CRT.inp CRT.vsync CRT.analog CRT.hsync CRT.brightness CRT.contrast
       CRT.saturation CRT.black_point CRT.white_point CRT.outw CRT.outh CRT.out].
  rewrite (@vsync_search_blank ntsc_h n 233 ntsc_hdr_ok Hn).
  change (Z.to_nat (@CRT_BOT ntsc_h - @CRT_TOP ntsc_h)) with (S 239).
  cbn [for_run].
  rewrite draw_line_hsync_oob.
  - reflexivity.
  - reflexivity.
  - cbn [Draw.crt CRT.inp CRT.set_vsync CRT.set_inp CRT.vsync CRT.hsync].
    rewrite length_replicate. rewrite Hn. vm_compute. discriminate.
Qed.

(** C10: the code does not keep the claim.  From sync fields that are within
    their ranges, on a blank signal and without noise, the first visible
    line is searched for horizontal sync at an index of [inp] that is 12
    past its last element: the row index is reduced modulo [CRT_VRES], the
    horizontal offset added to it is not reduced. *)
Theorem crt_draw_reads_past_inp :
  snd (@crt_draw ntsc_h late_sync_ctx ntsc_statics 0)
  = Datatypes.Some (OutOfBounds 238432)
  /\ @CRT_INPUT_SIZE ntsc_h = 238420.
Proof.
  split; [|reflexivity].
  exact (crt_draw_late_sync (Z.to_nat (@CRT_INPUT_SIZE ntsc_h)) eq_refl).
Qed.

(** ** Reproducibility *)

Section Reproducible.
Context {hdr : crt_h}.

Ltac case_step :=
  match goal with
  | |- context [match ?x with _ => _ end] =>
      let E := fresh "E" in destruct x eqn:E
  | |- context [if ?x then _ else _] =>
      let E := fresh "E" in destruct x eqn:E
  end.

(** Two runs of a loop from related states stay related and stop alike. *)
Lemma for_run_rel {W : Type} (R : W -> W -> Prop) (body : Z -> W -> run W) :
  (forall i w1 w2, R w1 w2 ->
     R (fst (body i w1)) (fst (body i w2)) /\ snd (body i w1) = snd (body i w2)) ->
  forall n i w1 w2, R w1 w2 ->
    R (fst (for_run n i body w1)) (fst (for_run n i body w2))
    /\ snd (for_run n i body w1) = snd (for_run n i body w2).
Proof.
  intros Hbody. induction n as [|n IH]; intros i w1 w2 Hw; cbn [for_run].
  - split; [exact Hw|reflexivity].
  - destruct (Hbody i w1 w2 Hw) as [HR Hf].
    destruct (body i w1) as [w1' [f1|]]; destruct (body i w2) as [w2' [f2|]];
      cbn [fst snd] in *; try discriminate.
    + split; [exact HR|exact Hf].
    + apply IH. exact HR.
Qed.

Lemma same_config_refl g : same_config g g.
Proof. unfold same_config. auto 10. Qed.


Lemma same_config_trans g1 g2 g3 :
  same_config g1 g2 -> same_config g2 g3 -> same_config g1 g3.
Proof.
  unfold same_config. intros (?&?&?&?&?&?) (?&?&?&?&?&?).
  repeat split; etransitivity; eassumption.
Qed.

(** *** The noise loop at level zero *)



(** *** The line loop of the decoder *)


Lemma set_rn_config g rn : same_config g (Statics.set_rn g rn).
Proof. unfold same_config. cbn. auto 10. Qed.


(** *** The render loops of the encoder *)

Lemma encode_row_rel v s y e1 e2 :
  enc_rel e1 e2 -> encode_row v s y e1 = encode_row v s y e2.
Proof.
  destruct e1 as [a1 y1 i1 q1]. destruct e2 as [a2 y2 i2 q2].
  unfold enc_rel. cbn [Enc.analog Enc.iirY Enc.iirI Enc.iirQ].
  intros (-> & EY & EI & EQ). unfold encode_row.
  cbn [Enc.analog Enc.iirY Enc.iirI Enc.iirQ]. rewrite EY, EI, EQ. reflexivity.
Qed.

Lemma enc_rel_refl e : enc_rel e e.
Proof. unfold enc_rel. auto. Qed.

(** With statics of the same configuration, two encode calls on the same
    context and settings leave the same context and settings, statics of
    the same configuration, and stop alike. *)
Lemma crt_2ntsc_rel v s g1 g2 :
  same_config g1 g2 ->
  fst (fst (fst (crt_2ntsc v s g1))) = fst (fst (fst (crt_2ntsc v s g2)))
  /\ snd (fst (fst (crt_2ntsc v s g1))) = snd (fst (fst (crt_2ntsc v s g2)))
  /\ same_config (snd (fst (crt_2ntsc v s g1))) (snd (fst (crt_2ntsc v s g2)))
  /\ snd (crt_2ntsc v s g1) = snd (crt_2ntsc v s g2).
Proof.
  intros Hc. pose proof Hc as (EY & EI & EQ & IY & II & IQ). unfold crt_2ntsc.
  destruct (for_run (Z.to_nat CRT_VRES) 0 _ (CRT.analog v)) as [a [f|]];
    [cbn; auto|].
  match goal with
  | |- context [for_run ?n0 ?i0 ?body (Enc.mk ?a0 (Statics.iirY g1) ?b0 ?c0)] =>
      destruct (for_run_rel enc_rel body
                  (fun y e1 e2 He =>
                     eq_ind_r (fun r => enc_rel (fst r) (fst (body y e2))
                                        /\ snd r = snd (body y e2))
                       (conj (enc_rel_refl _) eq_refl)
                       (encode_row_rel v _ y e1 e2 He))
                  n0 i0
                  (Enc.mk a0 (Statics.iirY g1) (Statics.iirI g1) (Statics.iirQ g1))
                  (Enc.mk a0 (Statics.iirY g2) (Statics.iirI g2) (Statics.iirQ g2)))
        as [HR HF]
  end.
  { unfold enc_rel. cbn [Enc.analog Enc.iirY Enc.iirI Enc.iirQ]. auto. }
  destruct (for_run _ _ _ (Enc.mk a (Statics.iirY g1) _ _)) as [e1 fl1].
  destruct (for_run _ _ _ (Enc.mk a (Statics.iirY g2) _ _)) as [e2 fl2].
  cbn [fst snd] in *. destruct HR as (Ea & Hy & Hi & Hq). subst fl2.
  rewrite Ea. split; [reflexivity|]. split; [reflexivity|]. split; [|reflexivity].
  unfold same_config, Statics.set_iir.
  cbn [Statics.eqY Statics.eqI Statics.eqQ Statics.iirY Statics.iirI Statics.iirQ].
  auto 10.
Qed.

(** *** The calls keep the configuration *)

Lemma encode_pixel_config v s y syA syB x e :
  reset_iir (Enc.iirY (fst (encode_pixel v s y syA syB x e))) = reset_iir (Enc.iirY e)
  /\ reset_iir (Enc.iirI (fst (encode_pixel v s y syA syB x e))) = reset_iir (Enc.iirI e)
  /\ reset_iir (Enc.iirQ (fst (encode_pixel v s y syA syB x e))) = reset_iir (Enc.iirQ e).
Proof.
  unfold encode_pixel. destruct (rgb2yiq _ _) as [[fy fi] fq].
  unfold iirf. destruct (aset _ _ _); cbn; auto.
Qed.

Lemma encode_row_config v s y e :
  reset_iir (Enc.iirY (fst (encode_row v s y e))) = reset_iir (Enc.iirY e)
  /\ reset_iir (Enc.iirI (fst (encode_row v s y e))) = reset_iir (Enc.iirI e)
  /\ reset_iir (Enc.iirQ (fst (encode_row v s y e))) = reset_iir (Enc.iirQ e).
Proof.
  unfold encode_row.
  apply (for_run_invariant
           (fun e' => reset_iir (Enc.iirY e') = reset_iir (Enc.iirY e)
                      /\ reset_iir (Enc.iirI e') = reset_iir (Enc.iirI e)
                      /\ reset_iir (Enc.iirQ e') = reset_iir (Enc.iirQ e))).
  - intros i w (Hy & Hi & Hq).
    match goal with
    | |- context [encode_pixel ?v0 ?s0 ?y0 ?a0 ?b0 ?x0 ?e0] =>
        destruct (encode_pixel_config v0 s0 y0 a0 b0 x0 e0) as (Ey & Ei & Eq)
    end.
    rewrite Ey, Ei, Eq. auto.
  - cbn. auto.
Qed.

Lemma crt_2ntsc_config v s g : same_config g (snd (fst (crt_2ntsc v s g))).
Proof.
  unfold crt_2ntsc.
  destruct (for_run (Z.to_nat CRT_VRES) 0 _ (CRT.analog v)) as [a [f|]];
    [apply same_config_refl|].
  match goal with
  | |- context [for_run ?n0 ?i0 ?body ?w0] =>
      pose proof (for_run_invariant
                    (fun e' => reset_iir (Enc.iirY e') = reset_iir (Statics.iirY g)
                               /\ reset_iir (Enc.iirI e') = reset_iir (Statics.iirI g)
                               /\ reset_iir (Enc.iirQ e') = reset_iir (Statics.iirQ g))
                    body) as H;
      specialize (H (fun y e He =>
                       match encode_row_config v _ y e, He with
                       | conj Ey (conj Ei Eqq), conj Hy (conj Hi Hq) =>
                           conj (eq_trans Ey Hy) (conj (eq_trans Ei Hi) (eq_trans Eqq Hq))
                       end) n0 i0 w0);
      destruct (for_run n0 i0 body w0) as [e flt]
  end.
  cbn [fst snd] in *. destruct H as (Hy & Hi & Hq); [cbn; auto|].
  unfold same_config, Statics.set_iir.
  cbn [Statics.eqY Statics.eqI Statics.eqQ Statics.iirY Statics.iirI Statics.iirQ].
  auto 10.
Qed.

Lemma demod_step_config inp pos bright wave i fy fi fq yiq :
  reset_eq (fst (fst (fst (fst (demod_step inp pos bright wave i (fy, fi, fq, yiq))))))
  = reset_eq fy
  /\ reset_eq (snd (fst (fst (fst (demod_step inp pos bright wave i (fy, fi, fq, yiq))))))
     = reset_eq fi
  /\ reset_eq (snd (fst (fst (demod_step inp pos bright wave i (fy, fi, fq, yiq)))))
     = reset_eq fq.
Proof.
  unfold demod_step.
  destruct (aget inp (pos + i)) as [x|f]; [|cbn; auto].
  pose proof (eqf_config fy (x ^+ bright)) as Hy.
  destruct (eqf fy (x ^+ bright)) as [fy' y]. cbn [fst] in Hy.
  destruct (yset yiq i _) as [yiq0|f]; [|cbn; auto].
  pose proof (eqf_config fi ((x ^* rd wave ((i ^+ 0) ^& 3)) ^>> 9)) as Hi.
  destruct (eqf fi _) as [fi' ci]. cbn [fst] in Hi.
  pose proof (eqf_config fq ((x ^* rd wave ((i ^+ 3) ^& 3)) ^>> 9)) as Hq.
  destruct (eqf fq _) as [fq' cq]. cbn [fst] in Hq.
  destruct (yset yiq i _); cbn; auto.
Qed.

Lemma draw_line_config max_e field bright line d :
  same_config (Draw.st d) (Draw.st (fst (draw_line max_e field bright line d))).
Proof.
  unfold draw_line.
  repeat first
    [ match goal with
      | |- context [for_run ?n0 ?i0 (demod_step ?a ?b ?c ?e) ?w0] =>
          let H := fresh "H" in
          pose proof (for_run_invariant
            (fun w => reset_eq (fst (fst (fst w))) = reset_eq (Statics.eqY (Draw.st d))
                      /\ reset_eq (snd (fst (fst w))) = reset_eq (Statics.eqI (Draw.st d))
                      /\ reset_eq (snd (fst w)) = reset_eq (Statics.eqQ (Draw.st d)))
            (demod_step a b c e)) as H;
          specialize (H (fun i w Hw =>
            match w return
              (reset_eq (fst (fst (fst w))) = reset_eq (Statics.eqY (Draw.st d))
               /\ reset_eq (snd (fst (fst w))) = reset_eq (Statics.eqI (Draw.st d))
               /\ reset_eq (snd (fst w)) = reset_eq (Statics.eqQ (Draw.st d))) ->
              (reset_eq (fst (fst (fst (fst (demod_step a b c e i w)))))
                 = reset_eq (Statics.eqY (Draw.st d))
               /\ reset_eq (snd (fst (fst (fst (demod_step a b c e i w)))))
                  = reset_eq (Statics.eqI (Draw.st d))
               /\ reset_eq (snd (fst (fst (demod_step a b c e i w))))
                  = reset_eq (Statics.eqQ (Draw.st d)))
            with
            | (fy, fi, fq, yiq) => fun Hw' =>
                match demod_step_config a b c e i fy fi fq yiq, Hw' with
                | conj Ey (conj Ei Eqq), conj Hy (conj Hi Hq) =>
                    conj (eq_trans Ey Hy) (conj (eq_trans Ei Hi) (eq_trans Eqq Hq))
                end
            end Hw) n0 i0 w0 (conj eq_refl (conj eq_refl eq_refl)));
          destruct (for_run n0 i0 (demod_step a b c e) w0) as [[[[? ?] ?] ?] ?];
          cbn [fst snd] in H
      end
    | case_step ];
    cbn [fst snd stop done Draw.st]; try apply same_config_refl;
    unfold same_config, Statics.set_eq;
    cbn [Statics.eqY Statics.eqI Statics.eqQ Statics.iirY Statics.iirI Statics.iirQ];
    repeat match goal with H : _ /\ _ |- _ => destruct H end;
    auto 10.
Qed.

Lemma crt_draw_config v g noise : same_config g (snd (fst (crt_draw v g noise))).
Proof.
  unfold crt_draw.
  destruct (noise_inject _ _ _) as [[rn inp] [f|]]; [apply set_rn_config|].
  destruct (vsync_search _ _) as [[line j]|f]; [|apply set_rn_config].
  match goal with
  | |- context [for_run ?n0 ?i0 ?body ?w0] =>
      pose proof (for_run_invariant (fun d => same_config g (Draw.st d)) body) as H;
      specialize (H (fun ln d Hd =>
                       same_config_trans _ _ _ Hd (draw_line_config _ _ _ ln d))
                    n0 i0 w0 (set_rn_config g rn));
      destruct (for_run n0 i0 body w0) as [d flt]
  end.
  exact H.
Qed.




End Reproducible.

(** ** What an encode call assigns *)

Section StoreFacts.
Context {hdr : crt_h}.

Lemma same_stores_ext a1 a2 (W W' : Z -> Prop) b1 b2 :
  (forall j, 0 <= j -> (W j <-> W' j)) ->
  same_stores a1 a2 W b1 b2 -> same_stores a1 a2 W' b1 b2.
Proof.
  intros Hext (H1 & H2 & H). split; [exact H1|]. split; [exact H2|].
  intros j Hj. destruct (H j Hj) as [Hin Hout]. split.
  - intros HW. apply Hin. apply Hext; assumption.
  - intros HW. apply Hout. intros HW'. apply HW. apply Hext; assumption.
Qed.

Lemma same_stores_init a1 a2 : same_stores a1 a2 (fun _ => False) a1 a2.
Proof.
  split; [reflexivity|]. split; [reflexivity|]. intros j Hj. split; [contradiction|auto].
Qed.

(** The same store on both sides. *)
Lemma aset_same a1 a2 W b1 b2 i x :
  same_stores a1 a2 W b1 b2 ->
  0 <= i < Z.of_nat (length a1) -> length a2 = length a1 ->
  exists b1' b2',
    aset b1 i x = Ok b1' /\ aset b2 i x = Ok b2'
    /\ same_stores a1 a2 (fun j => W j \/ j = i) b1' b2'.
Proof.
  intros (H1 & H2 & H) Hi Hlen.
  exists (<[Z.to_nat i := schar x]> b1), (<[Z.to_nat i := schar x]> b2).
  split; [apply aset_ok; lia|]. split; [apply aset_ok; lia|].
  split; [rewrite length_insert; exact H1|]. split; [rewrite length_insert; exact H2|].
  intros j Hj. destruct (H j Hj) as [Hin Hout].
  destruct (Z.eq_dec j i) as [->|Hne].
  - split; [|intros Hn; exfalso; apply Hn; right; reflexivity].
    intros _. rewrite !list_lookup_insert_eq by lia. reflexivity.
  - rewrite !list_lookup_insert_ne by lia. split.
    + intros [HW|He]; [apply Hin; exact HW|contradiction].
    + intros Hn. apply Hout. intros HW. apply Hn. left. exact HW.
Qed.

Lemma fill_loop_same a1 a2 base x k : forall W b1 b2 t,
  same_stores a1 a2 W b1 b2 -> length a2 = length a1 ->
  0 <= base + t -> base + t + Z.of_nat k <= Z.of_nat (length a1) ->
  exists b1' b2',
    fill_loop k base x b1 t = done (b1', t + Z.of_nat k)
    /\ fill_loop k base x b2 t = done (b2', t + Z.of_nat k)
    /\ same_stores a1 a2 (fun j => W j \/ base + t <= j < base + t + Z.of_nat k) b1' b2'.
Proof.
  induction k as [|k IH]; intros W b1 b2 t HW Hlen H0 H1; cbn [fill_loop].
  - exists b1, b2. rewrite Z.add_0_r. split; [reflexivity|]. split; [reflexivity|].
    apply (same_stores_ext a1 a2 W); [|exact HW]. intros j Hj. split; [auto|].
    intros [H|H]; [exact H|lia].
  - destruct (aset_same a1 a2 W b1 b2 (base + t) x HW) as (c1 & c2 & E1 & E2 & HW');
      [lia|exact Hlen|].
    rewrite E1, E2.
    destruct (IH _ c1 c2 (t + 1) HW' Hlen) as (b1' & b2' & F1 & F2 & HW''); [lia|lia|].
    exists b1', b2'.
    replace (t + Z.of_nat (S k)) with (t + 1 + Z.of_nat k) by lia.
    split; [exact F1|]. split; [exact F2|].
    refine (same_stores_ext a1 a2 _ _ b1' b2' _ HW'').
    intros j Hj. intuition lia.
Qed.

Lemma fill_same a1 a2 base lim x W b1 b2 t :
  same_stores a1 a2 W b1 b2 -> length a2 = length a1 ->
  0 <= base + t -> t <= lim -> base + lim <= Z.of_nat (length a1) ->
  exists b1' b2',
    fill base lim x (b1, t) = done (b1', lim)
    /\ fill base lim x (b2, t) = done (b2', lim)
    /\ same_stores a1 a2 (fun j => W j \/ base + t <= j < base + lim) b1' b2'.
Proof.
  intros HW Hlen H0 Ht H1. unfold fill. cbn [fst snd].
  destruct (fill_loop_same a1 a2 base x (Z.to_nat (lim - t)) W b1 b2 t HW Hlen)
    as (b1' & b2' & E1 & E2 & HW'); [lia|lia|].
  exists b1', b2'. replace (t + Z.of_nat (Z.to_nat (lim - t))) with lim in * by lia.
  split; [exact E1|]. split; [exact E2|].
  refine (same_stores_ext a1 a2 _ _ b1' b2' _ HW').
  intros j Hj. intuition lia.
Qed.

End StoreFacts.

Section SyncLines.

Lemma ntsc_mul_small n m :
  0 <= n < 1000 -> 0 <= m < 1000 -> n ^* m = n * m.
Proof.
  intros Hn Hm. unfold Int.mul. apply sint_small.
  unfold Int.in_range, Int.min_signed, Int.max_signed. nia.
Qed.

Lemma ntsc_add_small n m :
  0 <= n < 1000000 -> 0 <= m < 1000000 -> n ^+ m = n + m.
Proof.
  intros Hn Hm. unfold Int.add. apply sint_small.
  unfold Int.in_range, Int.min_signed, Int.max_signed. lia.
Qed.

(** The colour burst: 40 stores inside the blanking interval. *)
Lemma burst_line_same a1 a2 base k : forall W b1 b2 t t0,
  same_stores a1 a2 W b1 b2 -> length a2 = length a1 ->
  0 <= base + t -> base + t + Z.of_nat k <= Z.of_nat (length a1) ->
  exists b1' b2' t',
    for_run k t
      (fun t w =>
         match aset (fst w) (base + t)
                 (BLANK_LEVEL ^+ (rd cc ((t ^+ 0) ^& 3) ^* BURST_LEVEL)) with
         | Ok a' => done (a', t + 1)
         | Fault f => stop (fst w, t) f
         end) (b1, t0) = done (b1', t')
    /\ for_run k t
      (fun t w =>
         match aset (fst w) (base + t)
                 (BLANK_LEVEL ^+ (rd cc ((t ^+ 0) ^& 3) ^* BURST_LEVEL)) with
         | Ok a' => done (a', t + 1)
         | Fault f => stop (fst w, t) f
         end) (b2, t0) = done (b2', t')
    /\ same_stores a1 a2 (fun j => W j \/ base + t <= j < base + t + Z.of_nat k) b1' b2'.
Proof.
  induction k as [|k IH]; intros W b1 b2 t t0 HW Hlen H0 H1; cbn [for_run].
  - exists b1, b2, t0. split; [reflexivity|]. split; [reflexivity|].
    refine (same_stores_ext a1 a2 _ _ b1 b2 _ HW). intros j Hj. intuition lia.
  - cbn [fst].
    destruct (aset_same a1 a2 W b1 b2 (base + t)
                (BLANK_LEVEL ^+ (rd cc ((t ^+ 0) ^& 3) ^* BURST_LEVEL)) HW)
      as (c1 & c2 & E1 & E2 & HW'); [lia|exact Hlen|].
    rewrite E1, E2. cbn [done].
    destruct (IH _ c1 c2 (t + 1) (t + 1) HW' Hlen) as (b1' & b2' & t' & F1 & F2 & HW'');
      [lia|lia|].
    exists b1', b2', t'. split; [exact F1|]. split; [exact F2|].
    refine (same_stores_ext a1 a2 _ _ b1' b2' _ HW''). intros j Hj. intuition lia.
Qed.

Lemma sync_stored_step n :
  0 <= n ->
  forall j, 0 <= j ->
    (sync_stored n j \/ n * 910 <= j < n * 910 + (if n <? 21 then 910 else 156))
    <-> sync_stored (n + 1) j.
Proof.
  intros Hn j Hj. unfold sync_stored. split.
  - intros [(l & t & Hl & Ht & -> & Hc)|Hr].
    + exists l, t. repeat split; try lia.
    + exists n, (j - n * 910). destruct (Z.ltb_spec n 21); repeat split; lia.
  - intros (l & t & Hl & Ht & -> & Hc).
    destruct (Z.eq_dec l n) as [->|Hne].
    + right. destruct (Z.ltb_spec n 21); lia.
    + left. exists l, t. repeat split; lia.
Qed.

Ltac fill_step :=
  match goal with
  | HW : same_stores ?a1 ?a2 ?W ?c1 ?c2, Hlen : length ?a2 = length ?a1
    |- context [fill ?base ?lim ?x (?c1, ?t)] =>
      let d1 := fresh "d" in
      let d2 := fresh "d" in
      let E1 := fresh "E" in
      let E2 := fresh "E" in
      let HW' := fresh "HW" in
      destruct (fill_same a1 a2 base lim x W c1 c2 t HW Hlen)
        as (d1 & d2 & E1 & E2 & HW');
      [lia|lia|lia|rewrite E1, E2; cbn [and_then done]; clear E1 E2 HW]
  end.

Ltac cover :=
  lazymatch goal with
  | |- ?A \/ ?B =>
      let HB := fresh "HB" in
      assert (HB : B \/ ~ B) by lia;
      destruct HB as [HB|HB]; [right; exact HB|left; cover]
  | |- _ => exfalso; lia
  end.

Lemma sync_stored_full n :
  0 <= n < 21 ->
  forall j, 0 <= j ->
    (sync_stored n j \/ n * 910 <= j < n * 910 + 910) <-> sync_stored (n + 1) j.
Proof.
  intros Hn j Hj. pose proof (sync_stored_step n ltac:(lia) j Hj) as H.
  destruct (Z.ltb_spec n 21); [exact H|lia].
Qed.

Lemma sync_stored_video n :
  21 <= n ->
  forall j, 0 <= j ->
    (sync_stored n j \/ n * 910 <= j < n * 910 + 156) <-> sync_stored (n + 1) j.
Proof.
  intros Hn j Hj. pose proof (sync_stored_step n ltac:(lia) j Hj) as H.
  destruct (Z.ltb_spec n 21); [lia|exact H].
Qed.

Ltac line_done Hstep :=
  match goal with
  | HW : same_stores ?a1 ?a2 ?W ?c1 ?c2 |- _ =>
      exists c1, c2; split; [reflexivity|]; split; [reflexivity|];
      refine (same_stores_ext a1 a2 _ _ c1 c2 _ HW);
      let j := fresh "j" in
      let Hj := fresh "Hj" in
      let Hs1 := fresh "Hs" in
      let Hs2 := fresh "Hs" in
      intros j Hj;
      destruct (Hstep j Hj) as [Hs1 Hs2]; split;
      [ let Hx := fresh "Hx" in
        intros Hx; apply Hs1;
        repeat match goal with H : _ \/ _ |- _ => destruct H end;
        first [left; assumption|right; lia]
      | let Hx := fresh "Hx" in
        intros Hx; apply Hs2 in Hx; destruct Hx as [Hx|Hx];
        [repeat left; exact Hx|cover] ]
  end.

(** One line of the first loop: the same stores on both sides, and the
    lines done grow by one. *)
Lemma sync_line_same field as_color n a1 a2 b1 b2 :
  0 <= n < 262 ->
  Z.of_nat (length a1) = 238420 -> length a2 = length a1 ->
  same_stores a1 a2 (sync_stored n) b1 b2 ->
  exists b1' b2',
    @sync_line ntsc_h field as_color n b1 = done b1'
    /\ @sync_line ntsc_h field as_color n b2 = done b2'
    /\ same_stores a1 a2 (sync_stored (n + 1)) b1' b2'.
Proof.
  intros Hn Hsz Hlen HW. unfold sync_line. cbv zeta.
  change (@CRT_HRES ntsc_h) with 910. change (@CRT_TOP ntsc_h) with 21.
  rewrite (ntsc_mul_small n 910) by lia.
  change (4 ^* 910 ^/ 100) with 36. change (50 ^* 910 ^/ 100) with 455.
  change (54 ^* 910 ^/ 100) with 491. change (100 ^* 910 ^/ 100) with 910.
  change (@SYNC_BEG ntsc_h) with 21. change (@BW_BEG ntsc_h) with 88.
  change (@AV_BEG ntsc_h) with 156. change LINE_BEG with 0.
  destruct ((n <=? 3) || ((n >=? 7) && (n <=? 9))) eqn:C1.
  - assert (Hfull := sync_stored_full n ltac:(lia)).
    do 4 fill_step. cbn [fst snd done]. line_done Hfull.
  - destruct ((n >=? 4) && (n <=? 6)) eqn:C2.
    + assert (Hfull := sync_stored_full n ltac:(lia)).
      destruct (field =? 1).
      * change (rd odd_offs 0 ^* 910 ^/ 100) with 36.
        change (rd odd_offs 1 ^* 910 ^/ 100) with 455.
        change (rd odd_offs 2 ^* 910 ^/ 100) with 873.
        change (rd odd_offs 3 ^* 910 ^/ 100) with 910.
        do 4 fill_step. cbn [fst snd done]. line_done Hfull.
      * change (rd even_offs 0 ^* 910 ^/ 100) with 418.
        change (rd even_offs 1 ^* 910 ^/ 100) with 455.
        change (rd even_offs 2 ^* 910 ^/ 100) with 873.
        change (rd even_offs 3 ^* 910 ^/ 100) with 910.
        do 4 fill_step. cbn [fst snd done]. line_done Hfull.
    + do 3 fill_step.
      destruct (Z.ltb_spec n 21) as [Hlt|Hge].
      * assert (Hfull := sync_stored_full n ltac:(lia)).
        fill_step. destruct (as_color =? 0).
        -- cbn [fst snd done]. line_done Hfull.
        -- unfold burst_line.
           change (Z.to_nat (@CB_BEG ntsc_h ^+ (CB_CYCLES ^* @CRT_CB_FREQ ntsc_h)
                             - @CB_BEG ntsc_h)) with 40%nat.
           change (@CB_BEG ntsc_h) with 97.
           match goal with
           | HW : same_stores _ _ ?W ?c1 ?c2 |- context [for_run _ _ _ (?c1, ?t0)] =>
               destruct (burst_line_same a1 a2 (n * 910) 40 W c1 c2 97 t0 HW Hlen)
                 as (e1 & e2 & t' & E1 & E2 & HW'); [lia|lia|];
               rewrite E1, E2; clear E1 E2 HW
           end.
           cbn [fst snd done]. line_done Hfull.
      * assert (Hvid := sync_stored_video n Hge).
        cbn [and_then done]. destruct (as_color =? 0).
        -- cbn [fst snd done]. line_done Hvid.
        -- unfold burst_line.
           change (Z.to_nat (@CB_BEG ntsc_h ^+ (CB_CYCLES ^* @CRT_CB_FREQ ntsc_h)
                             - @CB_BEG ntsc_h)) with 40%nat.
           change (@CB_BEG ntsc_h) with 97.
           match goal with
           | HW : same_stores _ _ ?W ?c1 ?c2 |- context [for_run _ _ _ (?c1, ?t0)] =>
               destruct (burst_line_same a1 a2 (n * 910) 40 W c1 c2 97 t0 HW Hlen)
                 as (e1 & e2 & t' & E1 & E2 & HW'); [lia|lia|];
               rewrite E1, E2; clear E1 E2 HW
           end.
           cbn [fst snd done]. line_done Hvid.
Qed.

(** A loop whose body keeps an indexed relation between two runs, and does
    not fault, keeps it to its end. *)
Lemma for_run_same {St : Type} (R : Z -> St -> St -> Prop) (body : Z -> St -> run St)
    (lo hi : Z) :
  (forall i w1 w2, lo <= i < hi -> R i w1 w2 ->
     exists w1' w2', body i w1 = done w1' /\ body i w2 = done w2' /\ R (i + 1) w1' w2') ->
  forall k i w1 w2, lo <= i -> i + Z.of_nat k <= hi -> R i w1 w2 ->
    exists w1' w2',
      for_run k i body w1 = done w1' /\ for_run k i body w2 = done w2'
      /\ R (i + Z.of_nat k) w1' w2'.
Proof.
  intros Hbody. induction k as [|k IH]; intros i w1 w2 Hlo Hhi HR; cbn [for_run].
  - exists w1, w2. rewrite Z.add_0_r. auto.
  - destruct (Hbody i w1 w2 ltac:(lia) HR) as (c1 & c2 & E1 & E2 & HR').
    rewrite E1, E2. cbn [done].
    destruct (IH (i + 1) c1 c2 ltac:(lia) ltac:(lia) HR') as (d1 & d2 & F1 & F2 & HR'').
    exists d1, d2. replace (i + Z.of_nat (S k)) with (i + 1 + Z.of_nat k) by lia. auto.
Qed.

(** The first loop of [crt_2ntsc]. *)
Lemma sync_lines_same field as_color a1 a2 :
  Z.of_nat (length a1) = 238420 -> length a2 = length a1 ->
  exists b1 b2,
    for_run (Z.to_nat (@CRT_VRES ntsc_h)) 0 (@sync_line ntsc_h field as_color) a1 = done b1
    /\ for_run (Z.to_nat (@CRT_VRES ntsc_h)) 0 (@sync_line ntsc_h field as_color) a2
       = done b2
    /\ same_stores a1 a2 (sync_stored 262) b1 b2.
Proof.
  intros Hsz Hlen.
  destruct (for_run_same (fun n => same_stores a1 a2 (sync_stored n))
              (@sync_line ntsc_h field as_color) 0 262
              (fun n b1 b2 Hn HW => sync_line_same field as_color n a1 a2 b1 b2
                                      Hn Hsz Hlen HW)
              (Z.to_nat (@CRT_VRES ntsc_h)) 0 a1 a2)
    as (b1 & b2 & E1 & E2 & HW).
  - lia.
  - cbn. lia.
  - refine (same_stores_ext a1 a2 _ _ a1 a2 _ (same_stores_init a1 a2)).
    intros j Hj. split; [contradiction|].
    intros (n & t & Hn & _). lia.
  - exists b1, b2. auto.
Qed.

(** One destination pixel. *)
Lemma encode_pixel_same v s y syA syB x a1 a2 e1 e2 :
  0 <= y < 232 -> 0 <= x < 637 ->
  Z.of_nat (length a1) = 238420 -> length a2 = length a1 ->
  enc_same a1 a2 (row_stored y x) e1 e2 ->
  exists e1' e2',
    @encode_pixel ntsc_h v s y syA syB x e1 = done e1'
    /\ @encode_pixel ntsc_h v s y syA syB x e2 = done e2'
    /\ enc_same a1 a2 (row_stored y (x + 1)) e1' e2'.
Proof.
  intros Hy Hx Hsz Hlen (EY & EI & EQ & HW). unfold encode_pixel.
  rewrite <- EY, <- EI, <- EQ.
  destruct (rgb2yiq _ _) as [[fy fi] fq].
  destruct (iirf (Enc.iirY e1) fy) as [iy fy'].
  destruct (iirf (Enc.iirI e1) fi) as [ii fi'].
  destruct (iirf (Enc.iirQ e1) fq) as [iq fq'].
  change (@enc_xo ntsc_h) with 216. change (@enc_yo ntsc_h) with 29.
  change (@CRT_HRES ntsc_h) with 910.
  rewrite (ntsc_add_small x 216) by lia. rewrite (ntsc_add_small y 29) by lia.
  rewrite (ntsc_mul_small (y + 29) 910) by lia.
  rewrite (ntsc_add_small (x + 216)) by lia.
  destruct (aset_same a1 a2 _ _ _ ((x + 216) + (y + 29) * 910)
              (@composite ntsc_h v x y fy' fi' fq') HW)
    as (c1 & c2 & E1 & E2 & HW'); [lia|exact Hlen|].
  rewrite E1, E2.
  exists (Enc.mk c1 iy ii iq), (Enc.mk c2 iy ii iq).
  split; [reflexivity|]. split; [reflexivity|].
  unfold enc_same. cbn [Enc.iirY Enc.iirI Enc.iirQ Enc.analog].
  repeat (split; [reflexivity|]).
  refine (same_stores_ext a1 a2 _ _ c1 c2 _ HW').
  intros j Hj. unfold row_stored. split.
  - intros [[H|(x' & Hx' & ->)]| ->].
    + left. exact H.
    + right. exists x'. split; [lia|reflexivity].
    + right. exists x. split; [lia|reflexivity].
  - intros [H|(x' & Hx' & ->)].
    + left. left. exact H.
    + destruct (Z.eq_dec x' x) as [->|Hne].
      * right. reflexivity.
      * left. right. exists x'. split; [lia|reflexivity].
Qed.

(** One destination row. *)
Lemma encode_row_same v s y a1 a2 e1 e2 :
  0 <= y < 232 ->
  Z.of_nat (length a1) = 238420 -> length a2 = length a1 ->
  enc_same a1 a2 (render_stored y) e1 e2 ->
  exists e1' e2',
    @encode_row ntsc_h v s y e1 = done e1'
    /\ @encode_row ntsc_h v s y e2 = done e2'
    /\ enc_same a1 a2 (render_stored (y + 1)) e1' e2'.
Proof.
  intros Hy Hsz Hlen (EY & EI & EQ & HW). unfold encode_row. cbv zeta.
  match goal with
  | |- context [for_run ?k 0 (@encode_pixel _ ?v0 ?s0 ?y0 ?syA ?syB) _] =>
      destruct (for_run_same (fun x => enc_same a1 a2 (row_stored y x))
                  (@encode_pixel ntsc_h v0 s0 y0 syA syB) 0 637
                  (fun x w1 w2 Hx Hw =>
                     encode_pixel_same v0 s0 y0 syA syB x a1 a2 w1 w2 Hy Hx Hsz Hlen Hw)
                  k 0
                  (Enc.mk (Enc.analog e1) (reset_iir (Enc.iirY e1))
                     (reset_iir (Enc.iirI e1)) (reset_iir (Enc.iirQ e1)))
                  (Enc.mk (Enc.analog e2) (reset_iir (Enc.iirY e2))
                     (reset_iir (Enc.iirI e2)) (reset_iir (Enc.iirQ e2))))
        as (c1 & c2 & E1 & E2 & (FY & FI & FQ & HW'))
  end.
  - lia.
  - change (@destw ntsc_h) with 637. lia.
  - unfold enc_same. cbn [Enc.iirY Enc.iirI Enc.iirQ Enc.analog].
    rewrite EY, EI, EQ. repeat (split; [reflexivity|]).
    refine (same_stores_ext a1 a2 _ _ _ _ _ HW).
    intros j Hj. unfold row_stored. split; [auto|].
    intros [H|(x' & Hx' & _)]; [exact H|lia].
  - exists c1, c2. split; [exact E1|]. split; [exact E2|].
    unfold enc_same. repeat (split; [assumption|]).
    refine (same_stores_ext a1 a2 _ _ _ _ _ HW').
    intros j Hj. unfold row_stored, render_stored.
    change (0 + Z.of_nat (Z.to_nat (@destw ntsc_h))) with 637. split.
    + intros [[H|(y' & x & Hy' & Hx & ->)]|(x' & Hx' & ->)].
      * left. exact H.
      * right. exists y', x. repeat split; lia.
      * right. exists y, x'. repeat split; lia.
    + intros [H|(y' & x & Hy' & Hx & ->)].
      * left. left. exact H.
      * destruct (Z.eq_dec y' y) as [->|Hne].
        -- right. exists x. split; [lia|reflexivity].
        -- left. right. exists y', x. repeat split; lia.
Qed.

(** The whole encode call, run on two contexts that differ in the former
    content of the signal only. *)
Lemma crt_2ntsc_same v s g a2 :
  Z.of_nat (length (CRT.analog v)) = 238420 -> length a2 = length (CRT.analog v) ->
  exists b1 b2 s' g',
    @crt_2ntsc ntsc_h v s g = done (CRT.set_analog v b1, s', g')
    /\ @crt_2ntsc ntsc_h (CRT.set_analog v a2) s g
       = done (CRT.set_analog v b2, s', g')
    /\ same_stores (CRT.analog v) a2 (render_stored 232) b1 b2.
Proof.
  intros Hsz Hlen. unfold crt_2ntsc. cbv zeta.
  set (s' := NTSC_SETTINGS.set_field s (NTSC_SETTINGS.field s ^& 1)).
  cbn [CRT.analog CRT.set_analog].
  destruct (sync_lines_same (NTSC_SETTINGS.field s') (NTSC_SETTINGS.as_color s')
              (CRT.analog v) a2 Hsz Hlen) as (b1 & b2 & E1 & E2 & HW).
  rewrite E1, E2. cbn [done].
  change (@encode_row ntsc_h (CRT.set_analog v a2) s')
    with (@encode_row ntsc_h v s').
  destruct (for_run_same (fun y => enc_same (CRT.analog v) a2 (render_stored y))
              (@encode_row ntsc_h v s') 0 232
              (fun y w1 w2 Hy Hw =>
                 encode_row_same v s' y (CRT.analog v) a2 w1 w2 Hy Hsz Hlen Hw)
              (Z.to_nat (@desth ntsc_h)) 0
              (Enc.mk b1 (Statics.iirY g) (Statics.iirI g) (Statics.iirQ g))
              (Enc.mk b2 (Statics.iirY g) (Statics.iirI g) (Statics.iirQ g)))
    as (c1 & c2 & F1 & F2 & (FY & FI & FQ & HW')).
  - lia.
  - change (@desth ntsc_h) with 232. lia.
  - unfold enc_same. cbn [Enc.iirY Enc.iirI Enc.iirQ Enc.analog].
    repeat (split; [reflexivity|]).
    refine (same_stores_ext _ _ _ _ _ _ _ HW).
    intros j Hj. unfold render_stored. split; [auto|].
    intros [H|(y' & x & Hy' & _)]; [exact H|lia].
  - rewrite F1, F2. cbn [done].
    exists (Enc.analog c1), (Enc.analog c2), s',
      (Statics.set_iir g (Enc.iirY c1) (Enc.iirI c1) (Enc.iirQ c1)).
    split; [reflexivity|]. split; [rewrite <- FY, <- FI, <- FQ; reflexivity|].
    exact HW'.
Qed.

Lemma render_stored_assigned n t :
  0 <= n < 262 -> 0 <= t < 910 ->
  (render_stored 232 (n * 910 + t) <-> ntsc_assigned n t = true).
Proof.
  intros Hn Ht. unfold ntsc_assigned, render_stored, sync_stored.
  rewrite !orb_true_iff, !andb_true_iff, !Z.ltb_lt, !Z.leb_le. split.
  - intros [(n' & t' & Hn' & Ht' & E & Hc)|(y' & x & Hy' & Hx & E)].
    + assert (n' = n /\ t' = t) as [-> ->] by lia. tauto.
    + assert (n = y' + 29 /\ t = x + 216) as [-> ->] by lia. right. lia.
  - intros [Hc|Hc].
    + left. exists n, t. repeat split; lia.
    + right. exists (n - 29), (t - 216). repeat split; lia.
Qed.

(** C1, as amended.  For the reference timing (262 lines of 910 samples) an
    encode call runs to its end without fault on a signal buffer of the
    full size, and it assigns exactly the samples [ntsc_assigned] names:
    every sample of the lines above the active video, the first 156 samples
    of every line, and the samples 216 to 852 of the lines 29 to 260.  An
    assigned sample has a value that does not depend on the former content
    of the buffer; every other sample keeps the value it had before the
    call. *)
Theorem crt_2ntsc_assigned v s g a2 :
  Z.of_nat (length (CRT.analog v)) = 238420 -> length a2 = length (CRT.analog v) ->
  let r1 := @crt_2ntsc ntsc_h v s g in
  let r2 := @crt_2ntsc ntsc_h (CRT.set_analog v a2) s g in
  let after (r : run (CRT.t * NTSC_SETTINGS.t * Statics.t)) :=
    CRT.analog (fst (fst (fst r))) in
  snd r1 = None /\ snd r2 = None
  /\ length (after r1) = length (CRT.analog v)
  /\ forall n t, 0 <= n < 262 -> 0 <= t < 910 ->
       if ntsc_assigned n t
       then after r1 !! Z.to_nat (n * 910 + t) = after r2 !! Z.to_nat (n * 910 + t)
       else after r1 !! Z.to_nat (n * 910 + t) = CRT.analog v !! Z.to_nat (n * 910 + t)
            /\ after r2 !! Z.to_nat (n * 910 + t) = a2 !! Z.to_nat (n * 910 + t).
Proof.
  intros Hsz Hlen.
  destruct (crt_2ntsc_same v s g a2 Hsz Hlen) as (b1 & b2 & s' & g' & E1 & E2 & HW).
  cbv beta zeta. rewrite E1, E2. cbn [done fst snd CRT.analog CRT.set_analog].
  destruct HW as (L1 & L2 & HW).
  repeat (split; [reflexivity || exact L1|]).
  intros n t Hn Ht.
  destruct (HW (n * 910 + t) ltac:(nia)) as [Hin Hout].
  pose proof (render_stored_assigned n t Hn Ht) as Hiff.
  destruct (ntsc_assigned n t).
  - apply Hin, Hiff. reflexivity.
  - apply Hout. intros H. apply Hiff in H. discriminate.
Qed.

Lemma crt_2ntsc_assigned_witness :
  let a2 := replicate (Z.to_nat 238420) 127 in
  let r1 := @crt_2ntsc ntsc_h (ntsc_ctx 0) white_2x2 ntsc_statics in
  let r2 := @crt_2ntsc ntsc_h (CRT.set_analog (ntsc_ctx 0) a2) white_2x2 ntsc_statics in
  let after (r : run (CRT.t * NTSC_SETTINGS.t * Statics.t)) :=
    CRT.analog (fst (fst (fst r))) in
  Z.of_nat (length (CRT.analog (ntsc_ctx 0))) = 238420
  /\ length a2 = length (CRT.analog (ntsc_ctx 0))
  /\ snd r1 = None /\ snd r2 = None
  /\ length (after r1) = length (CRT.analog (ntsc_ctx 0))
  /\ forall n t, 0 <= n < 262 -> 0 <= t < 910 ->
       if ntsc_assigned n t
       then after r1 !! Z.to_nat (n * 910 + t) = after r2 !! Z.to_nat (n * 910 + t)
       else after r1 !! Z.to_nat (n * 910 + t)
            = CRT.analog (ntsc_ctx 0) !! Z.to_nat (n * 910 + t)
            /\ after r2 !! Z.to_nat (n * 910 + t) = a2 !! Z.to_nat (n * 910 + t).
Proof.
  assert (H1 : Z.of_nat (length (CRT.analog (ntsc_ctx 0))) = 238420)
    by (vm_compute; reflexivity).
  assert (H2 : length (replicate (Z.to_nat 238420) 127) = length (CRT.analog (ntsc_ctx 0)))
    by (unfold ntsc_ctx; cbn [CRT.analog]; rewrite !length_replicate;
        change (@CRT_INPUT_SIZE ntsc_h) with 238420; reflexivity).
  split; [exact H1|]. split; [exact H2|].
  exact (crt_2ntsc_assigned (ntsc_ctx 0) white_2x2 ntsc_statics
           (replicate (Z.to_nat 238420) 127) H1 H2).
Defined.

(** C1 as the specification states it fails.  The first sample of the
    active video of line 21 lies above the destination rectangle and below
    the blanked lines: the call leaves it as it was, whatever it was. *)
Lemma crt_2ntsc_leaves_sample :
  let after x :=
    CRT.analog
      (fst (fst (fst (@crt_2ntsc ntsc_h (ntsc_ctx x) white_2x2 ntsc_statics)))) in
  after 0 !! Z.to_nat (21 * 910 + 156) = Some 0
  /\ after 127 !! Z.to_nat (21 * 910 + 156) = Some 127.
Proof.
  assert (H1 : Z.of_nat (length (CRT.analog (ntsc_ctx 0))) = 238420)
    by (vm_compute; reflexivity).
  assert (H2 : length (replicate (Z.to_nat 238420) 127) = length (CRT.analog (ntsc_ctx 0)))
    by (unfold ntsc_ctx; cbn [CRT.analog]; rewrite !length_replicate;
        change (@CRT_INPUT_SIZE ntsc_h) with 238420; reflexivity).
  destruct (crt_2ntsc_same (ntsc_ctx 0) white_2x2 ntsc_statics _ H1 H2)
    as (b1 & b2 & s' & g' & E1 & E2 & (_ & _ & HW)).
  change (CRT.set_analog (ntsc_ctx 0) (replicate (Z.to_nat 238420) 127))
    with (ntsc_ctx 127) in E2.
  cbv beta zeta. rewrite E1, E2. cbn [done fst snd CRT.analog CRT.set_analog].
  destruct (HW (21 * 910 + 156) ltac:(lia)) as [_ Hout].
  destruct Hout as [O1 O2].
  - intros H. apply (render_stored_assigned 21 156) in H; [discriminate|lia|lia].
  - rewrite O1, O2. unfold ntsc_ctx. cbn [CRT.analog].
    change (@CRT_INPUT_SIZE ntsc_h) with 238420.
    split; apply lookup_replicate_2; lia.
Qed.

End SyncLines.

(* ===================================================================== *)
(** * Further properties of the code *)

(** ** Checks over a range of integers *)

Section RangeChecks.

Lemma for_up_all (p : Z -> bool) n : forall i b,
  for_up n i (fun j b => b && p j) b = true ->
  b = true /\ forall j, i <= j < i + Z.of_nat n -> p j = true.
Proof.
  induction n as [|n IH]; intros i b H; cbn [for_up] in H.
  - split; [exact H|]. intros j Hj. lia.
  - apply IH in H. destruct H as [Hb Hall].
    apply andb_true_iff in Hb. destruct Hb as [Hb Hp].
    split; [exact Hb|]. intros j Hj.
    destruct (Z.eq_dec j i) as [->|Hne]; [exact Hp|]. apply Hall. lia.
Qed.

Lemma all_upto_spec (p : Z -> bool) n i :
  all_upto n i p = true -> forall j, i <= j < i + Z.of_nat n -> p j = true.
Proof. intros H. apply (for_up_all p n i true H). Qed.

Lemma all_upto_below (p : Z -> bool) (N : Z) :
  all_upto (Z.to_nat N) 0 p = true -> forall j, 0 <= j < N -> p j = true.
Proof. intros H j Hj. apply (all_upto_spec p _ 0 H). lia. Qed.

End RangeChecks.

(** ** [POSMOD] *)

Section Modulo.

Lemma POSMOD_mod (x n : Z) :
  0 < n <= 2 ^ 30 -> POSMOD x n = x mod n /\ 0 <= POSMOD x n < n.
Proof.
  intros Hn. unfold POSMOD, Int.rem, Int.add.
  pose proof (Z.rem_bound_abs x n ltac:(lia)) as Hb.
  pose proof (Z.quot_rem' x n) as Hq.
  rewrite sint_small by (unfold Int.in_range, Int.min_signed, Int.max_signed; lia).
  rewrite Z.rem_mod_nonneg by lia.
  assert (E : (Z.rem x n + n) mod n = x mod n).
  { replace (Z.rem x n + n) with (x + (1 - Z.quot x n) * n) by lia.
    apply Z.mod_add. lia. }
  rewrite E. split; [reflexivity|]. apply Z.mod_pos_bound. lia.
Qed.

(** [POSMOD(x, n)] is the mathematical residue of [x] modulo [n], in
    [[0, n)], for every [int] [x] of either sign and every positive [n] up
    to [2 ^ 30]. *)
Theorem POSMOD_is_mod (x n : Z) :
  0 < n <= 2 ^ 30 -> POSMOD x n = x mod n /\ 0 <= POSMOD x n < n.
Proof. exact (POSMOD_mod x n). Qed.

Lemma POSMOD_is_mod_witness :
  0 < 262 <= 2 ^ 30 /\ POSMOD (-8) 262 = (-8) mod 262 /\ 0 <= POSMOD (-8) 262 < 262.
Proof. split; [lia|]. apply (POSMOD_is_mod (-8) 262). lia. Defined.

End Modulo.

(** ** Sine and cosine *)

Section TrigFacts.

Lemma T14_MASK_ones : T14_MASK = Z.ones 14.
Proof. reflexivity. Qed.

Lemma land_mask_range n : 0 <= n ^& T14_MASK < 16384.
Proof.
  unfold Int.and. rewrite T14_MASK_ones, Z.land_ones by lia.
  apply Z.mod_pos_bound. lia.
Qed.

Lemma land_mask_idem n : (n ^& T14_MASK) ^& T14_MASK = n ^& T14_MASK.
Proof. unfold Int.and. rewrite <- Z.land_assoc, Z.land_diag. reflexivity. Qed.

Lemma sincos14_mask n : sincos14 n = sincos14 (n ^& T14_MASK).
Proof. unfold sincos14. rewrite land_mask_idem. reflexivity. Qed.

Lemma sincos14_mod n : sincos14 n = sincos14 (n mod 16384).
Proof.
  rewrite sincos14_mask. unfold Int.and. rewrite T14_MASK_ones, Z.land_ones by lia.
  reflexivity.
Qed.

(** The entries of the table. *)
Lemma sigpsin15_entry k :
  0 <= k < 18 ->
  aget sigpsin15 k = Ok (rd sigpsin15 k) /\ 0 <= rd sigpsin15 k <= 32768.
Proof.
  intros Hk.
  pose proof (all_upto_spec
    (fun k => match aget sigpsin15 k with
              | Ok x => (x =? rd sigpsin15 k) && (0 <=? x) && (x <=? 32768)
              | Fault _ => false
              end) 18 0 eq_refl k ltac:(lia)) as H.
  cbv beta in H. destruct (aget sigpsin15 k) as [x|]; [|discriminate].
  rewrite !andb_true_iff, Z.eqb_eq, !Z.leb_le in H.
  destruct H as [[-> H0] H1]. split; [reflexivity|lia].
Qed.

(** The index and the fraction [sintabil8] takes from an argument of at most
    a quarter turn. *)
Lemma sintabil8_index x :
  0 <= x <= 4096 ->
  0 <= (x ^>> 8) ^& 0xff <= 16 /\ 0 <= (x ^>> 0) ^& 0xff <= 255.
Proof.
  intros Hx. unfold Int.shr, Int.and.
  change 0xff with (Z.ones 8). rewrite !Z.land_ones, !Z.shiftr_div_pow2 by lia.
  change (2 ^ 0) with 1. change (2 ^ 8) with 256. rewrite Z.div_1_r.
  assert (0 <= x / 256 <= 16) by (split; [apply Z.div_pos; lia|apply Z.div_le_upper_bound; lia]).
  rewrite (Z.mod_small (x / 256)) by lia.
  pose proof (Z.mod_pos_bound x 256 ltac:(lia)).
  change (Z.ones 8) with 255. lia.
Qed.

Ltac small := unfold Int.in_range, Int.min_signed, Int.max_signed; lia.

Lemma shiftr8_bound y : - 2 ^ 23 <= y <= 2 ^ 23 -> - 2 ^ 15 <= Z.shiftr y 8 <= 2 ^ 15.
Proof.
  intros Hy. rewrite Z.shiftr_div_pow2 by lia. change (2 ^ 8) with 256.
  split; [apply Z.div_le_lower_bound; lia|apply Z.div_le_upper_bound; lia].
Qed.

Lemma sintabil8_quarter x :
  0 <= x <= 4096 ->
  sintabil8 x = sintabil8_z x /\ sintabil8_at x = Ok (sintabil8 x)
  /\ - 2 ^ 17 <= sintabil8_z x <= 2 ^ 17.
Proof.
  intros Hx. destruct (sintabil8_index x Hx) as [Hi Hf].
  unfold sintabil8_at, sintabil8, sintabil8_z. cbv zeta.
  change (Z.land (Z.shiftr x 8) 255) with ((x ^>> 8) ^& 0xff).
  change (Z.land x 255) with ((x ^>> 0) ^& 0xff).
  set (i := (x ^>> 8) ^& 0xff) in *. set (f := (x ^>> 0) ^& 0xff) in *.
  assert (Ei : i ^+ 1 = i + 1) by (unfold Int.add; apply sint_small; small).
  rewrite Ei.
  destruct (sigpsin15_entry i ltac:(lia)) as [Ea Ha].
  destruct (sigpsin15_entry (i + 1) ltac:(lia)) as [Eb Hb].
  rewrite Ea, Eb. cbn [res_bind].
  set (a := rd sigpsin15 i) in *. set (b := rd sigpsin15 (i + 1)) in *.
  assert (E1 : b ^- a = b - a) by (unfold Int.sub; apply sint_small; small).
  assert (E2 : (b - a) ^* f = (b - a) * f) by (unfold Int.mul; apply sint_small;
        unfold Int.in_range, Int.min_signed, Int.max_signed; nia).
  pose proof (shiftr8_bound ((b - a) * f) ltac:(nia)) as Hs.
  assert (E3 : a ^+ Z.shiftr ((b - a) * f) 8 = a + Z.shiftr ((b - a) * f) 8)
    by (unfold Int.add; apply sint_small; small).
  rewrite E1, E2. unfold Int.shr. rewrite E3.
  split; [reflexivity|]. split; [reflexivity|lia].
Qed.

Lemma sincos14_plain n : sincos14 n = sincos14_z n.
Proof.
  unfold sincos14, sincos14_z. cbv zeta.
  change (n ^& T14_MASK) with (Z.land n 16383).
  change ((T14_2PI ^>> 1) ^- 1) with 8191.
  change ((T14_2PI ^>> 2) ^- 1) with 4095.
  change (T14_2PI ^>> 1) with 8192. change (T14_2PI ^>> 2) with 4096.
  unfold Int.and.
  set (m := Z.land n 16383).
  assert (Hh : 0 <= Z.land m 8191 < 8192).
  { change 8191 with (Z.ones 13). rewrite Z.land_ones by lia.
    apply Z.mod_pos_bound. lia. }
  set (h := Z.land m 8191) in *.
  assert (Hneg : forall x, - 2 ^ 17 <= x <= 2 ^ 17 -> Int.neg x = - x)
    by (intros x Hx; unfold Int.neg; apply sint_small; small).
  destruct (Z.gtb_spec h 4095).
  - assert (E1 : 8192 ^- h = 8192 - h) by (unfold Int.sub; apply sint_small; small).
    assert (E2 : h ^- 4096 = h - 4096) by (unfold Int.sub; apply sint_small; small).
    rewrite E1, E2.
    destruct (sintabil8_quarter (8192 - h) ltac:(lia)) as (-> & _ & B1).
    destruct (sintabil8_quarter (h - 4096) ltac:(lia)) as (-> & _ & B2).
    rewrite (Hneg _ B2).
    destruct (m >? 8191); [|reflexivity].
    rewrite (Hneg _ B1), (Hneg (- _)) by lia. reflexivity.
  - assert (E1 : 4096 ^- h = 4096 - h) by (unfold Int.sub; apply sint_small; small).
    rewrite E1.
    destruct (sintabil8_quarter (4096 - h) ltac:(lia)) as (-> & _ & B1).
    destruct (sintabil8_quarter h ltac:(lia)) as (-> & _ & B2).
    destruct (m >? 8191); [|reflexivity].
    rewrite (Hneg _ B1), (Hneg _ B2). reflexivity.
Qed.

Lemma on_circle_all : all_upto (Z.to_nat 16384) 0 on_circle = true.
Proof. vm_cast_no_check (eq_refl true). Qed.

Lemma quarter_turn_all : all_upto (Z.to_nat 16384) 0 quarter_turn = true.
Proof. vm_cast_no_check (eq_refl true). Qed.

Lemma mirrored_all : all_upto (Z.to_nat 16384) 0 mirrored = true.
Proof. vm_cast_no_check (eq_refl true). Qed.

Lemma rising_all : all_upto (Z.to_nat 4096) 0 rising = true.
Proof. vm_cast_no_check (eq_refl true). Qed.

(** [sincos14] never reads outside [sigpsin15]: with the reads of the table
    checked against its 18 entries it gives, for every argument, the result
    of the unchecked function and no fault. *)
Theorem sincos14_reads_in_table (n : Z) : sincos14_at n = Ok (sincos14 n).
Proof.
  unfold sincos14_at, sincos14. cbv zeta.
  change (n ^& T14_MASK) with (Z.land n 16383).
  change ((T14_2PI ^>> 1) ^- 1) with 8191.
  change ((T14_2PI ^>> 2) ^- 1) with 4095.
  change (T14_2PI ^>> 1) with 8192. change (T14_2PI ^>> 2) with 4096.
  unfold Int.and.
  set (m := Z.land n 16383).
  assert (Hh : 0 <= Z.land m 8191 < 8192).
  { change 8191 with (Z.ones 13). rewrite Z.land_ones by lia.
    apply Z.mod_pos_bound. lia. }
  set (h := Z.land m 8191) in *.
  destruct (Z.gtb_spec h 4095).
  - assert (E1 : 8192 ^- h = 8192 - h) by (unfold Int.sub; apply sint_small; small).
    assert (E2 : h ^- 4096 = h - 4096) by (unfold Int.sub; apply sint_small; small).
    rewrite E1, E2.
    destruct (sintabil8_quarter (8192 - h) ltac:(lia)) as (_ & -> & _).
    destruct (sintabil8_quarter (h - 4096) ltac:(lia)) as (_ & -> & _).
    cbn [res_bind fst snd]. destruct (m >? 8191); reflexivity.
  - assert (E1 : 4096 ^- h = 4096 - h) by (unfold Int.sub; apply sint_small; small).
    rewrite E1.
    destruct (sintabil8_quarter (4096 - h) ltac:(lia)) as (_ & -> & _).
    destruct (sintabil8_quarter h ltac:(lia)) as (_ & -> & _).
    cbn [res_bind fst snd]. destruct (m >? 8191); reflexivity.
Qed.

Lemma sincos14_bounds (n : Z) :
  -32768 <= fst (sincos14 n) <= 32768 /\ -32768 <= snd (sincos14 n) <= 32768
  /\ 2 ^ 30 - 3090999
     <= fst (sincos14 n) * fst (sincos14 n) + snd (sincos14 n) * snd (sincos14 n)
     <= 2 ^ 30.
Proof.
  rewrite sincos14_mask, sincos14_plain.
  pose proof (land_mask_range n) as Hr.
  pose proof (all_upto_below _ _ on_circle_all (n ^& T14_MASK) ltac:(lia)) as H.
  unfold on_circle in H.
  destruct (sincos14_z (n ^& T14_MASK)) as [s c]. cbn [fst snd].
  rewrite !andb_true_iff, !Z.leb_le in H. lia.
Qed.

(** For every argument the sine and the cosine are within [[-32768, 32768]]
    (one in 15-bit fixed point), and the sum of their squares is at most
    [2 ^ 30] and less than 0.3 percent below it. *)
Theorem sincos14_on_circle (n : Z) :
  -32768 <= fst (sincos14 n) <= 32768 /\ -32768 <= snd (sincos14 n) <= 32768
  /\ 2 ^ 30 - 3090999
     <= fst (sincos14 n) * fst (sincos14 n) + snd (sincos14 n) * snd (sincos14 n)
     <= 2 ^ 30.
Proof. exact (sincos14_bounds n). Qed.

(** A quarter turn, [T14_2PI / 4], turns the sine into the cosine and the
    cosine into minus the sine, exactly and for every argument. *)
Theorem sincos14_quarter_turn (n : Z) :
  sincos14 (n + 4096) = (snd (sincos14 n), - fst (sincos14 n)).
Proof.
  rewrite (sincos14_mod (n + 4096)), (sincos14_mod n), !sincos14_plain.
  rewrite <- Zplus_mod_idemp_l.
  pose proof (Z.mod_pos_bound n 16384 ltac:(lia)) as Hr.
  pose proof (all_upto_below _ _ quarter_turn_all (n mod 16384) ltac:(lia)) as H.
  unfold quarter_turn in H.
  destruct (sincos14_z (n mod 16384)) as [s c].
  destruct (sincos14_z ((n mod 16384 + 4096) mod 16384)) as [s' c'].
  apply andb_true_iff in H. destruct H as [Hs Hc].
  apply Z.eqb_eq in Hs, Hc. subst. reflexivity.
Qed.

(** The sine is odd and the cosine even, exactly and for every argument. *)
Theorem sincos14_mirror (n : Z) :
  sincos14 (- n) = (- fst (sincos14 n), snd (sincos14 n)).
Proof.
  rewrite (sincos14_mod (- n)), (sincos14_mod n), !sincos14_plain.
  replace ((- n) mod 16384) with ((- (n mod 16384)) mod 16384)
    by (change (- (n mod 16384)) with (0 - n mod 16384);
        rewrite Zminus_mod_idemp_r; reflexivity).
  pose proof (Z.mod_pos_bound n 16384 ltac:(lia)) as Hr.
  pose proof (all_upto_below _ _ mirrored_all (n mod 16384) ltac:(lia)) as H.
  unfold mirrored in H.
  destruct (sincos14_z (n mod 16384)) as [s c].
  destruct (sincos14_z ((- (n mod 16384)) mod 16384)) as [s' c'].
  apply andb_true_iff in H. destruct H as [Hs Hc].
  apply Z.eqb_eq in Hs, Hc. subst. reflexivity.
Qed.

(** On the first quarter turn the sine is not negative and does not
    decrease. *)
Lemma sine_rising_step m :
  0 <= m < 4096 -> 0 <= fst (sincos14 m) <= fst (sincos14 (m + 1)).
Proof.
  intros Hm. rewrite !sincos14_plain.
  pose proof (all_upto_below _ _ rising_all m ltac:(lia)) as H.
  unfold rising in H. rewrite andb_true_iff, !Z.leb_le in H. exact H.
Qed.

Lemma sine_rising a b :
  0 <= a <= b -> b <= 4096 -> 0 <= fst (sincos14 a) <= fst (sincos14 b).
Proof.
  intros Ha Hb.
  assert (H : forall k : nat, a + Z.of_nat k <= 4096 ->
             0 <= fst (sincos14 a) <= fst (sincos14 (a + Z.of_nat k))).
  { induction k as [|k IH]; intros Hk.
    - rewrite Z.add_0_r.
      destruct (Z.eq_dec a 4096) as [->|Hne]; [vm_compute; split; discriminate|].
      pose proof (sine_rising_step a ltac:(lia)). lia.
    - specialize (IH ltac:(lia)).
      pose proof (sine_rising_step (a + Z.of_nat k) ltac:(lia)) as Hs.
      replace (a + Z.of_nat (S k)) with (a + Z.of_nat k + 1) by lia. lia. }
  specialize (H (Z.to_nat (b - a))). rewrite Z2Nat.id in H by lia.
  replace (a + (b - a)) with b in H by lia. apply H. lia.
Qed.

End TrigFacts.

(** ** Filters: further properties *)

Section FilterFacts.

Ltac small := unfold Int.in_range, Int.min_signed, Int.max_signed; lia.

(** The rounding term of a stage adds no bias at zero. *)
Lemma stage_term lf : 0 ^+ ((lf ^* (0 ^- 0) ^+ EQ_R) ^>> EQ_P) = 0.
Proof. change (0 ^- 0) with 0. rewrite mul_zero. reflexivity. Qed.

Lemma eqf_input_zero lf hf g h :
  eqf_input 0 (EQF.mk lf hf g [0; 0; 0; 0] [0; 0; 0; 0] h)
  = EQF.mk lf hf g [0; 0; 0; 0] [0; 0; 0; 0] h.
Proof.
  unfold eqf_input, EQF.set_fL, EQF.set_fH.
  cbn [EQF.lf EQF.hf EQF.g EQF.fL EQF.fH EQF.h].
  change (rd [0; 0; 0; 0] 0) with 0. rewrite !stage_term. reflexivity.
Qed.

Lemma eqf_stage_zero lf hf g h i :
  1 <= i <= 3 ->
  eqf_stage i (EQF.mk lf hf g [0; 0; 0; 0] [0; 0; 0; 0] h)
  = EQF.mk lf hf g [0; 0; 0; 0] [0; 0; 0; 0] h.
Proof.
  intros Hi. unfold eqf_stage, EQF.set_fL, EQF.set_fH.
  cbn [EQF.lf EQF.hf EQF.g EQF.fL EQF.fH EQF.h].
  assert (E : rd [0; 0; 0; 0] i = 0 /\ rd [0; 0; 0; 0] (i - 1) = 0
              /\ wr [0; 0; 0; 0] i 0 = [0; 0; 0; 0]).
  { assert (H : i = 1 \/ i = 2 \/ i = 3) by lia.
    destruct H as [->|[->| ->]]; repeat split; reflexivity. }
  destruct E as (E1 & E2 & E3).
  rewrite !E1, !E2, !stage_term, !E3. reflexivity.
Qed.

Lemma eqf_silent_step f : eqf (reset_eq f) 0 = (reset_eq f, 0).
Proof.
  unfold reset_eq. set (z := EQF.mk _ _ _ _ _ _).
  assert (Ec : eqf_cascade z 0 = z).
  { unfold eqf_cascade, z. rewrite eqf_input_zero. cbn [for_up].
    rewrite !eqf_stage_zero by lia. reflexivity. }
  unfold eqf. cbv zeta. rewrite Ec.
  assert (Hz : forall x, (0 ^* x) ^>> EQ_P = 0).
  { intros x. unfold Int.mul. rewrite Z.mul_0_l. reflexivity. }
  unfold eqf_gain, eqf_bands, z. cbn [for_up EQF.fL EQF.fH EQF.h EQF.g].
  change (rd [0; 0; 0; 0] 3) with 0. change (rd [0; 0; 0] HISTOLD) with 0.
  change (0 ^- 0) with 0.
  change (rd [0; 0; 0] 0) with 0. rewrite Hz.
  change (wr [0; 0; 0] 0 0) with [0; 0; 0].
  change (rd [0; 0; 0] (0 + 1)) with 0. rewrite Hz.
  change (wr [0; 0; 0] (0 + 1) 0) with [0; 0; 0].
  change (rd [0; 0; 0] (0 + 1 + 1)) with 0. rewrite Hz.
  reflexivity.
Qed.

(** A reset equalizer fed silence stays reset and gives silence, for every
    configuration (fractions and gains) and every number of samples: the
    rounding term of the stages adds no bias. *)
Theorem eqf_silence (f : EQF.t) (n : nat) :
  eqf_run (reset_eq f) (replicate n 0) = (reset_eq f, replicate n 0).
Proof.
  induction n as [|n IH]; [reflexivity|].
  cbn [replicate eqf_run]. rewrite eqf_silent_step, IH. reflexivity.
Qed.

(** The low pass filter does not overshoot: with a coefficient between 0
    and one ([EXP_ONE]) the new history, which is the output, lies between
    the old history and the sample, and the coefficient is kept. *)
Theorem iirf_between (f : IIRLP.t) (s : Z) :
  0 <= IIRLP.c f <= EXP_ONE ->
  - 2 ^ 18 <= s <= 2 ^ 18 -> - 2 ^ 18 <= IIRLP.h f <= 2 ^ 18 ->
  Z.min (IIRLP.h f) s <= snd (iirf f s) <= Z.max (IIRLP.h f) s
  /\ IIRLP.h (fst (iirf f s)) = snd (iirf f s)
  /\ IIRLP.c (fst (iirf f s)) = IIRLP.c f.
Proof.
  intros Hc Hs Hh. unfold iirf. cbn [fst snd IIRLP.h IIRLP.c].
  split; [|split; reflexivity].
  destruct f as [c h]. cbn [IIRLP.h IIRLP.c] in *.
  change EXP_ONE with 2048 in Hc.
  unfold EXP_MUL.
  assert (E1 : s ^- h = s - h) by (unfold Int.sub; apply sint_small; small).
  assert (E2 : (s - h) ^* c = (s - h) * c)
    by (unfold Int.mul; apply sint_small;
        unfold Int.in_range, Int.min_signed, Int.max_signed; nia).
  rewrite E1, E2. unfold Int.shr. change EXP_P with 11.
  rewrite Z.shiftr_div_pow2 by lia. change (2 ^ 11) with 2048.
  pose proof (Z.div_mod ((s - h) * c) 2048 ltac:(lia)) as Hd.
  pose proof (Z.mod_pos_bound ((s - h) * c) 2048 ltac:(lia)) as Hm.
  set (q := (s - h) * c / 2048) in *.
  assert (Hq : (0 <= s - h -> 0 <= q <= s - h) /\ (s - h <= 0 -> s - h <= q <= 0)) by nia.
  unfold Int.add. rewrite sint_small by small. lia.
Qed.

Lemma init_eq_ok (f_lo f_hi rate g_lo g_mid g_hi : Z) :
  0 < rate < 2 ^ 17 -> 0 <= f_lo <= f_hi -> 2 * f_hi <= rate ->
  exists lf hf,
    init_eq f_lo f_hi rate g_lo g_mid g_hi
    = Ok (EQF.mk lf hf [g_lo; g_mid; g_hi] [0; 0; 0; 0] [0; 0; 0; 0] [0; 0; 0])
    /\ 0 <= lf <= hf /\ hf <= 131072.
Proof.
  intros Hr Hf Hhalf. unfold init_eq.
  destruct (Z.eqb_spec rate 0); [lia|].
  assert (Harg : forall x, 0 <= x <= f_hi ->
            T14_PI ^* x ^/ rate = Z.quot (8192 * x) rate
            /\ 0 <= Z.quot (8192 * x) rate <= 4096).
  { intros x Hx. change T14_PI with 8192.
    assert (E : 8192 ^* x = 8192 * x)
      by (unfold Int.mul; apply sint_small;
          unfold Int.in_range, Int.min_signed, Int.max_signed; nia).
    rewrite E. rewrite Z.quot_div_nonneg by lia.
    assert (0 <= 8192 * x / rate <= 4096).
    { split; [apply Z.div_pos; lia|apply Z.div_le_upper_bound; lia]. }
    unfold Int.div. rewrite Z.quot_div_nonneg by lia.
    rewrite sint_small by small. lia. }
  destruct (Harg f_lo ltac:(lia)) as [-> Blo].
  destruct (Harg f_hi ltac:(lia)) as [-> Bhi].
  assert (Hmono : Z.quot (8192 * f_lo) rate <= Z.quot (8192 * f_hi) rate).
  { rewrite !Z.quot_div_nonneg by lia. apply Z.div_le_mono; lia. }
  pose proof (sine_rising _ _ (conj (proj1 Blo) Hmono) (proj2 Bhi)) as Hs.
  pose proof (sincos14_bounds (Z.quot (8192 * f_hi) rate)) as (Hhi & _).
  destruct (sincos14 (Z.quot (8192 * f_lo) rate)) as [sl cl].
  destruct (sincos14 (Z.quot (8192 * f_hi) rate)) as [sh ch].
  cbn [fst] in *.
  eexists _, _. split; [reflexivity|].
  change (EQ_P ^- 15) with 1.
  assert (Hshl : forall x, 0 <= x <= 32768 -> 2 ^* (x ^<< 1) = 4 * x).
  { intros x Hx. unfold Int.shl, Int.mul. rewrite Z.shiftl_mul_pow2 by lia.
    change (2 ^ 1) with 2. rewrite (sint_small (x * 2)) by small.
    rewrite sint_small by small. lia. }
  rewrite !Hshl by lia. lia.
Qed.

(** [init_eq] for cutoffs up to half the rate: no fault, the filter is in
    the reset state with the gains it was given, and the two fractions are
    in order, between 0 and two in 16-bit fixed point. *)
Theorem init_eq_fractions (f_lo f_hi rate g_lo g_mid g_hi : Z) :
  0 < rate < 2 ^ 17 -> 0 <= f_lo <= f_hi -> 2 * f_hi <= rate ->
  exists lf hf,
    init_eq f_lo f_hi rate g_lo g_mid g_hi
    = Ok (EQF.mk lf hf [g_lo; g_mid; g_hi] [0; 0; 0; 0] [0; 0; 0; 0] [0; 0; 0])
    /\ 0 <= lf <= hf /\ hf <= 131072.
Proof. exact (init_eq_ok f_lo f_hi rate g_lo g_mid g_hi). Qed.

End FilterFacts.

Lemma iirf_between_witness :
  0 <= IIRLP.c (IIRLP.mk 1233 0) <= EXP_ONE
  /\ - 2 ^ 18 <= 1020 <= 2 ^ 18 /\ - 2 ^ 18 <= IIRLP.h (IIRLP.mk 1233 0) <= 2 ^ 18
  /\ Z.min (IIRLP.h (IIRLP.mk 1233 0)) 1020 <= snd (iirf (IIRLP.mk 1233 0) 1020)
     <= Z.max (IIRLP.h (IIRLP.mk 1233 0)) 1020
  /\ IIRLP.h (fst (iirf (IIRLP.mk 1233 0) 1020)) = snd (iirf (IIRLP.mk 1233 0) 1020)
  /\ IIRLP.c (fst (iirf (IIRLP.mk 1233 0) 1020)) = IIRLP.c (IIRLP.mk 1233 0).
Proof.
  assert (H1 : 0 <= IIRLP.c (IIRLP.mk 1233 0) <= EXP_ONE) by (vm_compute; split; discriminate).
  assert (H2 : - 2 ^ 18 <= 1020 <= 2 ^ 18) by lia.
  assert (H3 : - 2 ^ 18 <= IIRLP.h (IIRLP.mk 1233 0) <= 2 ^ 18) by (simpl; lia).
  split; [exact H1|]. split; [exact H2|]. split; [exact H3|].
  exact (iirf_between (IIRLP.mk 1233 0) 1020 H1 H2 H3).
Defined.

Lemma init_eq_fractions_witness :
  0 < 910 < 2 ^ 17 /\ 0 <= 95 <= 190 /\ 2 * 190 <= 910
  /\ exists lf hf,
       init_eq 95 190 910 65536 8192 9175
       = Ok (EQF.mk lf hf [65536; 8192; 9175] [0; 0; 0; 0] [0; 0; 0; 0] [0; 0; 0])
       /\ 0 <= lf <= hf /\ hf <= 131072.
Proof.
  assert (H1 : 0 < 910 < 2 ^ 17) by lia.
  assert (H2 : 0 <= 95 <= 190) by lia.
  assert (H3 : 2 * 190 <= 910) by lia.
  split; [exact H1|]. split; [exact H2|]. split; [exact H3|].
  exact (init_eq_fractions 95 190 910 65536 8192 9175 H1 H2 H3).
Defined.

(** ** The exponential and the low pass coefficient *)

Section ExpFacts.

Ltac small := unfold Int.in_range, Int.min_signed, Int.max_signed; lia.

Lemma expx_series_plain k : forall n i nxt acc del,
  0 <= n <= 2047 -> 1 <= i -> i + Z.of_nat k <= 17 ->
  0 < del <= nxt -> nxt <= 2048 -> 0 <= acc <= 2048 * (i - 1) ->
  expx_series k n i nxt acc del = expx_series_z k n i nxt acc del
  /\ acc <= expx_series_z k n i nxt acc del <= 2048 * (i - 1 + Z.of_nat k)
  /\ (k <> O -> acc + Z.quot nxt del <= expx_series_z k n i nxt acc del).
Proof.
  induction k as [|k IH]; intros n i nxt acc del Hn Hi Hk Hdel Hnxt Hacc.
  - cbn [expx_series expx_series_z]. split; [reflexivity|]. split; [lia|congruence].
  - cbn [expx_series expx_series_z]. cbv zeta.
    assert (Hq : 1 <= Z.quot nxt del <= 2048).
    { rewrite Z.quot_div_nonneg by lia.
      split; [apply Z.div_le_lower_bound; lia|apply Z.div_le_upper_bound; nia]. }
    assert (E1 : nxt ^/ del = Z.quot nxt del)
      by (unfold Int.div; apply sint_small; small).
    assert (E2 : acc ^+ Z.quot nxt del = acc + Z.quot nxt del)
      by (unfold Int.add; apply sint_small; small).
    assert (Hm : 0 <= Z.shiftr (nxt * n) 11 <= 2047).
    { rewrite Z.shiftr_div_pow2 by lia. change (2 ^ 11) with 2048.
      split; [apply Z.div_pos; nia|].
      apply Z.div_le_upper_bound; [lia|nia]. }
    assert (E3 : EXP_MUL nxt n = Z.shiftr (nxt * n) 11).
    { unfold EXP_MUL, Int.shr, Int.mul. rewrite sint_small; [reflexivity|].
      unfold Int.in_range, Int.min_signed, Int.max_signed. nia. }
    assert (E4 : del ^* i = del * i).
    { unfold Int.mul. apply sint_small.
      unfold Int.in_range, Int.min_signed, Int.max_signed. nia. }
    rewrite E1, E2, E3, E4.
    destruct ((del * i >? Z.shiftr (nxt * n) 11) || (Z.shiftr (nxt * n) 11 <=? 0)
              || (del * i <=? 0)) eqn:Ec.
    + split; [reflexivity|]. split; [lia|]. intros _. lia.
    + rewrite !orb_false_iff in Ec. destruct Ec as [[C1 C2] C3].
      assert (D1 : del * i <= Z.shiftr (nxt * n) 11)
        by (destruct (Z.gtb_spec (del * i) (Z.shiftr (nxt * n) 11)); [discriminate|lia]).
      apply Z.leb_gt in C2, C3.
      destruct (IH n (i + 1) (Z.shiftr (nxt * n) 11) (acc + Z.quot nxt del) (del * i))
        as (F1 & F2 & _); lia.
Qed.

(** [expx] at minus [a], for [a] from 1 to [EXP_PI]. *)
Lemma expx_neg_plain a :
  0 < a <= 6434 -> expx (- a) = Ok (expx_neg_z a).
Proof.
  intros Ha. unfold expx.
  destruct (Z.eqb_spec (- a) 0); [lia|].
  destruct (Z.ltb_spec (- a) 0); [|lia].
  assert (En : Int.neg (- a) = a) by (unfold Int.neg; rewrite Z.opp_involutive; apply sint_small; small).
  rewrite En. cbv zeta.
  assert (Hidx : 0 <= Z.shiftr a 11 <= 3).
  { rewrite Z.shiftr_div_pow2 by lia. change (2 ^ 11) with 2048.
    split; [apply Z.div_pos; lia|].
    assert (a / 2048 < 4) by (apply Z.div_lt_upper_bound; lia). lia. }
  change (a ^>> EXP_P) with (Z.shiftr a 11).
  set (idx := Z.shiftr a 11) in *.
  assert (E4 : idx ^/ 4 = 0).
  { unfold Int.div. rewrite Z.quot_small by lia. reflexivity. }
  rewrite E4. change (Z.to_nat 0) with O. cbn [for_up].
  assert (E3 : idx ^& 3 = idx).
  { unfold Int.and. change 3 with (Z.ones 2). rewrite Z.land_ones by lia.
    apply Z.mod_small. change (2 ^ 2) with 4. lia. }
  rewrite E3.
  assert (Hres : exists res,
            (if idx >? 0 then EXP_MUL EXP_ONE (rd e11 idx) else EXP_ONE) = res
            /\ (if idx >? 0 then rd e11 idx else 2048) = res
            /\ 2048 <= res <= 41135).
  { assert (Hc : idx = 0 \/ idx = 1 \/ idx = 2 \/ idx = 3) by lia.
    destruct Hc as [->|[->|[->| ->]]];
      [exists 2048|exists 5567|exists 15133|exists 41135];
      (split; [reflexivity|]); (split; [reflexivity|]); lia. }
  destruct Hres as (res & Er1 & Er2 & Hres).
  rewrite Er1.
  assert (Hmask : 0 <= Z.land a 2047 <= 2047).
  { change 2047 with (Z.ones 11). rewrite Z.land_ones by lia.
    pose proof (Z.mod_pos_bound a (2 ^ 11) ltac:(lia)).
    change (Z.ones 11) with (2 ^ 11 - 1). lia. }
  change (a ^& EXP_MASK) with (Z.land a 2047).
  destruct (expx_series_plain 16 (Z.land a 2047) 1 2048 0 1) as (Es & Hs & Hlow);
    try lia.
  specialize (Hlow ltac:(discriminate)). change (Z.quot 2048 1) with 2048 in Hlow.
  change EXP_ONE with 2048. rewrite Es.
  set (acc := expx_series_z 16 (Z.land a 2047) 1 2048 0 1) in *.
  assert (Em : EXP_MUL res acc = Z.shiftr (res * acc) 11).
  { unfold EXP_MUL, Int.shr, Int.mul. rewrite sint_small; [reflexivity|].
    unfold Int.in_range, Int.min_signed, Int.max_signed. nia. }
  rewrite Em.
  assert (Hr2 : 2048 <= Z.shiftr (res * acc) 11 <= 2 ^ 30).
  { rewrite Z.shiftr_div_pow2 by lia. change (2 ^ 11) with 2048.
    split; [apply Z.div_le_lower_bound; nia|apply Z.div_le_upper_bound; nia]. }
  destruct (Z.eqb_spec (Z.shiftr (res * acc) 11) 0); [lia|].
  f_equal. unfold expx_neg_z. cbv zeta. fold idx. rewrite Er2. fold acc.
  unfold EXP_DIV, Int.div, Int.shl. change (Int.sint (Z.shiftl 2048 11)) with 4194304.
  apply sint_small.
  assert (0 <= Z.quot 4194304 (Z.shiftr (res * acc) 11) <= 2048).
  { rewrite Z.quot_div_nonneg by lia.
    split; [apply Z.div_pos; lia|apply Z.div_le_upper_bound; lia]. }
  small.
Qed.

Lemma decaying_all : all_upto (Z.to_nat 6434) 0 decaying = true.
Proof. vm_cast_no_check (eq_refl true). Qed.

Lemma expx_neg_z_step a :
  0 <= a < 6434 -> 0 < expx_neg_z (a + 1) <= expx_neg_z a /\ expx_neg_z a <= 2048.
Proof.
  intros Ha. pose proof (all_upto_below _ _ decaying_all a ltac:(lia)) as H.
  unfold decaying in H. rewrite !andb_true_iff, Z.ltb_lt, !Z.leb_le in H. lia.
Qed.

Lemma expx_neg_z_mono a b :
  0 <= a <= b -> b <= 6434 -> 0 < expx_neg_z b <= expx_neg_z a /\ expx_neg_z a <= 2048.
Proof.
  intros Ha Hb.
  assert (H : forall k : nat, a + Z.of_nat k <= 6434 ->
             0 < expx_neg_z (a + Z.of_nat k) <= expx_neg_z a /\ expx_neg_z a <= 2048).
  { induction k as [|k IH]; intros Hk.
    - rewrite Z.add_0_r.
      destruct (Z.eq_dec a 6434) as [->|Hne]; [vm_compute; repeat split; discriminate|].
      pose proof (expx_neg_z_step a ltac:(lia)). lia.
    - specialize (IH ltac:(lia)).
      pose proof (expx_neg_z_step (a + Z.of_nat k) ltac:(lia)) as Hs.
      replace (a + Z.of_nat (S k)) with (a + Z.of_nat k + 1) by lia. lia. }
  specialize (H (Z.to_nat (b - a))). rewrite Z2Nat.id in H by lia.
  replace (a + (b - a)) with b in H by lia. apply H. lia.
Qed.

Lemma expx_neg_value a : 0 <= a <= 6434 -> expx (- a) = Ok (expx_neg_z a).
Proof.
  intros Ha. destruct (Z.eq_dec a 0) as [->|Hne]; [reflexivity|].
  apply expx_neg_plain. lia.
Qed.

(** The exponential of minus [a] for [a] from 0 to pi ([EXP_PI] in 11-bit
    fixed point): [expx] divides by nothing that is zero, its result is
    positive and at most one ([EXP_ONE]), and it does not increase with
    [a]. *)
Theorem expx_decay (a b : Z) :
  0 <= a <= b -> b <= EXP_PI ->
  exists ra rb,
    expx (- a) = Ok ra /\ expx (- b) = Ok rb /\ 0 < rb <= ra /\ ra <= EXP_ONE.
Proof.
  change EXP_PI with 6434. change EXP_ONE with 2048. intros Ha Hb.
  exists (expx_neg_z a), (expx_neg_z b).
  rewrite !expx_neg_value by lia.
  pose proof (expx_neg_z_mono a b Ha Hb). repeat split; lia.
Qed.

(** The argument [init_iir] passes to [expx] for a limit of at most the
    total bandwidth. *)
Lemma init_iir_arg freq limit :
  0 < limit <= freq -> freq < 2 ^ 22 ->
  (freq ^<< 9) ^/ limit = freq * 512 / limit
  /\ 512 <= freq * 512 / limit
  /\ Int.neg ((EXP_PI ^<< 9) ^/ (freq * 512 / limit)) = - (3294208 / (freq * 512 / limit))
  /\ 0 <= 3294208 / (freq * 512 / limit) <= 6434.
Proof.
  intros Hl Hf.
  assert (E1 : freq ^<< 9 = freq * 512).
  { unfold Int.shl. rewrite Z.shiftl_mul_pow2 by lia. change (2 ^ 9) with 512.
    apply sint_small. small. }
  assert (Hr : 512 <= freq * 512 / limit <= freq * 512).
  { split; [apply Z.div_le_lower_bound; lia|apply Z.div_le_upper_bound; nia]. }
  assert (E2 : (freq * 512) ^/ limit = freq * 512 / limit).
  { unfold Int.div. rewrite Z.quot_div_nonneg by lia. apply sint_small. small. }
  rewrite E1, E2. split; [reflexivity|]. split; [lia|].
  set (rate := freq * 512 / limit) in *.
  assert (Ha : 0 <= 3294208 / rate <= 6434).
  { split; [apply Z.div_pos; lia|apply Z.div_le_upper_bound; lia]. }
  split; [|exact Ha].
  change (EXP_PI ^<< 9) with 3294208.
  unfold Int.div, Int.neg. rewrite Z.quot_div_nonneg by lia.
  rewrite (sint_small (3294208 / rate)) by small. apply sint_small. small.
Qed.

(** [init_iir] for a limit of at most the total bandwidth: no fault, the
    history is zero, the coefficient is in [[0, EXP_ONE)], so that [iirf]
    does not overshoot, and a higher limit never gives a smaller
    coefficient. *)
Theorem init_iir_coefficient (freq limit limit' : Z) :
  0 < limit <= limit' -> limit' <= freq -> freq < 2 ^ 22 ->
  exists c c',
    init_iir freq limit = Ok (IIRLP.mk c 0)
    /\ init_iir freq limit' = Ok (IIRLP.mk c' 0)
    /\ 0 <= c <= c' /\ c' < EXP_ONE.
Proof.
  intros Hl Hl' Hf. unfold init_iir.
  destruct (Z.eqb_spec limit 0); [lia|]. destruct (Z.eqb_spec limit' 0); [lia|].
  destruct (init_iir_arg freq limit ltac:(lia) Hf) as (Er & Hr & Ea & Ha).
  destruct (init_iir_arg freq limit' ltac:(lia) Hf) as (Er' & Hr' & Ea' & Ha').
  cbv zeta. rewrite Er, Er'.
  destruct (Z.eqb_spec (freq * 512 / limit) 0); [lia|].
  destruct (Z.eqb_spec (freq * 512 / limit') 0); [lia|].
  rewrite Ea, Ea'.
  assert (Hrate : freq * 512 / limit' <= freq * 512 / limit)
    by (apply Z.div_le_compat_l; lia).
  assert (Harg : 3294208 / (freq * 512 / limit) <= 3294208 / (freq * 512 / limit'))
    by (apply Z.div_le_compat_l; lia).
  rewrite !expx_neg_value by lia. cbn [res_bind].
  pose proof (expx_neg_z_mono _ _ (conj (proj1 Ha) Harg) (proj2 Ha')) as Hm.
  pose proof (expx_neg_z_mono _ _ (conj (proj1 Ha') (Z.le_refl _)) (proj2 Ha')) as Hm'.
  change EXP_ONE with 2048.
  eexists _, _. split; [reflexivity|]. split; [reflexivity|].
  unfold Int.sub. rewrite !sint_small by small. lia.
Qed.

End ExpFacts.

Lemma expx_decay_witness :
  0 <= 1024 <= 2048 /\ 2048 <= EXP_PI
  /\ exists ra rb,
       expx (- 1024) = Ok ra /\ expx (- 2048) = Ok rb /\ 0 < rb <= ra /\ ra <= EXP_ONE.
Proof.
  assert (H1 : 0 <= 1024 <= 2048) by lia.
  assert (H2 : 2048 <= EXP_PI) by (vm_compute; discriminate).
  split; [exact H1|]. split; [exact H2|]. exact (expx_decay 1024 2048 H1 H2).
Defined.

Lemma init_iir_coefficient_witness :
  0 < I_FREQ <= Y_FREQ /\ Y_FREQ <= L_FREQ /\ L_FREQ < 2 ^ 22
  /\ exists c c',
       init_iir L_FREQ I_FREQ = Ok (IIRLP.mk c 0)
       /\ init_iir L_FREQ Y_FREQ = Ok (IIRLP.mk c' 0)
       /\ 0 <= c <= c' /\ c' < EXP_ONE.
Proof.
  assert (H1 : 0 < I_FREQ <= Y_FREQ) by (vm_compute; split; [reflexivity|discriminate]).
  assert (H2 : Y_FREQ <= L_FREQ) by (vm_compute; discriminate).
  assert (H3 : L_FREQ < 2 ^ 22) by (vm_compute; reflexivity).
  split; [exact H1|]. split; [exact H2|]. split; [exact H3|].
  exact (init_iir_coefficient L_FREQ I_FREQ Y_FREQ H1 H2 H3).
Defined.


(** ** Encoder: colour conversion and signal levels *)

Section EncoderFacts.
Context {hdr : crt_h}.

Ltac small := unfold Int.in_range, Int.min_signed, Int.max_signed; lia.

(** Removes the wrap-around of the operations whose result is seen to fit an
    [int], innermost first. *)
Ltac unwrap :=
  repeat match goal with
         | |- context [Int.sint ?x] => rewrite (sint_small x) by small
         end.

Lemma rgb2yiq_channels pA pB :
  rgb2yiq pA pB
  = ((19595 * red pA + 38470 * green pA + 7471 * blue pA
      + 19595 * red pB + 38470 * green pB + 7471 * blue pB) / 32768,
     (39059 * red pA - 18022 * green pA - 21103 * blue pA
      + 39059 * red pB - 18022 * green pB - 21103 * blue pB) / 32768,
     (13894 * red pA - 34275 * green pA + 20382 * blue pA
      + 13894 * red pB - 34275 * green pB + 20382 * blue pB) / 32768).
Proof.
  unfold rgb2yiq. cbv zeta.
  change ((pA ^>> 16) ^& 255) with (red pA). change ((pA ^>> 8) ^& 255) with (green pA).
  change ((pA ^>> 0) ^& 255) with (blue pA).
  change ((pB ^>> 16) ^& 255) with (red pB). change ((pB ^>> 8) ^& 255) with (green pB).
  change ((pB ^>> 0) ^& 255) with (blue pB).
  pose proof (red_range pA). pose proof (green_range pA). pose proof (blue_range pA).
  pose proof (red_range pB). pose proof (green_range pB). pose proof (blue_range pB).
  generalize dependent (red pA). generalize dependent (green pA).
  generalize dependent (blue pA). generalize dependent (red pB).
  generalize dependent (green pB). generalize dependent (blue pB).
  intros bB HbB gB HgB rB HrB bA HbA gA HgA rA HrA.
  unfold Int.add, Int.sub, Int.mul, Int.shr. unwrap.
  rewrite !Z.shiftr_div_pow2 by lia. reflexivity.
Qed.

(** The conversion of two source pixels to YIQ is bounded for every pair of
    pixel words: luma in [[0, 1020]] (four times a byte), I in
    [[-609, 607]], Q in [[-534, 533]]. *)
Theorem rgb2yiq_range (pA pB : Z) :
  let '(fy, fi, fq) := rgb2yiq pA pB in
  0 <= fy <= 1020 /\ -609 <= fi <= 607 /\ -534 <= fq <= 533.
Proof.
  rewrite rgb2yiq_channels.
  pose proof (red_range pA). pose proof (green_range pA). pose proof (blue_range pA).
  pose proof (red_range pB). pose proof (green_range pB). pose proof (blue_range pB).
  repeat split.
  - apply Z.div_pos; lia.
  - apply Z.div_le_upper_bound; lia.
  - apply Z.div_le_lower_bound; lia.
  - match goal with |- ?a / ?b <= _ => assert (a / b < 608) by (apply Z.div_lt_upper_bound; lia) end.
    lia.
  - apply Z.div_le_lower_bound; lia.
  - match goal with |- ?a / ?b <= _ => assert (a / b < 534) by (apply Z.div_lt_upper_bound; lia) end.
    lia.
Qed.

(** Two gray source pixels of level [v] give a luma of exactly [4 * v], no Q
    at all, and an I of at most two units below zero. *)
Theorem rgb2yiq_gray (pA pB v : Z) :
  red pA = v -> green pA = v -> blue pA = v ->
  red pB = v -> green pB = v -> blue pB = v ->
  let '(fy, fi, fq) := rgb2yiq pA pB in
  fy = 4 * v /\ -2 <= fi <= 0 /\ fq = 0.
Proof.
  intros RA GA BA RB GB BB. rewrite rgb2yiq_channels.
  pose proof (red_range pA) as Hv. rewrite RA, GA, BA, RB, GB, BB. rewrite RA in Hv.
  repeat split.
  - replace (19595 * v + 38470 * v + 7471 * v + 19595 * v + 38470 * v + 7471 * v)
      with (4 * v * 32768) by lia.
    apply Z.div_mul. lia.
  - apply Z.div_le_lower_bound; lia.
  - match goal with |- ?a / ?b <= _ => assert (a / b < 1) by (apply Z.div_lt_upper_bound; lia) end.
    lia.
  - replace (13894 * v - 34275 * v + 20382 * v + 13894 * v - 34275 * v + 20382 * v)
      with (2 * v) by lia.
    apply Z.div_small. lia.
Qed.

(** *** Levels *)

Lemma clamp_ire_range x : 0 <= clamp_ire x <= 110.
Proof.
  unfold clamp_ire. destruct (Z.ltb_spec x 0).
  - destruct (Z.gtb_spec 0 110); lia.
  - destruct (Z.gtb_spec x 110); lia.
Qed.

Lemma and_then_keeps {W : Type} (Q : W -> Prop) (r : run W) (k : W -> run W) :
  Q (fst r) -> (forall w, Q w -> Q (fst (k w))) -> Q (fst (r ;> k)).
Proof.
  intros Hr Hk. destruct r as [w [f|]]; cbn [and_then fst] in *; [exact Hr|].
  apply Hk. exact Hr.
Qed.

Lemma burst_level t : ire_ok (BLANK_LEVEL ^+ (rd cc ((t ^+ 0) ^& 3) ^* BURST_LEVEL)).
Proof.
  pose proof (land3_range (t ^+ 0)) as H.
  assert (Hc : (t ^+ 0) ^& 3 = 0 \/ (t ^+ 0) ^& 3 = 1 \/ (t ^+ 0) ^& 3 = 2
               \/ (t ^+ 0) ^& 3 = 3) by lia.
  destruct Hc as [->|[->|[->| ->]]]; vm_compute; split; discriminate.
Qed.

Lemma sync_level_ok : ire_ok SYNC_LEVEL.
Proof. vm_compute. split; discriminate. Qed.

Lemma blank_level_ok : ire_ok BLANK_LEVEL.
Proof. vm_compute. split; discriminate. Qed.

Lemma composite_level v x y fy fi fq : ire_ok (composite v x y fy fi fq).
Proof.
  unfold composite. cbv zeta.
  match goal with |- ire_ok (clamp_ire ?e) => pose proof (clamp_ire_range e) as Hc end.
  unfold ire_ok. change SYNC_LEVEL with (-40). lia.
Qed.

End EncoderFacts.

(** *** A property of the signal that every store of a level keeps *)

Section StoreInvariant.
Context {hdr : crt_h}.
Variable P : list Z -> Prop.
Hypothesis P_store : forall (a a' : list Z) i x,
  aset a i x = Ok a' -> ire_ok x -> P a -> P a'.

Lemma fill_loop_keeps base x k : forall a t,
  ire_ok x -> P a -> P (fst (fst (fill_loop k base x a t))).
Proof.
  induction k as [|k IH]; intros a t Hx Ha; cbn [fill_loop]; [exact Ha|].
  destruct (aset a (base + t) x) as [a'|f] eqn:E; [|exact Ha].
  apply IH; [exact Hx|]. exact (P_store _ _ _ _ E Hx Ha).
Qed.

Lemma fill_keeps base lim x w :
  ire_ok x -> P (fst w) -> P (fst (fst (fill base lim x w))).
Proof. intros Hx Hw. unfold fill. apply fill_loop_keeps; assumption. Qed.

Lemma burst_line_keeps base w : P (fst w) -> P (fst (fst (burst_line base w))).
Proof.
  intros Hw. unfold burst_line.
  apply (for_run_invariant (fun w : list Z * Z => P (fst w))); [|exact Hw].
  intros t w0 Hw0.
  destruct (aset (fst w0) (base + t) _) as [a'|f] eqn:E; cbn [fst done stop]; [|exact Hw0].
  exact (P_store _ _ _ _ E (burst_level t) Hw0).
Qed.

Lemma sync_line_keeps field as_color n a :
  P a -> P (fst (sync_line field as_color n a)).
Proof.
  intros Ha. unfold sync_line. cbv zeta. cbn [fst].
  pose proof sync_level_ok as HS. pose proof blank_level_ok as HB.
  set (Q := fun w : list Z * Z => P (fst w)).
  assert (H0 : Q (a, LINE_BEG)) by exact Ha.
  assert (Hfill : forall base lim x w, ire_ok x -> Q w -> Q (fst (fill base lim x w)))
    by (intros; apply fill_keeps; assumption).
  destruct ((n <=? 3) || ((n >=? 7) && (n <=? 9))).
  - repeat (apply (and_then_keeps Q); [|intros w Hw; apply Hfill; assumption]).
    apply Hfill; assumption.
  - destruct ((n >=? 4) && (n <=? 6)).
    + repeat (apply (and_then_keeps Q); [|intros w Hw; apply Hfill; assumption]).
      apply Hfill; assumption.
    + apply (and_then_keeps Q).
      * apply (and_then_keeps Q).
        -- repeat (apply (and_then_keeps Q); [|intros w Hw; apply Hfill; assumption]).
           apply Hfill; assumption.
        -- intros w Hw. destruct (n <? CRT_TOP); [apply Hfill; assumption|exact Hw].
      * intros w Hw. destruct (as_color =? 0); [exact Hw|].
        apply burst_line_keeps. exact Hw.
Qed.

Lemma encode_pixel_keeps v s y syA syB x e :
  P (Enc.analog e) -> P (Enc.analog (fst (encode_pixel v s y syA syB x e))).
Proof.
  intros He. unfold encode_pixel.
  destruct (rgb2yiq _ _) as [[fy fi] fq].
  destruct (iirf (Enc.iirY e) fy) as [iy fy'].
  destruct (iirf (Enc.iirI e) fi) as [ii fi'].
  destruct (iirf (Enc.iirQ e) fq) as [iq fq'].
  destruct (aset (Enc.analog e) _ _) as [a'|f] eqn:E; cbn [fst done stop Enc.analog];
    [|exact He].
  exact (P_store _ _ _ _ E (composite_level _ _ _ _ _ _) He).
Qed.

Lemma encode_row_keeps v s y e :
  P (Enc.analog e) -> P (Enc.analog (fst (encode_row v s y e))).
Proof.
  intros He. unfold encode_row. cbv zeta.
  apply (for_run_invariant (fun e : Enc.t => P (Enc.analog e))); [|exact He].
  intros x e0 He0. apply encode_pixel_keeps. exact He0.
Qed.

Lemma crt_2ntsc_keeps v s g :
  P (CRT.analog v) -> P (CRT.analog (fst (fst (fst (crt_2ntsc v s g))))).
Proof.
  intros Hv. unfold crt_2ntsc. cbv zeta.
  match goal with
  | |- context [for_run ?n0 ?i0 ?body (CRT.analog v)] =>
      pose proof (for_run_invariant P body
                    (fun n a Ha => sync_line_keeps _ _ n a Ha) n0 i0 _ Hv) as H1;
      destruct (for_run n0 i0 body (CRT.analog v)) as [a [f|]]
  end; cbn [fst] in H1; [exact H1|].
  match goal with
  | |- context [for_run ?n0 ?i0 ?body ?w0] =>
      pose proof (for_run_invariant (fun e : Enc.t => P (Enc.analog e)) body
                    (fun y e He => encode_row_keeps _ _ y e He) n0 i0 w0 H1) as H2;
      destruct (for_run n0 i0 body w0) as [e flt]
  end.
  exact H2.
Qed.

End StoreInvariant.

Section EncoderLevels.
Context {hdr : crt_h}.

Lemma aset_levels (a a' : list Z) i x :
  aset a i x = Ok a' -> ire_ok x -> Forall ire_ok a -> Forall ire_ok a'.
Proof.
  intros E Hx Ha. apply aset_Ok_inv in E. destruct E as [_ ->].
  apply Forall_insert; [exact Ha|].
  unfold ire_ok in *. change SYNC_LEVEL with (-40) in *.
  rewrite schar_small by lia. exact Hx.
Qed.

Lemma aset_length (n : nat) (a a' : list Z) i x :
  aset a i x = Ok a' -> ire_ok x -> length a = n -> length a' = n.
Proof.
  intros E _ Ha. apply aset_Ok_inv in E. destruct E as [_ ->].
  rewrite length_insert. exact Ha.
Qed.

Lemma crt_2ntsc_in_levels (v : CRT.t) (s : NTSC_SETTINGS.t) (g : Statics.t) :
  Forall ire_ok (CRT.analog v) ->
  Forall ire_ok (CRT.analog (fst (fst (fst (crt_2ntsc v s g))))).
Proof. apply (crt_2ntsc_keeps (Forall ire_ok) aset_levels). Qed.

(** The encoder keeps the signal within its levels: if every sample of the
    signal buffer is between the sync tip, -40, and 110 before the call,
    every sample is after it, whatever the image, the settings and the
    calibration, for every geometry, and also when the call stops at a
    fault.  No sample it stores wraps in the [signed char]. *)
Theorem crt_2ntsc_levels (v : CRT.t) (s : NTSC_SETTINGS.t) (g : Statics.t) :
  Forall ire_ok (CRT.analog v) ->
  Forall ire_ok (CRT.analog (fst (fst (fst (crt_2ntsc v s g))))).
Proof. exact (crt_2ntsc_in_levels v s g). Qed.

Lemma crt_2ntsc_length v s g :
  length (CRT.analog (fst (fst (fst (crt_2ntsc v s g))))) = length (CRT.analog v).
Proof.
  apply (crt_2ntsc_keeps (fun a => length a = length (CRT.analog v))
           (aset_length (length (CRT.analog v)))).
  reflexivity.
Qed.

End EncoderLevels.

Lemma rgb2yiq_gray_witness :
  red 0x808080 = 128 /\ green 0x808080 = 128 /\ blue 0x808080 = 128
  /\ let '(fy, fi, fq) := rgb2yiq 0x808080 0x808080 in
     fy = 4 * 128 /\ -2 <= fi <= 0 /\ fq = 0.
Proof.
  assert (R : red 0x808080 = 128) by reflexivity.
  assert (G : green 0x808080 = 128) by reflexivity.
  assert (B : blue 0x808080 = 128) by reflexivity.
  split; [exact R|]. split; [exact G|]. split; [exact B|].
  exact (rgb2yiq_gray 0x808080 0x808080 128 R G B R G B).
Defined.

Lemma crt_2ntsc_levels_witness :
  Forall ire_ok (CRT.analog (ntsc_ctx 0))
  /\ Forall ire_ok
       (CRT.analog (fst (fst (fst (@crt_2ntsc ntsc_h (ntsc_ctx 0) white_2x2 ntsc_statics))))).
Proof.
  assert (H : Forall ire_ok (CRT.analog (ntsc_ctx 0))).
  { unfold ntsc_ctx. cbn [CRT.analog]. apply Forall_replicate.
    vm_compute. split; discriminate. }
  split; [exact H|].
  exact (@crt_2ntsc_levels ntsc_h (ntsc_ctx 0) white_2x2 ntsc_statics H).
Defined.

(** ** Encoder: what a call changes, and encoding twice *)

Section EncoderFrame.
Context {hdr : crt_h}.

Lemma crt_2ntsc_changes (v : CRT.t) (s : NTSC_SETTINGS.t) (g : Statics.t) :
  let r := fst (crt_2ntsc v s g) in
  fst (fst r) = CRT.set_analog v (CRT.analog (fst (fst r)))
  /\ length (CRT.analog (fst (fst r))) = length (CRT.analog v)
  /\ snd (fst r) = NTSC_SETTINGS.set_field s (NTSC_SETTINGS.field s ^& 1)
  /\ snd r = Statics.set_iir g (Statics.iirY (snd r)) (Statics.iirI (snd r))
               (Statics.iirQ (snd r))
  /\ IIRLP.c (Statics.iirY (snd r)) = IIRLP.c (Statics.iirY g)
  /\ IIRLP.c (Statics.iirI (snd r)) = IIRLP.c (Statics.iirI g)
  /\ IIRLP.c (Statics.iirQ (snd r)) = IIRLP.c (Statics.iirQ g).
Proof.
  cbv zeta.
  pose proof (crt_2ntsc_config v s g) as (_ & _ & _ & CY & CI & CQ).
  assert (Hc : forall f1 f2, reset_iir f1 = reset_iir f2 -> IIRLP.c f2 = IIRLP.c f1).
  { intros f1 f2 E. unfold reset_iir in E. injection E. auto. }
  apply Hc in CY, CI, CQ.
  pose proof (crt_2ntsc_length v s g) as Hlen.
  split; [|split; [exact Hlen|]].
  - unfold crt_2ntsc. cbv zeta.
    destruct (for_run (Z.to_nat CRT_VRES) 0 _ (CRT.analog v)) as [a [f|]]; [reflexivity|].
    destruct (for_run (Z.to_nat desth) 0 _ _) as [e flt]. reflexivity.
  - split; [|split; [|auto]].
    + unfold crt_2ntsc. cbv zeta.
      destruct (for_run (Z.to_nat CRT_VRES) 0 _ (CRT.analog v)) as [a [f|]]; [reflexivity|].
      destruct (for_run (Z.to_nat desth) 0 _ _) as [e flt]. reflexivity.
    + unfold crt_2ntsc. cbv zeta.
      destruct (for_run (Z.to_nat CRT_VRES) 0 _ (CRT.analog v)) as [a [f|]];
        [destruct g; reflexivity|].
      destruct (for_run (Z.to_nat desth) 0 _ _) as [e flt]. reflexivity.
Qed.

(** An encode call changes the signal buffer, the field parity of the
    settings, which it reduces to its low bit, and the histories of the
    three low pass filters, and nothing else: not the working copy, the sync
    fields, the calibration or the output of the context, not the image, not
    the noise generator, the equalizers or the low pass coefficients.  The
    signal buffer keeps its length. *)
Theorem crt_2ntsc_frame (v : CRT.t) (s : NTSC_SETTINGS.t) (g : Statics.t) :
  let r := fst (crt_2ntsc v s g) in
  fst (fst r) = CRT.set_analog v (CRT.analog (fst (fst r)))
  /\ length (CRT.analog (fst (fst r))) = length (CRT.analog v)
  /\ snd (fst r) = NTSC_SETTINGS.set_field s (NTSC_SETTINGS.field s ^& 1)
  /\ snd r = Statics.set_iir g (Statics.iirY (snd r)) (Statics.iirI (snd r))
               (Statics.iirQ (snd r))
  /\ IIRLP.c (Statics.iirY (snd r)) = IIRLP.c (Statics.iirY g)
  /\ IIRLP.c (Statics.iirI (snd r)) = IIRLP.c (Statics.iirI g)
  /\ IIRLP.c (Statics.iirQ (snd r)) = IIRLP.c (Statics.iirQ g).
Proof. exact (crt_2ntsc_changes v s g). Qed.

End EncoderFrame.

(** ** Encoding twice *)

Section EncodeTwice.

Lemma crt_2ntsc_field {hdr : crt_h} v s g :
  crt_2ntsc v (NTSC_SETTINGS.set_field s (NTSC_SETTINGS.field s ^& 1)) g
  = crt_2ntsc v s g.
Proof.
  unfold crt_2ntsc. cbv zeta.
  assert (E : NTSC_SETTINGS.set_field
                (NTSC_SETTINGS.set_field s (NTSC_SETTINGS.field s ^& 1))
                (NTSC_SETTINGS.field
                   (NTSC_SETTINGS.set_field s (NTSC_SETTINGS.field s ^& 1)) ^& 1)
              = NTSC_SETTINGS.set_field s (NTSC_SETTINGS.field s ^& 1)).
  { unfold NTSC_SETTINGS.set_field. cbn [NTSC_SETTINGS.rgb NTSC_SETTINGS.w NTSC_SETTINGS.h
      NTSC_SETTINGS.as_color NTSC_SETTINGS.field].
    unfold Int.and. rewrite <- Z.land_assoc, Z.land_diag. reflexivity. }
  rewrite E. reflexivity.
Qed.

(** Two signals reached by the same stores, the second from the first,
    are equal. *)
Lemma same_stores_fixed a b c :
  Z.of_nat (length a) = 238420 ->
  same_stores a b (render_stored 232) b c -> c = b.
Proof.
  intros Hsz (L1 & L2 & HW). apply list_eq. intros i.
  destruct (Nat.lt_ge_cases i (length b)) as [Hi|Hi].
  - destruct (HW (Z.of_nat i) ltac:(lia)) as [Hin Hout].
    rewrite Nat2Z.id in Hin, Hout.
    set (j := Z.of_nat i) in *.
    assert (Hj : 0 <= j < 238420) by lia.
    pose proof (render_stored_assigned (j / 910) (j mod 910)) as Hiff.
    assert (Ej : j / 910 * 910 + j mod 910 = j)
      by (pose proof (Z.div_mod j 910 ltac:(lia)); lia).
    rewrite Ej in Hiff.
    assert (Hn : 0 <= j / 910 < 262).
    { split; [apply Z.div_pos; lia|apply Z.div_lt_upper_bound; lia]. }
    specialize (Hiff Hn (Z.mod_pos_bound j 910 ltac:(lia))).
    destruct (ntsc_assigned (j / 910) (j mod 910)).
    + symmetry. apply Hin, Hiff. reflexivity.
    + apply Hout. intros H. apply Hiff in H. discriminate.
  - rewrite !lookup_ge_None_2 by lia. reflexivity.
Qed.

(** Encoding is idempotent.  For the reference timing and a signal buffer
    of the full size, a second encode call with the same image, on the
    context, the settings and the filters the first call left, runs to its
    end like the first and leaves the context, signal included, and the
    settings exactly as the first call left them. *)
Theorem crt_2ntsc_twice (v : CRT.t) (s : NTSC_SETTINGS.t) (g : Statics.t) :
  Z.of_nat (length (CRT.analog v)) = 238420 ->
  let r1 := @crt_2ntsc ntsc_h v s g in
  let r2 := @crt_2ntsc ntsc_h (fst (fst (fst r1))) (snd (fst (fst r1))) (snd (fst r1)) in
  snd r1 = None /\ snd r2 = None
  /\ fst (fst (fst r2)) = fst (fst (fst r1))
  /\ snd (fst (fst r2)) = snd (fst (fst r1)).
Proof.
  intros Hsz. cbv zeta.
  destruct (crt_2ntsc_same v s g (CRT.analog v) Hsz eq_refl)
    as (b1 & b1' & s' & g' & E1 & _ & (L1 & _ & _)).
  destruct (crt_2ntsc_same v s g b1 Hsz L1) as (c1 & c2 & s'' & g'' & F1 & F2 & HW).
  rewrite E1 in F1. injection F1 as Eb Es Eg. subst c1 s'' g''.
  apply (same_stores_fixed _ _ _ Hsz) in HW. subst c2.
  pose proof (@crt_2ntsc_changes ntsc_h v s g) as (_ & _ & Hs & _).
  pose proof (@crt_2ntsc_config ntsc_h v s g) as Hg.
  rewrite E1 in Hs, Hg |- *. cbn [fst snd done] in Hs, Hg |- *.
  split; [reflexivity|].
  rewrite Hs, crt_2ntsc_field.
  destruct (@crt_2ntsc_rel ntsc_h (CRT.set_analog v b1) s g g' Hg) as (R1 & R2 & _ & R4).
  rewrite <- R1, <- R2, <- R4, F2. cbn [fst snd done]. rewrite Hs. auto.
Qed.

End EncodeTwice.

Lemma crt_2ntsc_twice_witness :
  let r1 := @crt_2ntsc ntsc_h (ntsc_ctx 0) white_2x2 ntsc_statics in
  let r2 := @crt_2ntsc ntsc_h (fst (fst (fst r1))) (snd (fst (fst r1))) (snd (fst r1)) in
  Z.of_nat (length (CRT.analog (ntsc_ctx 0))) = 238420
  /\ snd r1 = None /\ snd r2 = None
  /\ fst (fst (fst r2)) = fst (fst (fst r1))
  /\ snd (fst (fst r2)) = snd (fst (fst r1)).
Proof.
  assert (H1 : Z.of_nat (length (CRT.analog (ntsc_ctx 0))) = 238420)
    by (vm_compute; reflexivity).
  split; [exact H1|].
  exact (crt_2ntsc_twice (ntsc_ctx 0) white_2x2 ntsc_statics H1).
Defined.

(** ** Decoder: what a call changes *)

Section DecoderFrame.
Context {hdr : crt_h}.

Ltac case_step :=
  match goal with
  | |- context [match ?x with _ => _ end] =>
      let E := fresh "E" in destruct x eqn:E
  | |- context [if ?x then _ else _] =>
      let E := fresh "E" in destruct x eqn:E
  end.

Lemma draw_line_kept max_e field bright line d :
  draw_kept d (fst (draw_line max_e field bright line d)).
Proof.
  unfold draw_line, draw_kept. repeat case_step; cbn; repeat split; reflexivity.
Qed.

Lemma draw_kept_trans d0 d1 d2 : draw_kept d0 d1 -> draw_kept d1 d2 -> draw_kept d0 d2.
Proof. unfold draw_kept. intuition congruence. Qed.

Lemma draw_kept_refl d : draw_kept d d.
Proof. unfold draw_kept. repeat split; reflexivity. Qed.

Lemma crt_draw_kept v g noise :
  exists inp rn vs,
    draw_kept (Draw.mk (CRT.set_vsync (CRT.set_inp v inp) vs) (Statics.set_rn g rn) [] [] 0)
              (Draw.mk (fst (fst (crt_draw v g noise))) (snd (fst (crt_draw v g noise)))
                 [] [] 0)
    /\ fst (noise_inject noise (CRT.analog v) (Statics.rn g, CRT.inp v)) = (rn, inp)
    /\ (vs = CRT.vsync v \/ exists j, vsync_search inp (CRT.vsync v) = Ok (vs, j)).
Proof.
  unfold crt_draw.
  destruct (noise_inject noise (CRT.analog v) (Statics.rn g, CRT.inp v))
    as [[rn inp] [f|]].
  - exists inp, rn, (CRT.vsync v). split; [|split; [reflexivity|left; reflexivity]].
    unfold draw_kept. cbn. repeat split; reflexivity.
  - cbn [CRT.inp CRT.set_inp CRT.vsync].
    destruct (vsync_search inp (CRT.vsync v)) as [[line j]|f] eqn:Ev.
    + exists inp, rn, line. split; [|split; [reflexivity|right; exists j; exact Ev]].
      match goal with
      | |- context [for_run ?n0 ?i0 ?body ?w0] =>
          pose proof (for_run_invariant (draw_kept w0) body
                        (fun ln d Hd => draw_kept_trans _ _ _ Hd (draw_line_kept _ _ _ ln d))
                        n0 i0 w0 (draw_kept_refl _)) as H;
          destruct (for_run n0 i0 body w0) as [d flt]
      end.
      cbn [fst snd] in *. exact H.
    + exists inp, rn, (CRT.vsync v). split; [|split; [reflexivity|left; reflexivity]].
      unfold draw_kept. cbn. repeat split; reflexivity.
Qed.

(** A decode call changes, of the context, the working copy of the signal,
    the two sync fields and the memory behind [out], and of the statics the
    noise generator and what the three equalizers remember.  It leaves the
    calibration and the size of the output alone, and the three low pass
    filters, and the fractions and gains of the equalizers, whether it runs
    to its end or stops at a fault. *)
Theorem crt_draw_frame (v : CRT.t) (g : Statics.t) (noise : Z) :
  let r := fst (crt_draw v g noise) in
  CRT.brightness (fst r) = CRT.brightness v
  /\ CRT.contrast (fst r) = CRT.contrast v
  /\ CRT.saturation (fst r) = CRT.saturation v
  /\ CRT.black_point (fst r) = CRT.black_point v
  /\ CRT.white_point (fst r) = CRT.white_point v
  /\ CRT.outw (fst r) = CRT.outw v
  /\ CRT.outh (fst r) = CRT.outh v
  /\ Statics.iirY (snd r) = Statics.iirY g
  /\ Statics.iirI (snd r) = Statics.iirI g
  /\ Statics.iirQ (snd r) = Statics.iirQ g
  /\ reset_eq (Statics.eqY (snd r)) = reset_eq (Statics.eqY g)
  /\ reset_eq (Statics.eqI (snd r)) = reset_eq (Statics.eqI g)
  /\ reset_eq (Statics.eqQ (snd r)) = reset_eq (Statics.eqQ g).
Proof.
  cbv zeta.
  destruct (crt_draw_kept v g noise) as (inp & rn & vs & K & _).
  pose proof (crt_draw_config v g noise) as (CY & CI & CQ & _).
  unfold draw_kept in K.
  cbn [Draw.crt Draw.st CRT.analog CRT.inp CRT.vsync CRT.brightness CRT.contrast CRT.saturation
       CRT.black_point CRT.white_point CRT.outw CRT.outh CRT.set_inp CRT.set_vsync
       Statics.rn Statics.iirY Statics.iirI Statics.iirQ Statics.set_rn] in K.
  intuition congruence.
Qed.

(** *** The sync fields stay in range *)

Lemma vsync_lines_range inp vsync k : forall i line0 j0 line j,
  0 < CRT_VRES < 2 ^ 30 -> 0 <= line0 < CRT_VRES ->
  vsync_lines k inp vsync i line0 j0 = Ok (line, j) -> 0 <= line < CRT_VRES.
Proof.
  induction k as [|k IH]; intros i line0 j0 line j Hv H0; cbn [vsync_lines].
  - intros [= <- <-]. exact H0.
  - cbv zeta.
    destruct (vsync_scan _ inp _ 0 0) as [[j1 b]|f]; cbn [res_bind fst snd];
      [|discriminate].
    pose proof (POSMOD_range (vsync ^+ i) CRT_VRES Hv) as Hp.
    destruct b.
    + intros [= <- <-]. exact Hp.
    + apply IH; assumption.
Qed.

Lemma draw_line_hsync max_e field bright line d :
  0 < CRT_HRES < 2 ^ 30 ->
  0 <= CRT.hsync (Draw.crt d) < CRT_HRES ->
  0 <= CRT.hsync (Draw.crt (fst (draw_line max_e field bright line d))) < CRT_HRES.
Proof.
  intros Hh H0. unfold draw_line.
  repeat case_step; cbn [fst done stop Draw.crt CRT.hsync CRT.set_hsync CRT.set_out];
    (exact H0 || apply POSMOD_range; exact Hh).
Qed.

(** After a decode call the two sync fields are within their ranges, the
    horizontal offset in [[0, CRT_HRES)] and the vertical line in
    [[0, CRT_VRES)], if they were before it: for every signal, noise level
    and size of the output, whether the call runs to its end or stops at a
    fault. *)
Theorem crt_draw_sync_range (v : CRT.t) (g : Statics.t) (noise : Z) :
  hdr_ok ->
  0 <= CRT.hsync v < CRT_HRES -> 0 <= CRT.vsync v < CRT_VRES ->
  0 <= CRT.hsync (fst (fst (crt_draw v g noise))) < CRT_HRES
  /\ 0 <= CRT.vsync (fst (fst (crt_draw v g noise))) < CRT_VRES.
Proof.
  intros (Hh & Hv & _) H0 V0. split.
  - unfold crt_draw.
    destruct (noise_inject noise (CRT.analog v) (Statics.rn g, CRT.inp v))
      as [[rn inp] [f|]]; [exact H0|].
    destruct (vsync_search _ _) as [[line j]|f]; [|exact H0].
    match goal with
    | |- context [for_run ?n0 ?i0 ?body ?w0] =>
        pose proof (for_run_invariant
                      (fun d => 0 <= CRT.hsync (Draw.crt d) < CRT_HRES) body
                      (fun ln d Hd => draw_line_hsync _ _ _ ln d Hh Hd)
                      n0 i0 w0 H0) as H;
        destruct (for_run n0 i0 body w0) as [d flt]
    end.
    exact H.
  - destruct (crt_draw_kept v g noise) as (inp & rn & vs & K & _ & Hvs).
    unfold draw_kept in K. cbn [Draw.crt Draw.st] in K.
    destruct K as (_ & _ & -> & _). cbn [CRT.vsync CRT.set_vsync].
    destruct Hvs as [->|[j Ej]]; [exact V0|].
    unfold vsync_search in Ej.
    assert (Hz : 0 <= 0 < CRT_VRES) by lia.
    exact (vsync_lines_range _ _ _ _ _ _ _ _ Hv Hz Ej).
Qed.

(** *** The working copy at noise level zero *)

Lemma quiet_sample_id a : amplitude_ok a -> quiet_sample a = a.
Proof.
  unfold amplitude_ok, quiet_sample, noisy_sample. intros Ha.
  rewrite mul_zero. change (0 ^>> 8) with 0.
  unfold Int.add. rewrite Z.add_0_r, sint_small
    by (unfold Int.in_range, Int.min_signed, Int.max_signed; lia).
  cbv zeta. destruct (Z.gtb_spec a 127); [lia|]. destruct (Z.ltb_spec a (-127)); [lia|].
  apply schar_small. lia.
Qed.

(** At noise level zero the working copy the decoder leaves in [inp] is the
    signal, sample for sample, when the arrays have the declared size and
    the signal is within [[-127, 127]]; the noise generator has no part in
    it. *)
Theorem crt_draw_quiet_copy (v : CRT.t) (g : Statics.t) :
  length (CRT.analog v) = Z.to_nat CRT_INPUT_SIZE ->
  length (CRT.inp v) = Z.to_nat CRT_INPUT_SIZE ->
  Forall amplitude_ok (CRT.analog v) ->
  CRT.inp (fst (fst (crt_draw v g 0))) = CRT.analog v.
Proof.
  intros La Li Ha.
  destruct (crt_draw_kept v g 0) as (inp & rn & vs & K & En & _).
  unfold draw_kept in K. cbn [Draw.crt Draw.st] in K.
  destruct K as (_ & -> & _). cbn [CRT.inp CRT.set_vsync CRT.set_inp].
  destruct (noise_inject_quiet (CRT.analog v) (Statics.rn g) (CRT.inp v) La Li) as [rn' Eq].
  rewrite Eq in En. cbn [fst] in En. injection En as _ <-.
  apply list_eq. intros i. rewrite list_lookup_fmap.
  destruct (CRT.analog v !! i) as [a|] eqn:Ea; [|reflexivity].
  cbn. f_equal. apply quiet_sample_id.
  exact (proj1 (Forall_lookup _ _) Ha i a Ea).
Qed.

End DecoderFrame.

Lemma crt_draw_sync_range_witness :
  @hdr_ok ntsc_h
  /\ 0 <= CRT.hsync late_sync_ctx < @CRT_HRES ntsc_h
  /\ 0 <= CRT.vsync late_sync_ctx < @CRT_VRES ntsc_h
  /\ 0 <= CRT.hsync (fst (fst (@crt_draw ntsc_h late_sync_ctx ntsc_statics 0)))
     < @CRT_HRES ntsc_h
  /\ 0 <= CRT.vsync (fst (fst (@crt_draw ntsc_h late_sync_ctx ntsc_statics 0)))
     < @CRT_VRES ntsc_h.
Proof.
  assert (H1 : 0 <= CRT.hsync late_sync_ctx < @CRT_HRES ntsc_h)
    by (vm_compute; split; [discriminate|reflexivity]).
  assert (H2 : 0 <= CRT.vsync late_sync_ctx < @CRT_VRES ntsc_h)
    by (vm_compute; split; [discriminate|reflexivity]).
  split; [exact ntsc_hdr_ok|]. split; [exact H1|]. split; [exact H2|].
  exact (@crt_draw_sync_range ntsc_h late_sync_ctx ntsc_statics 0 ntsc_hdr_ok H1 H2).
Defined.

Lemma crt_draw_quiet_copy_witness :
  length (CRT.analog (ntsc_ctx 100)) = Z.to_nat (@CRT_INPUT_SIZE ntsc_h)
  /\ length (CRT.inp (ntsc_ctx 100)) = Z.to_nat (@CRT_INPUT_SIZE ntsc_h)
  /\ Forall amplitude_ok (CRT.analog (ntsc_ctx 100))
  /\ CRT.inp (fst (fst (@crt_draw ntsc_h (ntsc_ctx 100) ntsc_statics 0)))
     = CRT.analog (ntsc_ctx 100).
Proof.
  assert (H1 : length (CRT.analog (ntsc_ctx 100)) = Z.to_nat (@CRT_INPUT_SIZE ntsc_h))
    by (unfold ntsc_ctx; cbn [CRT.analog]; apply length_replicate).
  assert (H2 : length (CRT.inp (ntsc_ctx 100)) = Z.to_nat (@CRT_INPUT_SIZE ntsc_h))
    by (unfold ntsc_ctx; cbn [CRT.inp]; apply length_replicate).
  assert (H3 : Forall amplitude_ok (CRT.analog (ntsc_ctx 100))).
  { unfold ntsc_ctx. cbn [CRT.analog]. apply Forall_replicate.
    vm_compute. split; discriminate. }
  split; [exact H1|]. split; [exact H2|]. split; [exact H3|].
  exact (@crt_draw_quiet_copy ntsc_h (ntsc_ctx 100) ntsc_statics H1 H2 H3).
Defined.

(** ** Decoder: where the pixels go *)

Section OutputBounds.
Context {hdr : crt_h}.

Ltac small := unfold Int.in_range, Int.min_signed, Int.max_signed; lia.

Lemma for_run_invariant_in {W : Type} (P : W -> Prop) (body : Z -> W -> run W) (lo hi : Z) :
  (forall i w, lo <= i < hi -> P w -> P (fst (body i w))) ->
  forall n i w, lo <= i -> i + Z.of_nat n <= hi -> P w -> P (fst (for_run n i body w)).
Proof.
  intros Hbody. induction n as [|n IH]; intros i w Hlo Hhi Hw; cbn [for_run]; [exact Hw|].
  specialize (Hbody i w ltac:(lia) Hw). destruct (body i w) as [w' [f|]]; cbn [fst] in *.
  - exact Hbody.
  - apply IH; [lia|lia|exact Hbody].
Qed.

Lemma resample_outside k : forall yiq contrast scanR dx cR m cL pos a,
  a < cL \/ cR <= a ->
  fst (fst (resample k yiq contrast scanR dx cR m cL pos)) a = m a.
Proof.
  induction k as [|k IH]; intros yiq contrast scanR dx cR m cL pos a Ha;
    cbn [resample]; [reflexivity|].
  destruct (pos <? Int.uint scanR); cbn [andb]; [|reflexivity].
  destruct (Z.ltb_spec cL cR); [|reflexivity].
  cbv zeta.
  destruct (yget yiq (pos ^>> 12)) as [A|f]; [|reflexivity].
  destruct (yget yiq ((pos ^>> 12) + 1)) as [B|f]; [|reflexivity].
  rewrite IH by lia. unfold mem_set.
  destruct (Z.eqb_spec a cL); [lia|reflexivity].
Qed.

Lemma memcpy_outside m dst src n a :
  a < dst \/ dst + n <= a -> memcpy_int m dst src n a = m a.
Proof.
  intros Ha. unfold memcpy_int.
  destruct (Z.leb_spec dst a); destruct (Z.ltb_spec a (dst + n)); cbn [andb];
    try reflexivity; lia.
Qed.

Lemma dup_rows_outside outw outh beg end_ m a :
  0 < outw < 2 ^ 15 -> 0 <= beg < outh -> end_ <= outh -> outh < 2 ^ 15 ->
  a < 0 \/ outw * outh <= a ->
  dup_rows outw beg end_ m a = m a.
Proof.
  intros Hw Hb He Hh Ha. unfold dup_rows. cbv zeta.
  destruct (Z.le_gt_cases end_ beg) as [Hle|Hgt].
  { replace (Z.to_nat (end_ - (beg ^+ 1))) with O; [reflexivity|].
    unfold Int.add. rewrite sint_small by small. lia. }
  assert (E1 : beg ^+ 1 = beg + 1) by (unfold Int.add; apply sint_small; small).
  rewrite E1.
  assert (El : Int.uint (outw * 4) / 4 = outw).
  { unfold Int.uint. rewrite Z.mod_small by lia. apply Z.div_mul. lia. }
  rewrite El.
  assert (H : forall k s m0, 0 < s -> s + Z.of_nat k <= outh ->
            for_up k s
              (fun s m => memcpy_int m (s ^* outw) ((s ^- 1) ^* outw) outw) m0 a = m0 a).
  { induction k as [|k IH]; intros s m0 Hs Hk; cbn [for_up]; [reflexivity|].
    rewrite IH by lia.
    assert (E2 : s ^* outw = s * outw)
      by (unfold Int.mul; apply sint_small;
          unfold Int.in_range, Int.min_signed, Int.max_signed; nia).
    rewrite E2. apply memcpy_outside. nia. }
  apply H; lia.
Qed.

Ltac case_step :=
  match goal with
  | |- context [match ?x with _ => _ end] =>
      let E := fresh "E" in destruct x eqn:E
  | |- context [if ?x then _ else _] =>
      let E := fresh "E" in destruct x eqn:E
  end.

Lemma draw_line_out max_e field bright line d a :
  lines_ok -> CRT_TOP <= line < CRT_BOT -> 0 <= field < 2 ^ 15 ->
  0 < CRT.outw (Draw.crt d) < 2 ^ 15 -> 0 <= CRT.outh (Draw.crt d) < 2 ^ 15 ->
  ~ in_output (Draw.crt d) a ->
  CRT.out (Draw.crt (fst (draw_line max_e field bright line d))) a
  = CRT.out (Draw.crt d) a.
Proof.
  intros (T0 & TB & B15 & L15) Hline Hfield Hw Hh Ha. unfold in_output in Ha.
  unfold draw_line. cbv zeta.
  cbn [CRT.outw CRT.outh CRT.out CRT.inp CRT.hsync CRT.vsync CRT.contrast CRT.saturation
       CRT.set_hsync].
  set (outw := CRT.outw (Draw.crt d)) in *. set (outh := CRT.outh (Draw.crt d)) in *.
  assert (E0 : line ^- CRT_TOP ^+ 0 = line - CRT_TOP).
  { unfold Int.add, Int.sub. rewrite (sint_small (line - CRT_TOP)) by small.
    rewrite Z.add_0_r. apply sint_small. small. }
  assert (E1 : line ^- CRT_TOP ^+ 1 = line - CRT_TOP + 1).
  { unfold Int.add, Int.sub. rewrite (sint_small (line - CRT_TOP)) by small.
    apply sint_small. small. }
  rewrite E0, E1.
  set (k := line - CRT_TOP) in *.
  assert (Hk : 0 <= k < 2 ^ 15) by lia.
  assert (Hdiv : forall x, 0 <= x <= 2 ^ 15 ->
            x ^* outh ^/ CRT_LINES = x * outh / CRT_LINES
            /\ 0 <= x * outh / CRT_LINES <= 2 ^ 30).
  { intros x Hx.
    assert (E : x ^* outh = x * outh)
      by (unfold Int.mul; apply sint_small;
          unfold Int.in_range, Int.min_signed, Int.max_signed; nia).
    rewrite E. unfold Int.div. rewrite Z.quot_div_nonneg by nia.
    assert (0 <= x * outh / CRT_LINES <= 2 ^ 30).
    { split; [apply Z.div_pos; nia|apply Z.div_le_upper_bound; nia]. }
    rewrite sint_small by small. lia. }
  destruct (Hdiv k ltac:(lia)) as [-> Hb]. destruct (Hdiv (k + 1) ltac:(lia)) as [-> He].
  assert (Eb : k * outh / CRT_LINES ^+ field = k * outh / CRT_LINES + field)
    by (unfold Int.add; apply sint_small; small).
  assert (Ee : (k + 1) * outh / CRT_LINES ^+ field = (k + 1) * outh / CRT_LINES + field)
    by (unfold Int.add; apply sint_small; small).
  rewrite Eb, Ee.
  set (beg := k * outh / CRT_LINES + field) in *.
  set (end0 := (k + 1) * outh / CRT_LINES + field) in *.
  destruct (Z.geb_spec beg outh) as [Hge|Hlt]; [reflexivity|].
  set (end_ := if end0 >? outh then outh else end0).
  assert (Hend : end_ <= outh) by (unfold end_; destruct (Z.gtb_spec end0 outh); lia).
  assert (Ec : beg ^* outw = beg * outw)
    by (unfold Int.mul; apply sint_small;
        unfold Int.in_range, Int.min_signed, Int.max_signed; nia).
  rewrite Ec.
  repeat case_step; cbn [fst done stop Draw.crt CRT.out CRT.set_out CRT.set_hsync];
    try reflexivity.
  all: subst;
    match goal with
    | Er : resample ?k0 ?yiq ?c ?sR ?dx ?cR ?m0 ?cL ?pos = (?m, _, _) |- _ =>
        pose proof (resample_outside k0 yiq c sR dx cR m0 cL pos a) as Ho;
        rewrite Er in Ho; cbn [fst] in Ho
    end.
  - apply Ho. nia.
  - rewrite (dup_rows_outside outw outh) by (try assumption; lia). apply Ho. nia.
Qed.

Lemma field_range outh j :
  lines_ok -> 0 <= outh < 2 ^ 15 ->
  0 <= vsync_field j ^* ((((outh ^<< 16) ^/ CRT_LINES ^+ 32768) ^>> 16) ^/ 2) < 2 ^ 15.
Proof.
  intros (T0 & TB & B15 & L15) Hh.
  assert (E1 : outh ^<< 16 = outh * 65536).
  { unfold Int.shl. rewrite Z.shiftl_mul_pow2 by lia. apply sint_small. small. }
  rewrite E1.
  assert (Hq : 0 <= outh * 65536 / CRT_LINES <= outh * 65536).
  { split; [apply Z.div_pos; lia|apply Z.div_le_upper_bound; nia]. }
  assert (E2 : (outh * 65536) ^/ CRT_LINES = outh * 65536 / CRT_LINES).
  { unfold Int.div. rewrite Z.quot_div_nonneg by lia. apply sint_small. small. }
  rewrite E2.
  assert (E3 : outh * 65536 / CRT_LINES ^+ 32768 = outh * 65536 / CRT_LINES + 32768)
    by (unfold Int.add; apply sint_small; small).
  rewrite E3. unfold Int.shr. rewrite Z.shiftr_div_pow2 by lia. change (2 ^ 16) with 65536.
  set (r := (outh * 65536 / CRT_LINES + 32768) / 65536).
  assert (Hr : 0 <= r <= 2 ^ 15).
  { split; [apply Z.div_pos; lia|apply Z.div_le_upper_bound; lia]. }
  assert (E4 : r ^/ 2 = r / 2).
  { unfold Int.div. rewrite Z.quot_div_nonneg by lia. apply sint_small.
    assert (0 <= r / 2 <= 2 ^ 15)
      by (split; [apply Z.div_pos; lia|apply Z.div_le_upper_bound; lia]).
    small. }
  rewrite E4.
  assert (Hr2 : 0 <= r / 2 < 2 ^ 15).
  { split; [apply Z.div_pos; lia|apply Z.div_lt_upper_bound; lia]. }
  unfold vsync_field. destruct (j >? CRT_HRES ^/ 2); unfold Int.mul.
  - rewrite Z.mul_1_l, sint_small by small. lia.
  - rewrite Z.mul_0_l. change (Int.sint 0) with 0. lia.
Qed.

(** A decode call stores into the output buffer only: every element of the
    memory behind [out] outside the [outw * outh] pixels of the output is
    after the call as it was before, for every signal, noise level and state
    of the sync fields, whether the call runs to its end or stops at a
    fault.  With a height of zero nothing at all is stored. *)
Theorem crt_draw_out_bounds (v : CRT.t) (g : Statics.t) (noise : Z) (a : Z) :
  lines_ok ->
  0 < CRT.outw v < 2 ^ 15 -> 0 <= CRT.outh v < 2 ^ 15 ->
  ~ in_output v a ->
  CRT.out (fst (fst (crt_draw v g noise))) a = CRT.out v a.
Proof.
  intros Hl Hw Hh Ha. unfold crt_draw.
  destruct (noise_inject noise (CRT.analog v) (Statics.rn g, CRT.inp v))
    as [[rn inp] [f|]]; [reflexivity|].
  destruct (vsync_search _ _) as [[line j]|f]; [|reflexivity].
  cbv zeta. cbn [CRT.outh CRT.set_vsync CRT.set_inp].
  pose proof (field_range (CRT.outh v) j Hl Hh) as Hf.
  set (field := vsync_field j ^* _) in *.
  set (P := fun d : Draw.t =>
              (CRT.outw (Draw.crt d) = CRT.outw v /\ CRT.outh (Draw.crt d) = CRT.outh v)
              /\ CRT.out (Draw.crt d) a = CRT.out v a).
  match goal with
  | |- context [for_run ?n0 ?i0 ?body ?w0] =>
      assert (H : P (fst (for_run n0 i0 body w0)));
      [apply (for_run_invariant_in P body CRT_TOP CRT_BOT)
      |destruct (for_run n0 i0 body w0) as [d flt]; exact (proj2 H)]
  end.
  - intros ln d0 Hln ((Ew & Eh) & Eo).
    pose proof (draw_line_kept ((128 ^+ noise ^/ 2) ^* AV_LEN) field
                  (CRT.brightness v ^- (BLACK_LEVEL ^+ CRT.black_point v)) ln d0) as K.
    unfold draw_kept in K.
    destruct K as (_ & _ & _ & _ & _ & _ & _ & _ & Kw & Kh & _).
    split; [split; congruence|].
    rewrite <- Eo. apply draw_line_out; try assumption; try lia.
    unfold in_output. rewrite Ew, Eh. exact Ha.
  - lia.
  - destruct Hl as (T0 & TB & _). lia.
  - unfold P. cbn [Draw.crt CRT.outw CRT.outh CRT.out CRT.set_vsync CRT.set_inp]. auto.
Qed.

End OutputBounds.

Lemma crt_draw_out_bounds_witness :
  @lines_ok ntsc_h
  /\ 0 < CRT.outw encoded_ctx < 2 ^ 15 /\ 0 <= CRT.outh encoded_ctx < 2 ^ 15
  /\ ~ in_output encoded_ctx 76800
  /\ CRT.out (fst (fst (@crt_draw ntsc_h encoded_ctx ntsc_statics 0))) 76800
     = CRT.out encoded_ctx 76800.
Proof.
  assert (E : encoded_ctx
              = CRT.set_analog (CRT.set_out (ntsc_ctx 0) (fun _ => 0xffffff))
                  (CRT.analog encoded_ctx))
    by (exact (proj1 (@crt_2ntsc_changes ntsc_h _ white_2x2 ntsc_statics))).
  assert (Ew : CRT.outw encoded_ctx = 320) by (rewrite E; reflexivity).
  assert (Eh : CRT.outh encoded_ctx = 240) by (rewrite E; reflexivity).
  assert (H0 : @lines_ok ntsc_h) by (vm_compute; intuition discriminate).
  assert (H1 : 0 < CRT.outw encoded_ctx < 2 ^ 15) by (rewrite Ew; lia).
  assert (H2 : 0 <= CRT.outh encoded_ctx < 2 ^ 15) by (rewrite Eh; lia).
  assert (H3 : ~ in_output encoded_ctx 76800)
    by (unfold in_output; rewrite Ew, Eh; lia).
  split; [exact H0|]. split; [exact H1|]. split; [exact H2|]. split; [exact H3|].
  exact (@crt_draw_out_bounds ntsc_h encoded_ctx ntsc_statics 0 76800 H0 H1 H2 H3).
Defined.

(** ** Encoder: the lines of the sync loop *)

Section SyncImage.

Lemma aset_app (p l q : list Z) (base t x : Z) :
  Z.of_nat (length p) = base -> 0 <= t < Z.of_nat (length l) ->
  aset (p ++ l ++ q) (base + t) x = Ok (p ++ <[Z.to_nat t := schar x]> l ++ q).
Proof.
  intros Hp Ht. rewrite aset_ok by (rewrite !length_app; lia). f_equal.
  rewrite insert_app_r_alt by lia.
  replace (Z.to_nat (base + t) - length p)%nat with (Z.to_nat t) by lia.
  rewrite insert_app_l by lia. reflexivity.
Qed.

Lemma fill_loop_app k : forall (p D R q : list Z) base x t,
  Z.of_nat (length p) = base -> Z.of_nat (length D) = t -> (k <= length R)%nat ->
  -128 <= x <= 127 ->
  fill_loop k base x (p ++ (D ++ R) ++ q) t
  = done (p ++ ((D ++ replicate k x) ++ drop k R) ++ q, t + Z.of_nat k).
Proof.
  induction k as [|k IH]; intros p D R q base x t Hp HD Hk Hx; cbn [fill_loop].
  - cbn [replicate drop]. rewrite app_nil_r, Z.add_0_r. reflexivity.
  - destruct R as [|r R]; [cbn in Hk; lia|].
    rewrite (aset_app p (D ++ r :: R) q base t x Hp)
      by (rewrite length_app; cbn [length]; lia).
    rewrite insert_app_r_alt by lia.
    replace (Z.to_nat t - length D)%nat with O by lia.
    cbn [list_insert insert]. rewrite schar_small by lia.
    replace (D ++ x :: R) with ((D ++ [x]) ++ R) by (rewrite <- app_assoc; reflexivity).
    rewrite (IH p (D ++ [x]) R q base x (t + 1) Hp)
      by (try rewrite length_app; cbn [length] in *; lia).
    cbn [replicate drop]. do 2 f_equal; [|lia].
    rewrite <- !app_assoc. reflexivity.
Qed.

Lemma fill_app (p D R q : list Z) base lim x t :
  Z.of_nat (length p) = base -> Z.of_nat (length D) = t ->
  t <= lim -> lim - t <= Z.of_nat (length R) -> -128 <= x <= 127 ->
  fill base lim x (p ++ (D ++ R) ++ q, t)
  = done (p ++ ((D ++ replicate (Z.to_nat (lim - t)) x) ++ drop (Z.to_nat (lim - t)) R) ++ q,
          lim).
Proof.
  intros Hp HD Hl HR Hx. unfold fill. cbn [fst snd].
  rewrite (fill_loop_app _ p D R q base x t Hp HD) by lia.
  do 2 f_equal. lia.
Qed.

Lemma burst_loop_app k : forall (p l q : list Z) base t t0,
  Z.of_nat (length p) = base -> 0 <= t -> t + Z.of_nat k <= Z.of_nat (length l) ->
  exists t1,
    for_run k t
      (fun t w =>
         match aset (fst w) (base + t)
                 (BLANK_LEVEL ^+ (rd cc ((t ^+ 0) ^& 3) ^* BURST_LEVEL)) with
         | Ok a' => done (a', t + 1)
         | Fault f => stop (fst w, t) f
         end) (p ++ l ++ q, t0)
    = done (p ++ burst_fill k t l ++ q, t1).
Proof.
  induction k as [|k IH]; intros p l q base t t0 Hp Ht Hk; cbn [for_run burst_fill].
  - exists t0. reflexivity.
  - cbn [fst]. rewrite (aset_app p l q base t _ Hp) by lia. cbn [done].
    apply IH; [exact Hp|lia|rewrite length_insert; lia].
Qed.

Lemma fill_app_to (k : nat) (p D R q : list Z) base lim x t :
  Z.of_nat (length p) = base -> Z.of_nat (length D) = t ->
  lim = t + Z.of_nat k -> (k <= length R)%nat -> -128 <= x <= 127 ->
  fill base lim x (p ++ (D ++ R) ++ q, t)
  = done (p ++ ((D ++ replicate k x) ++ drop k R) ++ q, lim).
Proof.
  intros Hp HD Hl HR Hx. rewrite (fill_app p D R q base lim x t) by lia.
  replace (Z.to_nat (lim - t)) with k by lia. reflexivity.
Qed.

Lemma burst_fill_length k : forall t l, length (burst_fill k t l) = length l.
Proof.
  induction k as [|k IH]; intros t l; cbn [burst_fill]; [reflexivity|].
  rewrite IH, length_insert. reflexivity.
Qed.

Lemma burst_fill_app k : forall t (D R : list Z),
  0 <= t -> t + Z.of_nat k <= Z.of_nat (length D) ->
  burst_fill k t (D ++ R) = burst_fill k t D ++ R.
Proof.
  induction k as [|k IH]; intros t D R Ht Hk; cbn [burst_fill]; [reflexivity|].
  rewrite insert_app_l by lia. apply IH; [lia|rewrite length_insert; lia].
Qed.

Ltac lens := rewrite ?length_app, ?length_replicate, ?length_drop; cbn [length]; lia.

Lemma sync_line_template field as_color n (p l q : list Z) :
  0 <= n < 262 -> Z.of_nat (length p) = n * 910 -> length l = 910%nat ->
  @sync_line ntsc_h field as_color n (p ++ l ++ q)
  = done (p ++ sync_template field as_color n l ++ q).
Proof.
  intros Hn Hp Hl. unfold sync_line, sync_template. cbv zeta.
  change (@CRT_HRES ntsc_h) with 910. change (@CRT_TOP ntsc_h) with 21.
  rewrite (ntsc_mul_small n 910) by lia.
  change LINE_BEG with 0.
  change (p ++ l ++ q) with (p ++ ([] ++ l) ++ q).
  destruct ((n <=? 3) || ((n >=? 7) && (n <=? 9))).
  - change (4 ^* 910 ^/ 100) with 36. change (50 ^* 910 ^/ 100) with 455.
    change (54 ^* 910 ^/ 100) with 491. change (100 ^* 910 ^/ 100) with 910.
    rewrite (fill_app_to 36) by (try reflexivity; try lens; vm_compute; split; discriminate).
    cbn [and_then done].
    rewrite (fill_app_to 419) by (try reflexivity; try lens; vm_compute; split; discriminate).
    cbn [and_then done].
    rewrite (fill_app_to 36) by (try reflexivity; try lens; vm_compute; split; discriminate).
    cbn [and_then done].
    rewrite (fill_app_to 419) by (try reflexivity; try lens; vm_compute; split; discriminate).
    cbn [and_then done fst snd]. unfold done. do 2 f_equal.
    rewrite !drop_drop, drop_ge by lia.
    unfold eq_line. rewrite app_nil_r, <- !app_assoc. reflexivity.
  - destruct ((n >=? 4) && (n <=? 6)).
    + unfold vs_line. destruct (field =? 1).
      * change (rd odd_offs 0 ^* 910 ^/ 100) with 36.
        change (rd odd_offs 1 ^* 910 ^/ 100) with 455.
        change (rd odd_offs 2 ^* 910 ^/ 100) with 873.
        change (rd odd_offs 3 ^* 910 ^/ 100) with 910.
        rewrite (fill_app_to 36) by (try reflexivity; try lens; vm_compute; split; discriminate).
        cbn [and_then done].
        rewrite (fill_app_to 419) by (try reflexivity; try lens; vm_compute; split; discriminate).
        cbn [and_then done].
        rewrite (fill_app_to 418) by (try reflexivity; try lens; vm_compute; split; discriminate).
        cbn [and_then done].
        rewrite (fill_app_to 37) by (try reflexivity; try lens; vm_compute; split; discriminate).
        cbn [and_then done fst snd]. unfold done. do 2 f_equal.
        rewrite !drop_drop, drop_ge by lia.
        rewrite app_nil_r, <- !app_assoc. reflexivity.
      * change (rd even_offs 0 ^* 910 ^/ 100) with 418.
        change (rd even_offs 1 ^* 910 ^/ 100) with 455.
        change (rd even_offs 2 ^* 910 ^/ 100) with 873.
        change (rd even_offs 3 ^* 910 ^/ 100) with 910.
        rewrite (fill_app_to 418) by (try reflexivity; try lens; vm_compute; split; discriminate).
        cbn [and_then done].
        rewrite (fill_app_to 37) by (try reflexivity; try lens; vm_compute; split; discriminate).
        cbn [and_then done].
        rewrite (fill_app_to 418) by (try reflexivity; try lens; vm_compute; split; discriminate).
        cbn [and_then done].
        rewrite (fill_app_to 37) by (try reflexivity; try lens; vm_compute; split; discriminate).
        cbn [and_then done fst snd]. unfold done. do 2 f_equal.
        rewrite !drop_drop, drop_ge by lia.
        rewrite app_nil_r, <- !app_assoc. reflexivity.
    + change (@SYNC_BEG ntsc_h) with 21. change (@BW_BEG ntsc_h) with 88.
      change (@AV_BEG ntsc_h) with 156.
      rewrite (fill_app_to 21) by (try reflexivity; try lens; vm_compute; split; discriminate).
      cbn [and_then done].
      rewrite (fill_app_to 67) by (try reflexivity; try lens; vm_compute; split; discriminate).
      cbn [and_then done].
      rewrite (fill_app_to 68) by (try reflexivity; try lens; vm_compute; split; discriminate).
      cbn [and_then done].
      rewrite !drop_drop. cbn [Nat.add].
      assert (Eh : (([] ++ replicate 21 BLANK_LEVEL) ++ replicate 67 SYNC_LEVEL)
                   ++ replicate 68 BLANK_LEVEL = hblank_plain)
        by (unfold hblank_plain; rewrite <- !app_assoc; reflexivity).
      rewrite Eh.
      assert (Hh : length hblank_plain = 156%nat) by reflexivity.
      set (tail := if n <? 21 then replicate 754 BLANK_LEVEL else drop 156 l).
      assert (Ht : length tail = 754%nat)
        by (unfold tail; destruct (n <? 21); [apply length_replicate|rewrite length_drop; lia]).
      assert (E1 : exists t,
                (if n <? 21
                 then fill (n * 910) 910 BLANK_LEVEL
                        (p ++ (hblank_plain ++ drop 156 l) ++ q, 156)
                 else done (p ++ (hblank_plain ++ drop 156 l) ++ q, 156))
                = done (p ++ (hblank_plain ++ tail) ++ q, t)).
      { unfold tail. destruct (n <? 21).
        - exists 910.
          rewrite (fill_app_to 754) by (try reflexivity; try lens; vm_compute; split; discriminate).
          rewrite drop_drop, drop_ge by lia. rewrite app_nil_r, <- app_assoc. reflexivity.
        - exists 156. reflexivity. }
      destruct E1 as [t E1]. rewrite E1. cbn [and_then done].
      unfold hblank. destruct (as_color =? 0).
      * cbn [fst snd]. unfold done. rewrite <- app_assoc. reflexivity.
      * unfold burst_line.
        change (Z.to_nat (@CB_BEG ntsc_h ^+ (CB_CYCLES ^* @CRT_CB_FREQ ntsc_h)
                          - @CB_BEG ntsc_h)) with 40%nat.
        change (@CB_BEG ntsc_h) with 97.
        destruct (burst_loop_app 40 p (hblank_plain ++ tail) q (n * 910) 97 t Hp
                    ltac:(lia) ltac:(rewrite length_app; lia)) as [t1 Eb].
        rewrite Eb. cbn [fst snd]. unfold done.
        rewrite burst_fill_app by (rewrite ?Hh; lia). rewrite <- app_assoc. reflexivity.
Qed.

Lemma for_run_total {W : Type} (I : Z -> W -> Prop) (body : Z -> W -> run W) (lo hi : Z) :
  (forall i w, lo <= i < hi -> I i w -> exists w', body i w = done w' /\ I (i + 1) w') ->
  forall k i w, lo <= i -> i + Z.of_nat k <= hi -> I i w ->
    exists w', for_run k i body w = done w' /\ I (i + Z.of_nat k) w'.
Proof.
  intros Hbody. induction k as [|k IH]; intros i w Hlo Hhi Hw; cbn [for_run].
  - exists w. rewrite Z.add_0_r. auto.
  - destruct (Hbody i w ltac:(lia) Hw) as (w1 & E1 & H1). rewrite E1. cbn [done].
    destruct (IH (i + 1) w1 ltac:(lia) ltac:(lia) H1) as (w2 & E2 & H2).
    exists w2. split; [exact E2|]. replace (i + Z.of_nat (S k)) with (i + 1 + Z.of_nat k) by lia.
    exact H2.
Qed.

Lemma hblank_length as_color : length (hblank as_color) = 156%nat.
Proof.
  unfold hblank. destruct (as_color =? 0); [reflexivity|].
  rewrite burst_fill_length. reflexivity.
Qed.

Lemma sync_template_length field as_color n l :
  length l = 910%nat -> length (sync_template field as_color n l) = 910%nat.
Proof.
  intros Hl. unfold sync_template.
  destruct ((n <=? 3) || ((n >=? 7) && (n <=? 9))); [reflexivity|].
  destruct ((n >=? 4) && (n <=? 6)).
  - unfold vs_line. destruct (field =? 1); reflexivity.
  - rewrite length_app, hblank_length.
    destruct (n <? 21); [rewrite length_replicate|rewrite length_drop]; lia.
Qed.

Lemma sync_done_step field as_color a k b :
  Z.of_nat (length a) = 238420 -> 0 <= k < 262 ->
  sync_done field as_color a k b ->
  exists b', @sync_line ntsc_h field as_color k b = done b'
             /\ sync_done field as_color a (k + 1) b'.
Proof.
  intros Hsz Hk (Hlen & Hdrop & Hlines).
  set (P := Z.to_nat (k * 910)) in *.
  set (l := take 910 (drop P a)).
  assert (Hl : length l = 910%nat) by (unfold l; rewrite length_take, length_drop; lia).
  assert (Eb : b = take P b ++ l ++ drop (P + 910) a).
  { rewrite <- (take_drop P b) at 1. f_equal. rewrite Hdrop.
    rewrite <- (take_drop 910 (drop P a)) at 1. unfold l. f_equal.
    rewrite drop_drop. reflexivity. }
  assert (Hp : Z.of_nat (length (take P b)) = k * 910) by (rewrite length_take; lia).
  exists (take P b ++ sync_template field as_color k l ++ drop (P + 910) a).
  split.
  - rewrite Eb at 1. apply sync_line_template; [lia|exact Hp|exact Hl].
  - pose proof (sync_template_length field as_color k l Hl) as Ht.
    split; [|split].
    + rewrite !length_app, Ht, length_take, length_drop. lia.
    + replace (Z.to_nat ((k + 1) * 910)) with (length (take P b) + 910)%nat
        by (rewrite length_take; lia).
      rewrite <- drop_drop, drop_app_length.
      rewrite <- Ht at 1. rewrite drop_app_length.
      rewrite length_take. replace (P `min` length b)%nat with P by lia.
      reflexivity.
    + intros n t Hn Ht0. destruct (Z.eq_dec n k) as [->|Hne].
      * replace (Z.to_nat (k * 910 + t)) with (length (take P b) + Z.to_nat t)%nat
          by (rewrite length_take; lia).
        rewrite lookup_app_r by lia.
        replace (length (take P b) + Z.to_nat t - length (take P b))%nat
          with (Z.to_nat t) by lia.
        rewrite lookup_app_l by lia. reflexivity.
      * rewrite lookup_app_l by (rewrite length_take; nia).
        rewrite lookup_take_lt by nia. apply Hlines; lia.
Qed.

Lemma sync_lines_image field as_color a :
  Z.of_nat (length a) = 238420 ->
  exists b,
    for_run (Z.to_nat (@CRT_VRES ntsc_h)) 0 (@sync_line ntsc_h field as_color) a = done b
    /\ length b = length a
    /\ forall n t, 0 <= n < 262 -> 0 <= t < 910 ->
         b !! Z.to_nat (n * 910 + t)
         = sync_template field as_color n (take 910 (drop (Z.to_nat (n * 910)) a))
             !! Z.to_nat t.
Proof.
  intros Hsz.
  destruct (for_run_total (sync_done field as_color a) (@sync_line ntsc_h field as_color)
              0 262 (fun k b Hk Hb => sync_done_step field as_color a k b Hsz Hk Hb)
              (Z.to_nat (@CRT_VRES ntsc_h)) 0 a) as (b & E & (H1 & _ & H3)).
  - lia.
  - change (@CRT_VRES ntsc_h) with 262. lia.
  - split; [reflexivity|]. split; [reflexivity|]. intros n t Hn. lia.
  - exists b. split; [exact E|]. split; [exact H1|].
    intros n t Hn Ht. apply H3; [|exact Ht]. change (@CRT_VRES ntsc_h) with 262. lia.
Qed.

(** *** The render loops *)

Lemma encode_pixel_rendered v s y syA syB x S e :
  0 <= y < 232 -> 0 <= x < 637 ->
  rendered S (Enc.analog e) ->
  rendered S (Enc.analog (fst (@encode_pixel ntsc_h v s y syA syB x e))).
Proof.
  intros Hy Hx (Hlen & HR). unfold encode_pixel.
  destruct (rgb2yiq _ _) as [[fy fi] fq].
  destruct (iirf (Enc.iirY e) fy) as [iy fy'].
  destruct (iirf (Enc.iirI e) fi) as [ii fi'].
  destruct (iirf (Enc.iirQ e) fq) as [iq fq'].
  change (@enc_xo ntsc_h) with 216. change (@enc_yo ntsc_h) with 29.
  change (@CRT_HRES ntsc_h) with 910.
  rewrite (ntsc_add_small x 216), (ntsc_add_small y 29) by lia.
  rewrite (ntsc_mul_small (y + 29) 910) by lia.
  rewrite (ntsc_add_small (x + 216) ((y + 29) * 910)) by lia.
  destruct (aset (Enc.analog e) _ _) as [a'|f] eqn:E; cbn [fst done stop Enc.analog];
    [|split; assumption].
  apply aset_Ok_inv in E. destruct E as [Hi ->].
  assert (Hc0 : 0 <= @composite ntsc_h v x y fy' fi' fq' <= 110)
    by (unfold composite; cbv zeta; apply clamp_ire_range).
  split; [rewrite length_insert; exact Hlen|].
  intros j. destruct (decide (j = Z.to_nat (x + 216 + (y + 29) * 910))) as [->|Hne].
  - right. exists (y + 29), (x + 216), (@composite ntsc_h v x y fy' fi' fq').
    split; [lia|]. split; [lia|]. split; [f_equal; lia|].
    split; [|exact Hc0].
    rewrite list_lookup_insert_eq by lia. f_equal. apply schar_small. lia.
  - rewrite list_lookup_insert_ne by congruence. apply HR.
Qed.

Lemma encode_row_rendered v s y S e :
  0 <= y < 232 ->
  rendered S (Enc.analog e) ->
  rendered S (Enc.analog (fst (@encode_row ntsc_h v s y e))).
Proof.
  intros Hy He. unfold encode_row. cbv zeta.
  apply (for_run_invariant_in (fun e : Enc.t => rendered S (Enc.analog e)) _ 0 637).
  - intros x e0 Hx He0. apply encode_pixel_rendered; assumption.
  - lia.
  - change (@destw ntsc_h) with 637. lia.
  - exact He.
Qed.

(** The signal an encode call leaves, for [ntsc_h]: the call runs to its
    end; above line 29 and left of sample 216 every line is as the sync loop
    writes it; elsewhere a sample is as the sync loop left it or a level
    from black to 110. *)
Lemma crt_2ntsc_image v s g :
  Z.of_nat (length (CRT.analog v)) = 238420 ->
  exists b s' g',
    @crt_2ntsc ntsc_h v s g = done (CRT.set_analog v b, s', g')
    /\ length b = length (CRT.analog v)
    /\ forall n t, 0 <= n < 262 -> 0 <= t < 910 ->
         let tmpl := sync_template (NTSC_SETTINGS.field s ^& 1) (NTSC_SETTINGS.as_color s) n
                       (take 910 (drop (Z.to_nat (n * 910)) (CRT.analog v))) in
         b !! Z.to_nat (n * 910 + t) = tmpl !! Z.to_nat t
         \/ (29 <= n /\ 216 <= t
             /\ exists x, b !! Z.to_nat (n * 910 + t) = Datatypes.Some x /\ 0 <= x <= 110).
Proof.
  intros Hsz.
  destruct (crt_2ntsc_same v s g (CRT.analog v) Hsz eq_refl)
    as (b & _ & s' & g' & E & _ & _).
  exists b, s', g'. split; [exact E|].
  assert (Hb : b = CRT.analog (fst (fst (fst (@crt_2ntsc ntsc_h v s g)))))
    by (rewrite E; reflexivity).
  clear E. revert Hb. unfold crt_2ntsc. cbv zeta.
  cbn [NTSC_SETTINGS.field NTSC_SETTINGS.as_color NTSC_SETTINGS.set_field].
  destruct (sync_lines_image (NTSC_SETTINGS.field s ^& 1) (NTSC_SETTINGS.as_color s)
              (CRT.analog v) Hsz) as (S & ES & LS & HS).
  rewrite ES. cbn [done].
  match goal with
  | |- context [for_run ?n0 ?i0 ?body ?w0] =>
      assert (H : rendered S (Enc.analog (fst (for_run n0 i0 body w0))));
      [apply (for_run_invariant_in (fun e : Enc.t => rendered S (Enc.analog e)) body 0 232)
      |destruct (for_run n0 i0 body w0) as [e flt]]
  end.
  - intros y e0 Hy He0. apply encode_row_rendered; assumption.
  - lia.
  - change (@desth ntsc_h) with 232. lia.
  - cbn [Enc.analog]. split; [reflexivity|]. intros j. left. reflexivity.
  - cbn [fst CRT.analog CRT.set_analog] in *. intros ->.
    destruct H as (Hlen & HR). split; [congruence|].
    intros n t Hn Ht. cbv zeta.
    destruct (HR (Z.to_nat (n * 910 + t))) as [Heq|(n' & t' & x & Hn' & Ht' & Hj & Hx & Hr)].
    + left. rewrite Heq. apply HS; assumption.
    + right. assert (n' = n /\ t' = t) as [-> ->] by lia.
      split; [lia|]. split; [lia|]. exists x. split; assumption.
Qed.

End SyncImage.

(** ** Vertical sync of an encoded signal *)

Section VsyncLock.

Lemma running_sum_app (A R : list Z) (m : nat) :
  running_sum (A ++ R) (length A + m) = fold_left Int.add (take m R) (running_sum A (length A)).
Proof.
  unfold running_sum. rewrite take_app_add, fold_left_app, firstn_all. reflexivity.
Qed.

Lemma first_cross_spec xs : forall pre s j,
  s = fold_left Int.add pre 0 -> j = length pre ->
  (forall j', (j' < j)%nat -> ~ crossed (pre ++ xs) j') ->
  match first_cross xs s j with
  | Datatypes.Some k => first_crossing (pre ++ xs) k
  | Datatypes.None =>
      never_crosses (pre ++ xs)
      /\ running_sum (pre ++ xs) (length (pre ++ xs)) = fold_left Int.add xs s
  end.
Proof.
  induction xs as [|x xs IH]; intros pre s j Hs Hj Hpre; cbn [first_cross].
  - rewrite app_nil_r in *. split.
    + intros j' Hj'. apply Hpre. lia.
    + unfold running_sum. rewrite firstn_all. cbn. auto.
  - cbv zeta.
    assert (Hsum : running_sum (pre ++ x :: xs) (S j) = s ^+ x).
    { unfold running_sum. subst j.
      replace (S (length pre)) with (length pre + 1)%nat by lia.
      rewrite take_app_add. cbn [take]. rewrite fold_left_app. cbn [fold_left].
      rewrite <- Hs. reflexivity. }
    destruct (Z.leb_spec (s ^+ x) (100 ^* SYNC_LEVEL)) as [Hc|Hc].
    + split; [rewrite length_app; cbn [length]; lia|]. split; [|exact Hpre].
      unfold crossed. rewrite Hsum. exact Hc.
    + specialize (IH (pre ++ [x]) (s ^+ x) (S j)).
      rewrite <- app_assoc in IH. cbn [app] in IH.
      apply IH.
      * rewrite fold_left_app. cbn [fold_left]. rewrite <- Hs. reflexivity.
      * rewrite length_app. cbn [length]. lia.
      * intros j' Hj'. destruct (decide (j' = j)) as [->|Hne].
        -- unfold crossed. rewrite Hsum. lia.
        -- apply Hpre. lia.
Qed.

Lemma first_cross_found xs k :
  first_cross xs 0 0 = Datatypes.Some k -> first_crossing xs k.
Proof.
  intros H. pose proof (first_cross_spec xs [] 0 O eq_refl eq_refl) as Hs.
  rewrite H in Hs. apply Hs. intros j' Hj'. lia.
Qed.

Lemma first_cross_none xs :
  first_cross xs 0 0 = Datatypes.None ->
  never_crosses xs /\ running_sum xs (length xs) = fold_left Int.add xs 0.
Proof.
  intros H. pose proof (first_cross_spec xs [] 0 O eq_refl eq_refl) as Hs.
  rewrite H in Hs. apply Hs. intros j' Hj'. lia.
Qed.

Lemma first_crossing_unique xs j k : first_crossing xs j -> first_crossing xs k -> j = k.
Proof.
  intros (_ & Cj & Hj) (_ & Ck & Hk).
  destruct (Nat.lt_trichotomy j k) as [H|[H|H]]; [|exact H|].
  - destruct (Hk j H Cj).
  - destruct (Hj k H Ck).
Qed.

Lemma fold_levels (R : list Z) : forall s,
  Forall (fun x => 0 <= x <= 110) R -> -4000 < s -> s + 110 * Z.of_nat (length R) < 2 ^ 30 ->
  s <= fold_left Int.add R s <= s + 110 * Z.of_nat (length R).
Proof.
  induction R as [|x R IH]; intros s HR Hs Hb; cbn [fold_left length] in *; [lia|].
  inversion HR as [|? ? Hx HR']; subst.
  assert (E : s ^+ x = s + x)
    by (unfold Int.add; apply sint_small;
        unfold Int.in_range, Int.min_signed, Int.max_signed; lia).
  rewrite E. specialize (IH (s + x) HR' ltac:(lia) ltac:(lia)). lia.
Qed.

(** A line that starts with samples [A] that do not cross and goes on with
    levels from blank up does not cross. *)
Lemma never_crosses_app (A R : list Z) s :
  first_cross A 0 0 = Datatypes.None -> fold_left Int.add A 0 = s -> -4000 < s <= 0 ->
  Forall (fun x => 0 <= x <= 110) R -> Z.of_nat (length R) <= 1000 ->
  never_crosses (A ++ R).
Proof.
  intros HA Hsum Hs HR Hlen j Hj.
  destruct (first_cross_none A HA) as [HnA EA]. rewrite Hsum in EA.
  unfold crossed. change (100 ^* SYNC_LEVEL) with (-4000).
  destruct (Nat.lt_ge_cases j (length A)) as [Hlt|Hge].
  - specialize (HnA j Hlt). unfold crossed in HnA.
    change (100 ^* SYNC_LEVEL) with (-4000) in HnA.
    unfold running_sum in *. rewrite take_app_le by lia. exact HnA.
  - replace (S j) with (length A + (S j - length A))%nat by lia.
    rewrite running_sum_app, EA.
    pose proof (fold_levels (take (S j - length A) R) s) as Hf.
    rewrite length_take in Hf.
    specialize (Hf (Forall_take _ _ _ HR) ltac:(lia) ltac:(lia)). lia.
Qed.

Lemma eq_line_never_crosses : never_crosses eq_line.
Proof. apply first_cross_none. vm_compute. reflexivity. Qed.

Lemma vs_line_crossing field :
  exists j, first_crossing (vs_line (field ^& 1)) j
            /\ @vsync_field ntsc_h (Z.of_nat j) = field ^& 1.
Proof.
  unfold vs_line.
  assert (H : field ^& 1 = 0 \/ field ^& 1 = 1).
  { unfold Int.and. change (Z.land field 1) with (Z.land field (Z.ones 1)).
    rewrite Z.land_ones by lia.
    pose proof (Z.mod_pos_bound field (2 ^ 1) ltac:(lia)). change (2 ^ 1) with 2 in *. lia. }
  destruct H as [-> | ->]; cbn [Z.eqb].
  - exists 99%nat. split; [apply first_cross_found; vm_compute; reflexivity|reflexivity].
  - exists 518%nat. split; [apply first_cross_found; vm_compute; reflexivity|reflexivity].
Qed.

Lemma video_line_never_crosses as_color (R : list Z) :
  Forall (fun x => 0 <= x <= 110) R -> length R = 754%nat ->
  never_crosses (hblank as_color ++ R).
Proof.
  intros HR Hlen. unfold hblank. destruct (as_color =? 0).
  - apply (never_crosses_app _ _ (-2680)); try assumption; try lia; vm_compute; reflexivity.
  - apply (never_crosses_app _ _ (-2680)); try assumption; try lia; vm_compute; reflexivity.
Qed.

End VsyncLock.

(** ** The encoded signal, line by line *)

Section EncodedLines.

Lemma ntsc_line_lookup (b : list Z) n (i : nat) :
  0 <= n -> (i < 910)%nat ->
  @line_samples ntsc_h b n !! i = b !! Z.to_nat (n * 910 + Z.of_nat i).
Proof.
  intros Hn Hi. apply (@line_samples_lookup ntsc_h); change (@CRT_HRES ntsc_h) with 910; lia.
Qed.

Lemma ntsc_line_length (b : list Z) n :
  Z.of_nat (length b) = 238420 -> 0 <= n < 262 ->
  length (@line_samples ntsc_h b n) = 910%nat.
Proof.
  intros Hb Hn. rewrite (@line_samples_length ntsc_h); [reflexivity|exact ntsc_hdr_ok| |].
  - change (@CRT_VRES ntsc_h) with 262. lia.
  - change (@CRT_INPUT_SIZE ntsc_h) with 238420. lia.
Qed.

(** A line of the signal is the list [tmpl] when its samples are. *)
Lemma ntsc_line_eq (b tmpl : list Z) n :
  Z.of_nat (length b) = 238420 -> 0 <= n < 262 -> length tmpl = 910%nat ->
  (forall t, 0 <= t < 910 -> b !! Z.to_nat (n * 910 + t) = tmpl !! Z.to_nat t) ->
  @line_samples ntsc_h b n = tmpl.
Proof.
  intros Hb Hn Ht H. apply list_eq. intros i.
  destruct (Nat.lt_ge_cases i 910) as [Hi|Hi].
  - rewrite ntsc_line_lookup by lia. rewrite H by lia. f_equal. lia.
  - rewrite !lookup_ge_None_2; [reflexivity|lia|rewrite ntsc_line_length; lia].
Qed.

Lemma crt_2ntsc_lines v s g :
  Z.of_nat (length (CRT.analog v)) = 238420 ->
  Forall ire_ok (CRT.analog v) -> active_ok (CRT.analog v) ->
  exists b s' g',
    @crt_2ntsc ntsc_h v s g = done (CRT.set_analog v b, s', g')
    /\ Z.of_nat (length b) = 238420
    /\ Forall ire_ok b /\ active_ok b
    /\ (forall n, 0 <= n <= 3 \/ 7 <= n <= 9 -> @line_samples ntsc_h b n = eq_line)
    /\ (forall n, 4 <= n <= 6 ->
          @line_samples ntsc_h b n = vs_line (NTSC_SETTINGS.field s ^& 1))
    /\ (forall n, 10 <= n < 21 ->
          @line_samples ntsc_h b n
          = hblank (NTSC_SETTINGS.as_color s) ++ replicate 754 BLANK_LEVEL)
    /\ (forall n, 21 <= n < 262 ->
          take 156 (@line_samples ntsc_h b n) = hblank (NTSC_SETTINGS.as_color s)).
Proof.
  intros Hsz Hire Hact.
  destruct (crt_2ntsc_image v s g Hsz) as (b & s' & g' & E & Hlen & Himg).
  exists b, s', g'. split; [exact E|].
  assert (Hb : Z.of_nat (length b) = 238420) by lia.
  split; [exact Hb|].
  split.
  { pose proof (@crt_2ntsc_in_levels ntsc_h v s g Hire) as H. rewrite E in H. exact H. }
  set (f := NTSC_SETTINGS.field s ^& 1) in *. set (c := NTSC_SETTINGS.as_color s) in *.
  assert (Htail : forall n t, 21 <= n < 262 -> 156 <= t < 910 ->
            sync_template f c n (take 910 (drop (Z.to_nat (n * 910)) (CRT.analog v)))
              !! Z.to_nat t = CRT.analog v !! Z.to_nat (n * 910 + t)).
  { intros n t Hn Ht. unfold sync_template.
    destruct (Z.leb_spec n 3); [lia|]. destruct (Z.geb_spec n 7); [|lia].
    destruct (Z.leb_spec n 9); [lia|]. cbn [orb andb].
    destruct (Z.geb_spec n 4); [|lia]. destruct (Z.leb_spec n 6); [lia|]. cbn [andb].
    destruct (Z.ltb_spec n 21); [lia|].
    rewrite lookup_app_r by (rewrite hblank_length; lia). rewrite hblank_length.
    rewrite lookup_drop, lookup_take_lt by lia. rewrite lookup_drop. f_equal. lia. }
  split.
  { intros n t Hn Ht. destruct (Himg n t ltac:(lia) ltac:(lia)) as [H|(_ & _ & x & Hx & Hr)].
    - cbv zeta in H. rewrite H, Htail by lia. apply Hact; assumption.
    - exists x. split; assumption. }
  assert (Hleft : forall n t, 0 <= n < 262 -> 0 <= t < 910 -> n < 29 \/ t < 216 ->
            b !! Z.to_nat (n * 910 + t)
            = sync_template f c n (take 910 (drop (Z.to_nat (n * 910)) (CRT.analog v)))
                !! Z.to_nat t).
  { intros n t Hn Ht Hc. destruct (Himg n t Hn Ht) as [H|(H1 & H2 & _)]; [exact H|lia]. }
  split; [|split; [|split]].
  - intros n Hn. apply ntsc_line_eq; [exact Hb|lia|reflexivity|].
    intros t Ht. rewrite Hleft by lia. unfold sync_template.
    replace ((n <=? 3) || ((n >=? 7) && (n <=? 9))) with true; [reflexivity|].
    symmetry. destruct (Z.leb_spec n 3); [reflexivity|].
    destruct (Z.geb_spec n 7); [|lia]. destruct (Z.leb_spec n 9); [reflexivity|lia].
  - intros n Hn. apply ntsc_line_eq; [exact Hb|lia| |].
    { unfold vs_line. destruct (f =? 1); reflexivity. }
    intros t Ht. rewrite Hleft by lia. unfold sync_template.
    destruct (Z.leb_spec n 3); [lia|]. destruct (Z.geb_spec n 7); [lia|]. cbn [orb andb].
    destruct (Z.geb_spec n 4); [|lia]. destruct (Z.leb_spec n 6); [|lia]. reflexivity.
  - intros n Hn. apply ntsc_line_eq; [exact Hb|lia| |].
    { rewrite length_app, hblank_length, length_replicate. reflexivity. }
    intros t Ht. rewrite Hleft by lia. unfold sync_template.
    destruct (Z.leb_spec n 3); [lia|]. destruct (Z.geb_spec n 7); [|lia].
    destruct (Z.leb_spec n 9); [lia|]. cbn [orb andb].
    destruct (Z.geb_spec n 4); [|lia]. destruct (Z.leb_spec n 6); [lia|]. cbn [andb].
    destruct (Z.ltb_spec n 21); [reflexivity|lia].
  - intros n Hn. apply list_eq. intros i.
    destruct (Nat.lt_ge_cases i 156) as [Hi|Hi].
    + rewrite lookup_take_lt by lia. rewrite ntsc_line_lookup by lia.
      rewrite Hleft by lia. unfold sync_template.
      destruct (Z.leb_spec n 3); [lia|]. destruct (Z.geb_spec n 7); [|lia].
      destruct (Z.leb_spec n 9); [lia|]. cbn [orb andb].
      destruct (Z.geb_spec n 4); [|lia]. destruct (Z.leb_spec n 6); [lia|]. cbn [andb].
      rewrite lookup_app_l by (rewrite hblank_length; lia). f_equal. lia.
    + rewrite !lookup_ge_None_2; [reflexivity|rewrite hblank_length; lia|].
      rewrite length_take. lia.
Qed.

End EncodedLines.

(** ** Vertical lock *)

Section VerticalLock.

Lemma encoded_video_line (b : list Z) c n :
  Z.of_nat (length b) = 238420 -> active_ok b -> 21 <= n < 262 ->
  take 156 (@line_samples ntsc_h b n) = hblank c ->
  never_crosses (@line_samples ntsc_h b n).
Proof.
  intros Hb Hact Hn Hh.
  rewrite <- (take_drop 156 (@line_samples ntsc_h b n)), Hh.
  apply video_line_never_crosses.
  - apply Forall_lookup. intros i x Hx.
    rewrite lookup_drop in Hx.
    assert (Hi : (156 + i < 910)%nat).
    { apply lookup_lt_Some in Hx. rewrite ntsc_line_length in Hx by lia. exact Hx. }
    rewrite ntsc_line_lookup in Hx by lia.
    destruct (Hact n (Z.of_nat (156 + i)) Hn ltac:(lia)) as (y & Hy & Hr).
    rewrite Hy in Hx. injection Hx as <-. exact Hr.
  - rewrite length_drop, ntsc_line_length by lia. reflexivity.
Qed.

Lemma blank_line_never_crosses c :
  never_crosses (hblank c ++ replicate 754 BLANK_LEVEL).
Proof.
  apply video_line_never_crosses; [|apply length_replicate].
  apply Forall_replicate. change BLANK_LEVEL with 0. lia.
Qed.

Lemma vsync_search_encoded (b : list Z) f c vs0 :
  Z.of_nat (length b) = 238420 -> active_ok b ->
  (forall n, 0 <= n <= 3 \/ 7 <= n <= 9 -> @line_samples ntsc_h b n = eq_line) ->
  (forall n, 4 <= n <= 6 -> @line_samples ntsc_h b n = vs_line (f ^& 1)) ->
  (forall n, 21 <= n < 262 -> take 156 (@line_samples ntsc_h b n) = hblank c) ->
  0 <= vs0 <= 12 ->
  exists j, @vsync_search ntsc_h b vs0 = Ok (4, j) /\ @vsync_field ntsc_h j = f ^& 1.
Proof.
  intros Hb Hact Heq Hvs Hvid Hv0.
  assert (Hline : forall i, -8 <= i < 8 ->
            POSMOD (vs0 ^+ i) (@CRT_VRES ntsc_h) = (vs0 + i) mod 262).
  { intros i Hi. change (@CRT_VRES ntsc_h) with 262.
    assert (Ei : vs0 ^+ i = vs0 + i)
      by (unfold Int.add; apply sint_small;
          unfold Int.in_range, Int.min_signed, Int.max_signed; lia).
    rewrite Ei. apply POSMOD_mod. lia. }
  assert (Hquiet : forall i, -8 <= i < 4 - vs0 ->
            never_crosses (@line_samples ntsc_h b ((vs0 + i) mod 262))).
  { intros i Hi. destruct (Z.lt_ge_cases (vs0 + i) 0) as [Hneg|Hpos].
    - replace ((vs0 + i) mod 262) with (vs0 + i + 262)
        by (symmetry; rewrite <- (Z.mod_add _ 1 262) by lia; apply Z.mod_small; lia).
      apply (encoded_video_line b c); [exact Hb|exact Hact|lia|apply Hvid; lia].
    - rewrite Z.mod_small by lia. rewrite Heq by lia. apply eq_line_never_crosses. }
  destruct (vs_line_crossing f) as (j4 & Hc4 & Hf4).
  assert (H4 : (vs0 + (4 - vs0)) mod 262 = 4) by (replace (vs0 + (4 - vs0)) with 4 by lia; reflexivity).
  unfold vsync_search.
  destruct (@vsync_lines_spec ntsc_h b vs0 ntsc_hdr_ok
              ltac:(change (@CRT_INPUT_SIZE ntsc_h) with 238420; lia)
              (Z.to_nat (VSYNC_WINDOW - - VSYNC_WINDOW)) (- VSYNC_WINDOW) 0 0)
    as (line & j & E & H).
  change (Z.of_nat (Z.to_nat (VSYNC_WINDOW - - VSYNC_WINDOW))) with 16 in H.
  change (- VSYNC_WINDOW) with (-8) in *.
  change (@CRT_HRES ntsc_h) with 910 in H.
  destruct H as [(i0 & Hi0 & Hl & Hfc & Hj & Hbefore)|(Hall & _)].
  - rewrite Hline in Hl by lia.
    destruct (Z.lt_trichotomy i0 (4 - vs0)) as [Hlt|[Heq0|Hgt]].
    + exfalso. specialize (Hquiet i0 ltac:(lia)). rewrite <- Hl in Hquiet.
      destruct Hfc as (Hlen & Hcr & _). exact (Hquiet _ Hlen Hcr).
    + subst i0. rewrite H4 in Hl. subst line.
      rewrite Hvs in Hfc by lia.
      pose proof (first_crossing_unique _ _ _ Hfc Hc4) as Ej.
      exists j. split; [exact E|]. rewrite <- Hf4, <- Ej. f_equal. lia.
    + exfalso. specialize (Hbefore (4 - vs0) ltac:(lia)).
      rewrite Hline, H4, Hvs in Hbefore by lia.
      destruct Hc4 as (Hlen & Hcr & _). exact (Hbefore _ Hlen Hcr).
  - exfalso. specialize (Hall (4 - vs0) ltac:(lia)).
    rewrite Hline, H4, Hvs in Hall by lia.
    destruct Hc4 as (Hlen & Hcr & _). exact (Hall _ Hlen Hcr).
Qed.

End VerticalLock.

Section LockTheorems.

Lemma noise_inject_copy {hdr : crt_h} (a inp : list Z) rn :
  length a = Z.to_nat CRT_INPUT_SIZE -> length inp = Z.to_nat CRT_INPUT_SIZE ->
  Forall amplitude_ok a ->
  exists rn', noise_inject 0 a (rn, inp) = ((rn', a), Datatypes.None).
Proof.
  intros La Li Ha. destruct (noise_inject_quiet a rn inp La Li) as [rn' E].
  exists rn'. rewrite E. do 2 f_equal.
  apply list_eq. intros i. rewrite list_lookup_fmap.
  destruct (a !! i) as [x|] eqn:Ex; [|reflexivity].
  cbn. f_equal. apply quiet_sample_id. exact (proj1 (Forall_lookup _ _) Ha i x Ex).
Qed.

Lemma crt_draw_locked {hdr : crt_h} v g noise rn' inp' line j :
  noise_inject noise (CRT.analog v) (Statics.rn g, CRT.inp v) = ((rn', inp'), Datatypes.None) ->
  vsync_search inp' (CRT.vsync v) = Ok (line, j) ->
  CRT.vsync (fst (fst (crt_draw v g noise))) = line
  /\ CRT.inp (fst (fst (crt_draw v g noise))) = inp'
  /\ CRT.analog (fst (fst (crt_draw v g noise))) = CRT.analog v.
Proof.
  intros En Ev. unfold crt_draw. rewrite En. cbn [CRT.inp CRT.set_inp CRT.vsync].
  rewrite Ev.
  match goal with
  | |- context [for_run ?n0 ?i0 ?body ?w0] =>
      pose proof (for_run_invariant (draw_kept w0) body
                    (fun ln d Hd => draw_kept_trans _ _ _ Hd (draw_line_kept _ _ _ ln d))
                    n0 i0 w0 (draw_kept_refl _)) as H;
      destruct (for_run n0 i0 body w0) as [d flt]
  end.
  cbn [fst snd] in *. unfold draw_kept in H. cbn [Draw.crt Draw.st] in H.
  destruct H as (Ka & Ki & Kv & _). rewrite Ka, Ki, Kv. auto.
Qed.

(** The sync lines of an encoded signal.  For the reference timing, an
    encode call on a signal buffer of the full size that is within its
    levels, with an active video at or above blank, runs to its end and
    leaves: equalizing pulses on the lines 0 to 3 and 7 to 9; the vertical
    sync pulse of the field on the lines 4 to 6 (the low bit of the field
    chooses between the two shapes); blank lines with the horizontal
    blanking interval from line 10 to line 20; and the horizontal blanking
    interval (front porch, sync tip, colour burst if enabled) at the start
    of every line from 21 on.  The signal is again within its levels with an
    active video at or above blank. *)
Theorem crt_2ntsc_sync_lines (v : CRT.t) (s : NTSC_SETTINGS.t) (g : Statics.t) :
  Z.of_nat (length (CRT.analog v)) = 238420 ->
  Forall ire_ok (CRT.analog v) -> active_ok (CRT.analog v) ->
  let r := @crt_2ntsc ntsc_h v s g in
  let b := CRT.analog (fst (fst (fst r))) in
  snd r = Datatypes.None
  /\ Forall ire_ok b /\ active_ok b
  /\ (forall n, 0 <= n <= 3 \/ 7 <= n <= 9 -> @line_samples ntsc_h b n = eq_line)
  /\ (forall n, 4 <= n <= 6 ->
        @line_samples ntsc_h b n = vs_line (NTSC_SETTINGS.field s ^& 1))
  /\ (forall n, 10 <= n < 21 ->
        @line_samples ntsc_h b n
        = hblank (NTSC_SETTINGS.as_color s) ++ replicate 754 BLANK_LEVEL)
  /\ (forall n, 21 <= n < 262 ->
        take 156 (@line_samples ntsc_h b n) = hblank (NTSC_SETTINGS.as_color s)).
Proof.
  intros Hsz Hire Hact. cbv zeta.
  destruct (crt_2ntsc_lines v s g Hsz Hire Hact)
    as (b & s' & g' & E & _ & H1 & H2 & H3 & H4 & H5 & H6).
  rewrite E. cbn [fst snd done CRT.analog CRT.set_analog]. auto 10.
Qed.

(** Vertical lock.  For the reference timing, an encode call followed by a
    decode call at noise level zero, from a context with buffers of the full
    size, a signal within its levels whose active video is at or above
    blank, and a vertical sync line from 0 to 12, leaves the vertical sync
    line at 4, the first line of the vertical sync pulse, whether the decode
    call runs to its end or stops at a fault further on; the working copy
    the decoder searched is the encoded signal, and the field parity the
    search infers from it is the low bit of the field the encoder was
    given.  The signal left satisfies the same conditions again. *)
Theorem encode_decode_vertical_lock (v : CRT.t) (s : NTSC_SETTINGS.t) (g : Statics.t) :
  Z.of_nat (length (CRT.analog v)) = 238420 ->
  length (CRT.inp v) = length (CRT.analog v) ->
  Forall ire_ok (CRT.analog v) -> active_ok (CRT.analog v) ->
  0 <= CRT.vsync v <= 12 ->
  let r := @encode_decode ntsc_h v s g 0 in
  CRT.vsync (fst (fst r)) = 4
  /\ CRT.inp (fst (fst r)) = CRT.analog (fst (fst r))
  /\ (exists j,
        @vsync_search ntsc_h (CRT.inp (fst (fst r))) (CRT.vsync v) = Ok (4, j)
        /\ @vsync_field ntsc_h j = NTSC_SETTINGS.field s ^& 1)
  /\ Forall ire_ok (CRT.analog (fst (fst r))) /\ active_ok (CRT.analog (fst (fst r))).
Proof.
  intros Hsz Hinp Hire Hact Hv. cbv zeta.
  destruct (crt_2ntsc_lines v s g Hsz Hire Hact)
    as (b & s' & g' & E & Hb & Hbi & Hba & Heq & Hvs & _ & Hvid).
  unfold encode_decode. rewrite E. cbn [done].
  destruct (vsync_search_encoded b (NTSC_SETTINGS.field s) (NTSC_SETTINGS.as_color s)
              (CRT.vsync v) Hb Hba Heq Hvs Hvid Hv) as (j & Ej & Hj).
  assert (Hamp : Forall amplitude_ok b).
  { eapply Forall_impl; [exact Hbi|]. intros x Hx. unfold ire_ok, amplitude_ok in *.
    change SYNC_LEVEL with (-40) in Hx. lia. }
  destruct (@noise_inject_copy ntsc_h b (CRT.inp v) (Statics.rn g'))
    as [rn' En]; [change (@CRT_INPUT_SIZE ntsc_h) with 238420; lia
                 |change (@CRT_INPUT_SIZE ntsc_h) with 238420; lia|exact Hamp|].
  destruct (@crt_draw_locked ntsc_h (CRT.set_analog v b) g' 0 rn' b 4 j En Ej)
    as (K1 & K2 & K3).
  rewrite K1, K2, K3. cbn [CRT.analog CRT.set_analog].
  split; [reflexivity|]. split; [reflexivity|]. split; [|split; assumption].
  exists j. split; assumption.
Qed.

End LockTheorems.

Lemma crt_2ntsc_sync_lines_witness :
  let r := @crt_2ntsc ntsc_h (ntsc_ctx 0) white_2x2 ntsc_statics in
  let b := CRT.analog (fst (fst (fst r))) in
  Z.of_nat (length (CRT.analog (ntsc_ctx 0))) = 238420
  /\ Forall ire_ok (CRT.analog (ntsc_ctx 0)) /\ active_ok (CRT.analog (ntsc_ctx 0))
  /\ snd r = Datatypes.None
  /\ Forall ire_ok b /\ active_ok b
  /\ (forall n, 0 <= n <= 3 \/ 7 <= n <= 9 -> @line_samples ntsc_h b n = eq_line)
  /\ (forall n, 4 <= n <= 6 ->
        @line_samples ntsc_h b n = vs_line (NTSC_SETTINGS.field white_2x2 ^& 1))
  /\ (forall n, 10 <= n < 21 ->
        @line_samples ntsc_h b n
        = hblank (NTSC_SETTINGS.as_color white_2x2) ++ replicate 754 BLANK_LEVEL)
  /\ (forall n, 21 <= n < 262 ->
        take 156 (@line_samples ntsc_h b n) = hblank (NTSC_SETTINGS.as_color white_2x2)).
Proof.
  assert (H1 : Z.of_nat (length (CRT.analog (ntsc_ctx 0))) = 238420)
    by (vm_compute; reflexivity).
  assert (H2 : Forall ire_ok (CRT.analog (ntsc_ctx 0))).
  { unfold ntsc_ctx. cbn [CRT.analog]. apply Forall_replicate.
    vm_compute. split; discriminate. }
  assert (H3 : active_ok (CRT.analog (ntsc_ctx 0))).
  { intros n t Hn Ht. exists 0. split; [|lia].
    unfold ntsc_ctx. cbn [CRT.analog]. apply lookup_replicate_2.
    change (@CRT_INPUT_SIZE ntsc_h) with 238420. lia. }
  split; [exact H1|]. split; [exact H2|]. split; [exact H3|].
  exact (crt_2ntsc_sync_lines (ntsc_ctx 0) white_2x2 ntsc_statics H1 H2 H3).
Defined.

Lemma encode_decode_vertical_lock_witness :
  let r := @encode_decode ntsc_h (ntsc_ctx 0) white_2x2 ntsc_statics 0 in
  Z.of_nat (length (CRT.analog (ntsc_ctx 0))) = 238420
  /\ length (CRT.inp (ntsc_ctx 0)) = length (CRT.analog (ntsc_ctx 0))
  /\ Forall ire_ok (CRT.analog (ntsc_ctx 0)) /\ active_ok (CRT.analog (ntsc_ctx 0))
  /\ 0 <= CRT.vsync (ntsc_ctx 0) <= 12
  /\ CRT.vsync (fst (fst r)) = 4
  /\ CRT.inp (fst (fst r)) = CRT.analog (fst (fst r))
  /\ (exists j,
        @vsync_search ntsc_h (CRT.inp (fst (fst r))) (CRT.vsync (ntsc_ctx 0)) = Ok (4, j)
        /\ @vsync_field ntsc_h j = NTSC_SETTINGS.field white_2x2 ^& 1)
  /\ Forall ire_ok (CRT.analog (fst (fst r))) /\ active_ok (CRT.analog (fst (fst r))).
Proof.
  assert (H1 : Z.of_nat (length (CRT.analog (ntsc_ctx 0))) = 238420)
    by (vm_compute; reflexivity).
  assert (H0 : length (CRT.inp (ntsc_ctx 0)) = length (CRT.analog (ntsc_ctx 0)))
    by (unfold ntsc_ctx; cbn [CRT.inp CRT.analog]; rewrite !length_replicate; reflexivity).
  assert (H2 : Forall ire_ok (CRT.analog (ntsc_ctx 0))).
  { unfold ntsc_ctx. cbn [CRT.analog]. apply Forall_replicate.
    vm_compute. split; discriminate. }
  assert (H3 : active_ok (CRT.analog (ntsc_ctx 0))).
  { intros n t Hn Ht. exists 0. split; [|lia].
    unfold ntsc_ctx. cbn [CRT.analog]. apply lookup_replicate_2.
    change (@CRT_INPUT_SIZE ntsc_h) with 238420. lia. }
  assert (H4 : 0 <= CRT.vsync (ntsc_ctx 0) <= 12) by (cbn; lia).
  split; [exact H1|]. split; [exact H0|]. split; [exact H2|]. split; [exact H3|].
  split; [exact H4|].
  exact (encode_decode_vertical_lock (ntsc_ctx 0) white_2x2 ntsc_statics H1 H0 H2 H3 H4).
Defined.

(** ** Horizontal lock *)

Section HorizontalLock.

Lemma burst_fill_lookup_lt k : forall t (l : list Z) (i : nat),
  0 <= t -> (Z.of_nat i < t) -> burst_fill k t l !! i = l !! i.
Proof.
  induction k as [|k IH]; intros t l i Ht Hi; cbn [burst_fill]; [reflexivity|].
  rewrite IH by lia. apply list_lookup_insert_ne. lia.
Qed.

(** The start of the blanking interval: front porch, then sync tip. *)
Lemma hblank_start c t :
  0 <= t < 88 ->
  hblank c !! Z.to_nat t = Datatypes.Some (if t <? 21 then BLANK_LEVEL else SYNC_LEVEL).
Proof.
  intros Ht.
  assert (H : hblank_plain !! Z.to_nat t
              = Datatypes.Some (if t <? 21 then BLANK_LEVEL else SYNC_LEVEL)).
  { unfold hblank_plain. destruct (Z.ltb_spec t 21).
    - rewrite lookup_app_l by (rewrite length_replicate; lia).
      apply lookup_replicate_2. lia.
    - rewrite lookup_app_r by (rewrite length_replicate; lia). rewrite length_replicate.
      rewrite lookup_app_l by (rewrite length_replicate; lia).
      apply lookup_replicate_2. lia. }
  unfold hblank. destruct (c =? 0); [exact H|].
  rewrite burst_fill_lookup_lt by lia. exact H.
Qed.

Lemma hsync_scan_blank {hdr : crt_h} (inp : list Z) base m : forall k i,
  (forall i', i <= i' < i + Z.of_nat m ->
     aget inp (base + (SYNC_BEG ^+ i')) = Ok BLANK_LEVEL) ->
  hsync_scan (m + k) inp base i 0 = hsync_scan k inp base (i + Z.of_nat m) 0.
Proof.
  induction m as [|m IH]; intros k i H.
  - cbn [Nat.add]. rewrite Z.add_0_r. reflexivity.
  - cbn [Nat.add hsync_scan]. rewrite (H i) by lia. cbn [res_bind].
    change (0 ^+ BLANK_LEVEL) with 0. change (0 <=? 4 ^* SYNC_LEVEL) with false. cbv iota.
    rewrite IH by (intros i' Hi'; apply H; lia). f_equal. lia.
Qed.

Lemma hsync_scan_tip {hdr : crt_h} (inp : list Z) base k i :
  (forall i', i <= i' < i + 4 -> aget inp (base + (SYNC_BEG ^+ i')) = Ok SYNC_LEVEL) ->
  hsync_scan (4 + k) inp base i 0 = Ok (i + 3).
Proof.
  intros H. cbn [Nat.add hsync_scan].
  rewrite (H i) by lia. cbn [res_bind].
  change (0 ^+ SYNC_LEVEL <=? 4 ^* SYNC_LEVEL) with false. cbv iota.
  rewrite (H (i + 1)) by lia. cbn [res_bind].
  change (0 ^+ SYNC_LEVEL ^+ SYNC_LEVEL <=? 4 ^* SYNC_LEVEL) with false. cbv iota.
  rewrite (H (i + 1 + 1)) by lia. cbn [res_bind].
  change (0 ^+ SYNC_LEVEL ^+ SYNC_LEVEL ^+ SYNC_LEVEL <=? 4 ^* SYNC_LEVEL) with false.
  cbv iota.
  rewrite (H (i + 1 + 1 + 1)) by lia. cbn [res_bind].
  change (0 ^+ SYNC_LEVEL ^+ SYNC_LEVEL ^+ SYNC_LEVEL ^+ SYNC_LEVEL <=? 4 ^* SYNC_LEVEL)
    with true. cbv iota. f_equal. lia.
Qed.

Lemma hsync_search_line (b : list Z) c n h :
  Z.of_nat (length b) = 238420 -> 0 <= n < 262 ->
  take 156 (@line_samples ntsc_h b n) = hblank c ->
  0 <= h <= 8 ->
  @hsync_search ntsc_h b (n * 910 + h) = Ok (3 - h)
  /\ POSMOD ((3 - h) ^+ h) (@CRT_HRES ntsc_h) = 3.
Proof.
  intros Hb Hn Hline Hh. split.
  - assert (Hget : forall i, -8 <= i < 8 ->
              aget b (n * 910 + h + (@SYNC_BEG ntsc_h ^+ i))
              = Ok (if i <? - h then BLANK_LEVEL else SYNC_LEVEL)).
    { intros i Hi. change (@SYNC_BEG ntsc_h) with 21.
      assert (E : 21 ^+ i = 21 + i)
        by (unfold Int.add; apply sint_small;
            unfold Int.in_range, Int.min_signed, Int.max_signed; lia).
      rewrite E.
      pose proof (hblank_start c (h + 21 + i) ltac:(lia)) as Hs.
      rewrite <- Hline in Hs. rewrite lookup_take_lt in Hs by lia.
      rewrite ntsc_line_lookup in Hs by lia.
      unfold aget. destruct (Z.leb_spec 0 (n * 910 + h + (21 + i))); [|lia].
      replace (Z.to_nat (n * 910 + h + (21 + i)))
        with (Z.to_nat (n * 910 + Z.of_nat (Z.to_nat (h + 21 + i)))) by lia.
      rewrite Hs. f_equal.
      destruct (Z.ltb_spec (h + 21 + i) 21); destruct (Z.ltb_spec i (- h)); (reflexivity || lia). }
    unfold hsync_search.
    change (Z.to_nat (HSYNC_WINDOW - - HSYNC_WINDOW)) with 16%nat.
    change (- HSYNC_WINDOW) with (-8).
    replace 16%nat with (Z.to_nat (8 - h) + (4 + Z.to_nat (4 + h)))%nat by lia.
    rewrite hsync_scan_blank.
    + rewrite hsync_scan_tip; [f_equal; lia|].
      intros i Hi. rewrite Hget by lia. destruct (Z.ltb_spec i (- h)); [lia|reflexivity].
    + intros i Hi. rewrite Hget by lia. destruct (Z.ltb_spec i (- h)); [reflexivity|lia].
  - change (@CRT_HRES ntsc_h) with 910.
    assert (E : (3 - h) ^+ h = 3)
      by (unfold Int.add; replace (3 - h + h) with 3 by lia; reflexivity).
    rewrite E. reflexivity.
Qed.

(** Horizontal lock.  For the reference timing, on every line from 21 on of
    a signal encoded as in [crt_2ntsc_sync_lines], the horizontal sync search
    of the decoder, started with an offset from 0 to 8, stops at the fourth
    sample of the sync tip, and the offset it leaves is 3. *)
Theorem crt_2ntsc_horizontal_lock (v : CRT.t) (s : NTSC_SETTINGS.t) (g : Statics.t)
    (n h : Z) :
  Z.of_nat (length (CRT.analog v)) = 238420 ->
  Forall ire_ok (CRT.analog v) -> active_ok (CRT.analog v) ->
  21 <= n < 262 -> 0 <= h <= 8 ->
  let b := CRT.analog (fst (fst (fst (@crt_2ntsc ntsc_h v s g)))) in
  @hsync_search ntsc_h b (n * 910 + h) = Ok (3 - h)
  /\ POSMOD ((3 - h) ^+ h) (@CRT_HRES ntsc_h) = 3.
Proof.
  intros Hsz Hire Hact Hn Hh. cbv zeta.
  destruct (crt_2ntsc_lines v s g Hsz Hire Hact)
    as (b & s' & g' & E & Hb & _ & _ & _ & _ & _ & Hvid).
  rewrite E. cbn [fst done CRT.analog CRT.set_analog].
  apply (hsync_search_line b (NTSC_SETTINGS.as_color s)); [exact Hb|lia|apply Hvid; lia|exact Hh].
Qed.

End HorizontalLock.

Lemma crt_2ntsc_horizontal_lock_witness :
  let b := CRT.analog (fst (fst (fst (@crt_2ntsc ntsc_h (ntsc_ctx 0) white_2x2 ntsc_statics)))) in
  Z.of_nat (length (CRT.analog (ntsc_ctx 0))) = 238420
  /\ Forall ire_ok (CRT.analog (ntsc_ctx 0)) /\ active_ok (CRT.analog (ntsc_ctx 0))
  /\ 21 <= 25 < 262 /\ 0 <= 0 <= 8
  /\ @hsync_search ntsc_h b (25 * 910 + 0) = Ok (3 - 0)
  /\ POSMOD ((3 - 0) ^+ 0) (@CRT_HRES ntsc_h) = 3.
Proof.
  assert (H1 : Z.of_nat (length (CRT.analog (ntsc_ctx 0))) = 238420)
    by (vm_compute; reflexivity).
  assert (H2 : Forall ire_ok (CRT.analog (ntsc_ctx 0))).
  { unfold ntsc_ctx. cbn [CRT.analog]. apply Forall_replicate.
    vm_compute. split; discriminate. }
  assert (H3 : active_ok (CRT.analog (ntsc_ctx 0))).
  { intros n t Hn Ht. exists 0. split; [|lia].
    unfold ntsc_ctx. cbn [CRT.analog]. apply lookup_replicate_2.
    change (@CRT_INPUT_SIZE ntsc_h) with 238420. lia. }
  assert (H4 : 21 <= 25 < 262) by lia. assert (H5 : 0 <= 0 <= 8) by lia.
  split; [exact H1|]. split; [exact H2|]. split; [exact H3|]. split; [exact H4|].
  split; [exact H5|].
  exact (crt_2ntsc_horizontal_lock (ntsc_ctx 0) white_2x2 ntsc_statics 25 0 H1 H2 H3 H4 H5).
Defined.

(** ** Initialisation *)

Section InitFacts.
Context {hdr : crt_h}.

(** The kilohertz to line sample conversion is a plain scaled quotient as
    long as the product fits an [int]. *)
Lemma kHz2L_plain (kHz : Z) :
  0 < CRT_HRES <= 7000 -> 0 <= kHz <= 3000 ->
  kHz2L kHz = CRT_HRES * (kHz * 100) / L_FREQ
  /\ 0 <= 1431818 * kHz2L kHz <= CRT_HRES * (kHz * 100).
Proof.
  intros Hh Hk. unfold kHz2L.
  assert (E1 : kHz ^* 100 = kHz * 100)
    by (unfold Int.mul; apply sint_small;
        unfold Int.in_range, Int.min_signed, Int.max_signed; lia).
  assert (E2 : CRT_HRES ^* (kHz * 100) = CRT_HRES * (kHz * 100))
    by (unfold Int.mul; apply sint_small;
        unfold Int.in_range, Int.min_signed, Int.max_signed; nia).
  rewrite E1, E2. change L_FREQ with 1431818.
  assert (H0 : 0 <= CRT_HRES * (kHz * 100)) by nia.
  assert (Hq : 0 <= CRT_HRES * (kHz * 100) / 1431818 <= 7000 * 300000 / 1431818).
  { split; [apply Z.div_pos; lia|apply Z.div_le_mono; [lia|nia]]. }
  change (7000 * 300000 / 1431818) with 1466 in Hq.
  unfold Int.div. rewrite Z.quot_div_nonneg by lia.
  rewrite sint_small
    by (unfold Int.in_range, Int.min_signed, Int.max_signed; lia).
  split; [reflexivity|].
  split; [lia|]. apply Z.mul_div_le. lia.
Qed.

Lemma kHz2L_mono (a b : Z) :
  0 < CRT_HRES <= 7000 -> 0 <= a <= b -> b <= 3000 -> kHz2L a <= kHz2L b.
Proof.
  intros Hh Ha Hb.
  destruct (kHz2L_plain a Hh ltac:(lia)) as [-> _].
  destruct (kHz2L_plain b Hh ltac:(lia)) as [-> _].
  apply Z.div_le_mono; [reflexivity|nia].
Qed.

(** [crt_init] for a line of up to 7000 samples: no step of it faults; the
    context it leaves has both signal buffers zeroed, the sync offsets at 0,
    the default picture settings and the output that was asked for; the three
    equalizers are in the reset state with their gains and ordered fractions,
    and the three low pass filters have the coefficients 1233, 574 and 232
    and an empty history. *)
Theorem crt_init_fresh (w h : Z) (out : mem) (rn : Z) :
  0 < CRT_HRES <= 7000 ->
  exists v g,
    crt_init w h out rn = Ok (v, g)
    /\ v = CRT.mk (replicate (Z.to_nat CRT_INPUT_SIZE) 0)
                  (replicate (Z.to_nat CRT_INPUT_SIZE) 0)
                  0 0 0 179 18 0 100 w h out
    /\ Statics.rn g = rn
    /\ EQF.g (Statics.eqY g) = [65536; 8192; 9175]
    /\ EQF.g (Statics.eqI g) = [65536; 65536; 1311]
    /\ EQF.g (Statics.eqQ g) = [65536; 65536; 0]
    /\ (forall f, In f [Statics.eqY g; Statics.eqI g; Statics.eqQ g] ->
          reset_eq f = f /\ 0 <= EQF.lf f <= EQF.hf f /\ EQF.hf f <= 131072)
    /\ Statics.iirY g = IIRLP.mk 1233 0
    /\ Statics.iirI g = IIRLP.mk 574 0
    /\ Statics.iirQ g = IIRLP.mk 232 0.
Proof.
  intros Hh. unfold crt_init.
  assert (Heq : forall a b g1 g2 g3, 0 <= a <= b -> b <= 3000 ->
            exists lf hf,
              init_eq (kHz2L a) (kHz2L b) CRT_HRES g1 g2 g3
              = Ok (EQF.mk lf hf [g1; g2; g3] [0; 0; 0; 0] [0; 0; 0; 0] [0; 0; 0])
              /\ 0 <= lf <= hf /\ hf <= 131072).
  { intros a b g1 g2 g3 Ha Hb.
    pose proof (kHz2L_plain a Hh ltac:(lia)) as [_ Pa].
    pose proof (kHz2L_plain b Hh ltac:(lia)) as [_ Pb].
    pose proof (kHz2L_mono a b Hh Ha Hb) as Hm.
    apply init_eq_ok; [lia|lia|nia]. }
  destruct (Heq 1500 3000 65536 8192 9175 ltac:(lia) ltac:(lia)) as (l1 & h1 & -> & B1).
  destruct (Heq 80 1150 65536 65536 1311 ltac:(lia) ltac:(lia)) as (l2 & h2 & -> & B2).
  destruct (Heq 80 1000 65536 65536 0 ltac:(lia) ltac:(lia)) as (l3 & h3 & -> & B3).
  cbn [res_bind].
  assert (EY : init_iir L_FREQ Y_FREQ = Ok (IIRLP.mk 1233 0)) by (vm_compute; reflexivity).
  assert (EI : init_iir L_FREQ I_FREQ = Ok (IIRLP.mk 574 0)) by (vm_compute; reflexivity).
  assert (EQ : init_iir L_FREQ Q_FREQ = Ok (IIRLP.mk 232 0)) by (vm_compute; reflexivity).
  rewrite EY, EI, EQ. cbn [res_bind].
  eexists _, _. split; [reflexivity|].
  cbn [Statics.rn Statics.eqY Statics.eqI Statics.eqQ Statics.iirY Statics.iirI Statics.iirQ
       EQF.g].
  repeat (split; [reflexivity|]).
  split; [|repeat split; reflexivity].
  intros f Hf. cbn [In] in Hf.
  destruct Hf as [<-|[<-|[<-|[]]]]; (split; [reflexivity|]); cbn [EQF.lf EQF.hf]; lia.
Qed.

End InitFacts.

Lemma crt_init_fresh_witness :
  0 < @CRT_HRES ntsc_h <= 7000
  /\ exists v g,
    @crt_init ntsc_h 320 240 (fun _ => 0) 194 = Ok (v, g)
    /\ v = CRT.mk (replicate (Z.to_nat (@CRT_INPUT_SIZE ntsc_h)) 0)
                  (replicate (Z.to_nat (@CRT_INPUT_SIZE ntsc_h)) 0)
                  0 0 0 179 18 0 100 320 240 (fun _ => 0)
    /\ Statics.rn g = 194
    /\ EQF.g (Statics.eqY g) = [65536; 8192; 9175]
    /\ EQF.g (Statics.eqI g) = [65536; 65536; 1311]
    /\ EQF.g (Statics.eqQ g) = [65536; 65536; 0]
    /\ (forall f, In f [Statics.eqY g; Statics.eqI g; Statics.eqQ g] ->
          reset_eq f = f /\ 0 <= EQF.lf f <= EQF.hf f /\ EQF.hf f <= 131072)
    /\ Statics.iirY g = IIRLP.mk 1233 0
    /\ Statics.iirI g = IIRLP.mk 574 0
    /\ Statics.iirQ g = IIRLP.mk 232 0.
Proof.
  assert (H : 0 < @CRT_HRES ntsc_h <= 7000) by (change (@CRT_HRES ntsc_h) with 910; lia).
  split; [exact H|].
  exact (@crt_init_fresh ntsc_h 320 240 (fun _ => 0) 194 H).
Defined.
